(** * Research service of the coworker application

    A shallow embedding of [src/services/research.ts]: the relevance
    scorers, the three source adapters, the synthesizer and the
    orchestrator [researchTopic], followed by the properties the
    specification states about them.

    - Numbers are IEEE-754 binary64 values, as in JavaScript: the type
      [spec_float] of the standard library with its correctly rounded
      operations at precision 53.
    - Strings are read as ASCII text: [toLowerCase] acts on the letters
      A to Z, and white space is the white space below code 128.
    - A call that can throw, or a promise that can be rejected, produces
      a [Completion]; [try]/[catch] is [try_catch].
    - The network, the HTML parser and the URL functions of the host are
      the fields of the record [Host]; every statement quantifies over
      all hosts.  The calls of the logger are left out. *)

From Stdlib Require Import ZArith List String Ascii Bool Lia Sorted Permutation.
From Stdlib Require Import DecimalString.
From Stdlib Require Import Floats.SpecFloat.
Import ListNotations.

Local Open Scope Z_scope.

(* ===================================================================== *)
(** * JavaScript numbers *)
(* ===================================================================== *)

Module JsNumber.

Definition prec : Z := 53.
Definition emax : Z := 1024.

Definition number : Type := spec_float.

Definition NaN : number := S754_nan.

(** An integer, rounded to the nearest double (exact below 2^53). *)
Definition ofZ (z : Z) : number := binary_normalize prec emax z 0 false.
Definition ofNat (n : nat) : number := ofZ (Z.of_nat n).
Definition ofN (n : N) : number := ofZ (Z.of_N n).

Definition add : number -> number -> number := SFadd prec emax.
Definition sub : number -> number -> number := SFsub prec emax.
Definition mul : number -> number -> number := SFmul prec emax.
Definition div : number -> number -> number := SFdiv prec emax.

(** The decimal literal [n/d]: the double nearest to the quotient. *)
Definition dec (n d : Z) : number := div (ofZ n) (ofZ d).

Definition zero : number := Eval vm_compute in ofZ 0.
Definition one : number := Eval vm_compute in ofZ 1.
Definition lit_0_3 : number := Eval vm_compute in dec 3 10.
Definition lit_0_4 : number := Eval vm_compute in dec 4 10.
Definition lit_0_6 : number := Eval vm_compute in dec 6 10.
Definition lit_0_7 : number := Eval vm_compute in dec 7 10.
Definition lit_0_8 : number := Eval vm_compute in dec 8 10.
Definition lit_10000 : number := Eval vm_compute in ofZ 10000.

(** ** Comparison by value

    A finite number [(s, m, e)] denotes [(-1)^s * m * 2^e].  Two finite
    numbers are compared after scaling both to their smaller exponent,
    where they are integers. *)

Definition exponent (x : number) : option Z :=
  match x with
  | S754_finite _ _ e => Some e
  | _ => None
  end.

Definition common_exponent (x y : number) : Z :=
  match exponent x, exponent y with
  | Some ex, Some ey => Z.min ex ey
  | Some ex, None => ex
  | None, Some ey => ey
  | None, None => 0
  end.

(** The value of a zero or finite [x] in units of [2^e0], for [e0] at
    most the exponent of [x]. *)
Definition scaled (e0 : Z) (x : number) : Z :=
  match x with
  | S754_finite s m e => cond_Zopp s (Zpos m * 2 ^ (e - e0))
  | _ => 0
  end.

Definition compare (x y : number) : option comparison :=
  match x, y with
  | S754_nan, _ | _, S754_nan => None
  | S754_infinity sx, S754_infinity sy =>
      Some (match sx, sy with
            | true, false => Lt
            | false, true => Gt
            | _, _ => Eq
            end)
  | S754_infinity sx, _ => Some (if sx then Lt else Gt)
  | _, S754_infinity sy => Some (if sy then Gt else Lt)
  | _, _ =>
      let e0 := common_exponent x y in
      Some (Z.compare (scaled e0 x) (scaled e0 y))
  end.

(** [x < y], [x <= y], [x > y], [x >= y]: false when an operand is NaN. *)
Definition ltb (x y : number) : bool :=
  match compare x y with Some Lt => true | _ => false end.
Definition leb (x y : number) : bool :=
  match compare x y with Some (Lt | Eq) => true | _ => false end.
Definition gtb (x y : number) : bool := ltb y x.
Definition geb (x y : number) : bool := leb y x.

(** [Math.min] and [Math.max]: NaN when an operand is NaN, and [-0]
    below [+0]. *)
Definition Math_min (x y : number) : number :=
  match compare x y with
  | None => NaN
  | Some Lt => x
  | Some Gt => y
  | Some Eq =>
      match x, y with
      | S754_zero sx, S754_zero sy => S754_zero (sx || sy)
      | _, _ => x
      end
  end.

Definition Math_max (x y : number) : number :=
  match compare x y with
  | None => NaN
  | Some Lt => y
  | Some Gt => x
  | Some Eq =>
      match x, y with
      | S754_zero sx, S754_zero sy => S754_zero (sx && sy)
      | _, _ => x
      end
  end.

(** A number that is not NaN and whose sign bit is clear: [+0], a
    positive finite number or [+Infinity]. *)
Definition is_nonneg (x : number) : bool :=
  match x with
  | S754_zero false | S754_infinity false | S754_finite false _ _ => true
  | _ => false
  end.

(** Every finite result of a rounded operation has an exponent of at
    least [emin]; at that scale all of them are integers. *)
Definition emin : Z := SpecFloat.emin prec emax.

Definition well_scaled (x : number) : bool :=
  match x with
  | S754_finite _ _ e => emin <=? e
  | _ => true
  end.

(** ** Vocabulary of the rounding lemmas *)

(** The exponent [binary_round_aux] gives a number of magnitude below
    [2^e], at the parameters of binary64. *)
Definition fexp' (e : Z) : Z := Z.max (e - 53) (-1074).

(** Some bit has been shifted out of a shift record. *)
Definition inexact (r : shr_record) : bool := shr_r r || shr_s r.

(** A zero or a finite number of magnitude at most [2^k]. *)
Definition le_pow2 (k : Z) (x : number) : Prop :=
  match x with
  | S754_zero _ => True
  | S754_finite _ p e => e <= k /\ Zpos p <= 2 ^ (k - e)
  | _ => False
  end.

(** Not NaN, with sign bit [s]. *)
Definition has_sign (s : bool) (x : number) : Prop :=
  match x with
  | S754_zero s' | S754_infinity s' | S754_finite s' _ _ => s' = s
  | S754_nan => False
  end.

Definition is_pos (x : number) : bool :=
  match x with
  | S754_infinity false | S754_finite false _ _ => true
  | _ => false
  end.

Definition is_nan (x : number) : bool :=
  match x with S754_nan => true | _ => false end.

(** Order-preserving key of a number that is not NaN: the sign of an
    infinity, then the value in units of [2^emin]. *)
Definition key (x : number) : Z * Z :=
  match x with
  | S754_infinity true => (-1, 0)
  | S754_infinity false => (1, 0)
  | _ => (0, scaled emin x)
  end.

Definition key_le (a b : Z * Z) : Prop :=
  fst a < fst b \/ (fst a = fst b /\ snd a <= snd b).

(** Numbers that a comparison orders: not NaN, and on the scale of the
    rounded results. *)
Definition comparable (x : number) : Prop :=
  is_nan x = false /\ well_scaled x = true.

End JsNumber.

(* ===================================================================== *)
(** * JavaScript strings and arrays *)
(* ===================================================================== *)

Module JsString.

Local Open Scope nat_scope.

Definition lower_ascii (c : ascii) : ascii :=
  let n := nat_of_ascii c in
  if (65 <=? n) && (n <=? 90) then ascii_of_nat (n + 32) else c.

(** [s.toLowerCase()] *)
Fixpoint toLowerCase (s : string) : string :=
  match s with
  | EmptyString => EmptyString
  | String c s' => String (lower_ascii c) (toLowerCase s')
  end.

(** [s.startsWith(p)] *)
Fixpoint startsWith (s p : string) : bool :=
  match p, s with
  | EmptyString, _ => true
  | String _ _, EmptyString => false
  | String b p', String a s' => Ascii.eqb a b && startsWith s' p'
  end.

(** [s.includes(sub)]: [sub] occurs in [s] at some position. *)
Fixpoint includes (s sub : string) : bool :=
  startsWith s sub ||
  match s with
  | EmptyString => false
  | String _ s' => includes s' sub
  end.

(** [s.split(sep)] for a separator of one character: never empty. *)
Fixpoint split (sep : ascii) (s : string) : list string :=
  match s with
  | EmptyString => [EmptyString]
  | String c s' =>
      if Ascii.eqb c sep then EmptyString :: split sep s'
      else match split sep s' with
           | w :: ws => String c w :: ws
           | [] => [String c EmptyString]
           end
  end.

(** [parts.join(sep)] *)
Definition join (sep : string) (parts : list string) : string :=
  String.concat sep parts.

(** White space below code 128: tab, line feed, vertical tab, form
    feed, carriage return and space. *)
Definition is_space (c : ascii) : bool :=
  let n := nat_of_ascii c in
  ((9 <=? n) && (n <=? 13)) || (n =? 32).

Fixpoint trimStart (s : string) : string :=
  match s with
  | EmptyString => EmptyString
  | String c s' => if is_space c then trimStart s' else s
  end.

Fixpoint trimEnd (s : string) : string :=
  match s with
  | EmptyString => EmptyString
  | String c s' =>
      match trimEnd s' with
      | EmptyString => if is_space c then EmptyString else String c EmptyString
      | t => String c t
      end
  end.

(** [s.trim()] *)
Definition trim (s : string) : string := trimEnd (trimStart s).

Definition space : ascii := ascii_of_nat 32.
Definition newline : ascii := ascii_of_nat 10.
Definition tab : ascii := ascii_of_nat 9.
Definition dot : ascii := ascii_of_nat 46.
Definition nl : string := String newline EmptyString.

(** [String(n)] for a length. *)
Definition ofLength (n : nat) : string :=
  NilEmpty.string_of_uint (Nat.to_uint n).

(** A non-empty string is truthy. *)
Definition truthy (s : string) : bool :=
  match s with EmptyString => false | _ => true end.

End JsString.

Module JsArray.

(** [a.slice(start, end)] for [0 <= start] and [0 <= end]. *)
Definition slice {A} (start end_ : nat) (a : list A) : list A :=
  firstn (end_ - start) (skipn start a).

(** [a.sort(compareFn)]: the sort is stable, and an element moves behind
    another one exactly when [compareFn] is positive on the pair; on a
    comparator that orders the elements every stable sort returns this
    list. *)
Fixpoint insert {A} (compareFn : A -> A -> JsNumber.number) (x : A)
         (sorted : list A) : list A :=
  match sorted with
  | [] => [x]
  | y :: rest =>
      if JsNumber.gtb (compareFn x y) JsNumber.zero
      then y :: insert compareFn x rest
      else x :: y :: rest
  end.

Fixpoint sort {A} (compareFn : A -> A -> JsNumber.number) (a : list A)
  : list A :=
  match a with
  | [] => []
  | x :: rest => insert compareFn x (sort compareFn rest)
  end.

End JsArray.

(* ===================================================================== *)
(** * Exceptions *)
(* ===================================================================== *)

(** What a call that can throw (or an awaited promise that can reject)
    produces. *)
Inductive Error : Type :=
| TypeError
| URIError
| RequestError
| MkError (message : string).

Inductive Completion (A : Type) : Type :=
| Return (a : A)
| Throw (e : Error).

Arguments Return {A} a.
Arguments Throw {A} e.

Definition bind {A B} (c : Completion A) (k : A -> Completion B)
  : Completion B :=
  match c with
  | Return a => k a
  | Throw e => Throw e
  end.

(** [try { body } catch (error) { handler }] *)
Definition try_catch {A} (body : Completion A)
           (handler : Error -> Completion A) : Completion A :=
  match body with
  | Return a => Return a
  | Throw e => handler e
  end.

Notation "x <- c ;; k" := (bind c (fun x => k))
  (at level 61, c at next level, right associativity).

(** [items.map(f)], where [f] can throw. *)
Fixpoint mapM {A B} (f : A -> Completion B) (items : list A)
  : Completion (list B) :=
  match items with
  | [] => Return []
  | x :: rest =>
      y <- f x ;;
      ys <- mapM f rest ;;
      Return (y :: ys)
  end.

(* ===================================================================== *)
(** * Data model ([src/types/index.ts]) *)
(* ===================================================================== *)

Import JsNumber.

Inductive ResourceType : Type :=
| documentation | tutorial | repository | article.

Record Resource : Type := {
  title : string;
  url : string;
  type : ResourceType;
  relevance : number
}.

Record CodeExample : Type := {
  language : string;
  code : string;
  description : string;
  source : string
}.

Record ResearchQuery : Type := {
  technology : string;
  purpose : string;
  constraints : option (list string)
}.

Record ResearchResult : Type := {
  summary : string;
  recommendations : list string;
  codeExamples : list CodeExample;
  resources : list Resource
}.

(** A repository of the repository search.  The [description] can be
    missing ([null] or [undefined]); the star count is a natural
    number. *)
Module Repo.
Record t : Type := {
  full_name : string;
  html_url : string;
  name : string;
  description : option string;
  stargazers_count : N
}.
End Repo.

(** An item of the code search. *)
Module CodeItem.
Record t : Type := {
  url : string;
  name : string;
  html_url : string;
  repository_full_name : string
}.
End CodeItem.

(** An anchor selected on a fetched page: [$(element).text()] and
    [$(element).attr('href')]. *)
Record Anchor : Type := {
  anchor_text : string;
  anchor_href : option string
}.

(* ===================================================================== *)
(** * The host: network, HTML parser, URL functions *)
(* ===================================================================== *)

Record Host : Type := {
  (** [axios.get] on the repository search with query [q]: the request
      can be rejected; a response carries [data.items], which is an
      array or is missing; an item is a repository or [null]. *)
  get_search_repositories :
    string -> Completion (option (list (option Repo.t)));
  (** [encodeURIComponent]: throws [URIError] on a lone surrogate; which
      strings stand for such terms is left to the host. *)
  encodeURIComponent : string -> Completion string;
  (** [axios.get(url)], [cheerio.load] and the selection of the anchors
      whose [href] contains the term, in document order; the request or
      the selection can throw. *)
  get_page_anchors : string -> string -> Completion (list Anchor);
  (** [new URL(href, base).toString()] *)
  resolve_URL : string -> string -> Completion string;
  (** [axios.get] on the code search with query [q]. *)
  get_search_code : string -> Completion (option (list CodeItem.t));
  (** [axios.get(item.url)] followed by the base64 decoding of
      [data.content]. *)
  get_file_content : string -> Completion string
}.

(* ===================================================================== *)
(** * The research service ([src/services/research.ts]) *)
(* ===================================================================== *)

Module ResearchService.

Import JsString JsArray.
Local Open Scope string_scope.
Local Open Scope nat_scope.

(** ** Relevance scorers *)

(** [calculateRelevance(repo, technology)]: a missing or empty
    description is falsy and skips the description test. *)
Definition calculateRelevance (repo : Repo.t) (technology : string)
  : number :=
  let relevance := zero in
  let relevance :=
    if includes (toLowerCase (Repo.name repo)) (toLowerCase technology)
    then add relevance lit_0_4 else relevance in
  let relevance :=
    match Repo.description repo with
    | Some description =>
        if truthy description
           && includes (toLowerCase description) (toLowerCase technology)
        then add relevance lit_0_3 else relevance
    | None => relevance
    end in
  let relevance :=
    add relevance
        (Math_min (div (ofN (Repo.stargazers_count repo)) lit_10000)
                  lit_0_3) in
  Math_min relevance one.

(** [calculateTextRelevance(text, technology)] *)
Definition calculateTextRelevance (text technology : string) : number :=
  let lowerText := toLowerCase text in
  let lowerTech := toLowerCase technology in
  if includes lowerText lowerTech then lit_0_8
  else
    let words := split space lowerTech in
    let matchedWords := filter (fun word => includes lowerText word) words in
    mul (div (ofNat (List.length matchedWords)) (ofNat (List.length words))) lit_0_6.

(** ** Repository adapter *)

(** The [q] parameter of the repository search. *)
Definition repositoryQuery (technology : string) : string :=
  technology ++ " language:typescript language:javascript stars:>100".

Definition searchGitHub (h : Host) (technology : string)
  : Completion (list Resource) :=
  try_catch
    (response <- get_search_repositories h (repositoryQuery technology) ;;
     items <- match response with
              | Some items => Return items
              | None => Throw TypeError
              end ;;
     mapM (fun item =>
             match item with
             | Some repo =>
                 Return {| title := Repo.full_name repo;
                           url := Repo.html_url repo;
                           type := repository;
                           relevance := calculateRelevance repo technology |}
             | None => Throw TypeError
             end)
          items)
    (fun _ => Return []).

(** ** Documentation adapter *)

Definition documentationSites (h : Host) (technology : string)
  : Completion (list string) :=
  mdn <- encodeURIComponent h technology ;;
  so <- encodeURIComponent h technology ;;
  npm <- encodeURIComponent h technology ;;
  Return [ "https://developer.mozilla.org/en-US/search?q=" ++ mdn;
           "https://stackoverflow.com/search?q=" ++ so;
           "https://docs.npmjs.com/search?q=" ++ npm ].

(** The callback of [.each]: pushes at most one resource on [results];
    [new URL] can throw. *)
Definition visit_anchor (h : Host) (site technology : string)
           (element : Anchor) (results : list Resource)
  : Completion (list Resource) :=
  let title := trim (anchor_text element) in
  match anchor_href element with
  | Some href =>
      if truthy title && truthy href && (10 <? String.length title)
      then
        absolute <- (if startsWith href "http" then Return href
                     else resolve_URL h href site) ;;
        Return (results ++
                [ {| title := title;
                     url := absolute;
                     type := documentation;
                     relevance := calculateTextRelevance title technology |} ])%list
      else Return results
  | None => Return results
  end.

(** [.each] over the selected anchors: an exception leaves the loop and
    keeps what was pushed before it. *)
Fixpoint each_anchor (h : Host) (site technology : string)
         (elements : list Anchor) (results : list Resource)
  : list Resource * Completion unit :=
  match elements with
  | [] => (results, Return tt)
  | element :: rest =>
      match visit_anchor h site technology element results with
      | Return results' => each_anchor h site technology rest results'
      | Throw e => (results, Throw e)
      end
  end.

(** One turn of the loop over the sites, with its [try]/[catch]. *)
Definition search_site (h : Host) (technology : string)
           (results : list Resource) (site : string) : list Resource :=
  match get_page_anchors h site (toLowerCase technology) with
  | Return elements => fst (each_anchor h site technology elements results)
  | Throw _ => results
  end.

(** The filter, the sort and the slice that end the search. *)
Definition rank_documentation (results : list Resource) : list Resource :=
  slice 0 10
    (sort (fun a b => sub (relevance b) (relevance a))
          (filter (fun r => gtb (relevance r) lit_0_3) results)).

Definition searchDocumentation (h : Host) (technology : string)
  : Completion (list Resource) :=
  sites <- documentationSites h technology ;;
  let results := fold_left (search_site h technology) sites [] in
  Return (rank_documentation results).

(** ** Code sample adapter *)

(** The [q] parameter of the code search. *)
Definition codeQuery (technology : string) : string :=
  technology ++ " language:typescript language:javascript".

Definition languageMap : list (string * string) :=
  [ ("js", "javascript"); ("ts", "typescript"); ("py", "python");
    ("java", "java"); ("go", "go"); ("rs", "rust"); ("cpp", "cpp");
    ("c", "c"); ("cs", "csharp"); ("php", "php"); ("rb", "ruby") ].

Fixpoint lookup (key : string) (table : list (string * string))
  : option string :=
  match table with
  | [] => None
  | (k, v) :: rest => if String.eqb k key then Some v else lookup key rest
  end.

(** [detectLanguage(filename)].  The table is searched for its own keys:
    the extensions [constructor] and [__proto__], which a JavaScript
    object inherits, are outside the model. *)
Definition detectLanguage (filename : string) : string :=
  let extension := toLowerCase (last (split dot filename) EmptyString) in
  match lookup extension languageMap with
  | Some l => l
  | None => "text"
  end.

(** The loop of [extractRelevantCode] from index [i], where [rest] holds
    the lines from [i] on: the lines pushed at the first match. *)
Fixpoint scan_lines (lines rest : list string) (i : nat)
         (techLower : string) : list string :=
  match rest with
  | [] => []
  | line :: rest' =>
      if includes (toLowerCase line) techLower
      then
        let start := Z.to_nat (Z.max 0 (Z.of_nat i - 3)) in
        let end_ := Nat.min (List.length lines) (i + 4) in
        slice start end_ lines
      else scan_lines lines rest' (S i) techLower
  end.

Definition extractRelevantCode (code technology : string) : string :=
  let lines := split newline code in
  let techLower := toLowerCase technology in
  let relevantLines := scan_lines lines lines 0 techLower in
  if 0 <? List.length relevantLines
  then join nl relevantLines
  else join nl (slice 0 20 lines).

(** The body of the inner [try] for one item of the code search. *)
Definition code_example (h : Host) (technology : string)
           (item : CodeItem.t) : Completion CodeExample :=
  code <- get_file_content h (CodeItem.url item) ;;
  let language := detectLanguage (CodeItem.name item) in
  Return {| language := language;
            code := extractRelevantCode code technology;
            description := "Example from " ++ CodeItem.repository_full_name item;
            source := CodeItem.html_url item |}.

Fixpoint collect_examples (h : Host) (technology : string)
         (items : list CodeItem.t) (examples : list CodeExample)
  : list CodeExample :=
  match items with
  | [] => examples
  | item :: rest =>
      match code_example h technology item with
      | Return example =>
          collect_examples h technology rest (examples ++ [example])%list
      | Throw _ => collect_examples h technology rest examples
      end
  end.

Definition findCodeExamples (h : Host) (technology : string)
  : Completion (list CodeExample) :=
  try_catch
    (response <- get_search_code h (codeQuery technology) ;;
     items <- match response with
              | Some items => Return items
              | None => Throw TypeError
              end ;;
     Return (collect_examples h technology items []))
    (fun _ => Return []).

(** ** Synthesizer *)

(** [generateSummary]: the template after [.trim()], which removes the
    line break before it and the blanks after it. *)
Definition generateSummary (query : ResearchQuery)
           (githubResults documentationResults : list Resource) : string :=
  let topRepos := join ", " (map title (slice 0 3 githubResults)) in
  let topDocs := join ", " (map title (slice 0 3 documentationResults)) in
  "Research Summary for " ++ technology query ++ ":" ++ nl ++ nl ++
  "Based on analysis of " ++ ofLength (List.length githubResults) ++
  " repositories and " ++ ofLength (List.length documentationResults) ++
  " documentation sources:" ++ nl ++ nl ++
  "Popular repositories: " ++ topRepos ++ nl ++
  "Key documentation: " ++ topDocs ++ nl ++ nl ++
  (if truthy (purpose query)
   then "Purpose alignment: This technology appears well-suited for "
        ++ purpose query
   else EmptyString) ++ nl ++ nl ++
  "The ecosystem shows active development with strong community support and comprehensive documentation.".

Definition rec_adoption (r : Resource) : string :=
  "Consider using " ++ title r ++ " as it has high community adoption".
Definition rec_web : string :=
  "Focus on frameworks with strong web support and active maintenance".
Definition rec_api : string :=
  "Prioritize libraries with good REST/GraphQL integration".
Definition rec_performance : string :=
  "Evaluate performance benchmarks before implementation".
Definition rec_security : string :=
  "Review security practices and vulnerability reports".
Definition rec_testing : string :=
  "Set up automated testing and CI/CD pipeline".
Definition rec_updates : string :=
  "Plan for regular dependency updates and security patches".

(** The callback of [constraints.forEach]. *)
Definition visit_constraint (recommendations : list string)
           (constraint : string) : list string :=
  let recommendations :=
    if includes (toLowerCase constraint) "performance"
    then (recommendations ++ [rec_performance])%list else recommendations in
  if includes (toLowerCase constraint) "security"
  then (recommendations ++ [rec_security])%list else recommendations.

Definition generateRecommendations (query : ResearchQuery)
           (githubResults : list Resource) : list string :=
  let recommendations : list string := [] in
  let highStarRepos :=
    filter (fun r => gtb (relevance r) lit_0_8) githubResults in
  let recommendations :=
    match highStarRepos with
    | first :: _ => (recommendations ++ [rec_adoption first])%list
    | [] => recommendations
    end in
  let recommendations :=
    if includes (toLowerCase (purpose query)) "web"
    then (recommendations ++ [rec_web])%list else recommendations in
  let recommendations :=
    if includes (toLowerCase (purpose query)) "api"
    then (recommendations ++ [rec_api])%list else recommendations in
  let recommendations :=
    match constraints query with
    | Some cs => fold_left visit_constraint cs recommendations
    | None => recommendations
    end in
  ((recommendations ++ [rec_testing]) ++ [rec_updates])%list.

(** ** Orchestrator *)

(** [researchTopic(query)].  [Promise.all] rejects as soon as one of the
    three promises does; the adapters share no state, so awaiting them
    in turn gives the same results, and every rejection ends in the same
    [catch]. *)
Definition researchTopic (h : Host) (query : ResearchQuery)
  : Completion ResearchResult :=
  try_catch
    (githubResults <- searchGitHub h (technology query) ;;
     documentationResults <- searchDocumentation h (technology query) ;;
     codeExamples <- findCodeExamples h (technology query) ;;
     let summary := generateSummary query githubResults documentationResults in
     let recommendations := generateRecommendations query githubResults in
     Return {| summary := summary;
               recommendations := recommendations;
               codeExamples := codeExamples;
               resources := (githubResults ++ documentationResults)%list |})
    (fun _ => Throw (MkError "Research operation failed")).

End ResearchService.

(* ===================================================================== *)
(** * The specification's formulas *)
(* ===================================================================== *)

(** The scorers and the recommendation list as the specification words
    them, to be compared with the functions of the service. *)
Module Spec.

Import JsString JsArray.
Local Open Scope string_scope.

(** [term] occurs in [s], letter case ignored. *)
Definition contains_ci (s term : string) : bool :=
  includes (toLowerCase s) (toLowerCase term).

(** [word] occurs in [s] once [s] is put in lower case. *)
Definition lowered_contains (s word : string) : bool :=
  includes (toLowerCase s) word.

Definition clamp01 (x : number) : number :=
  Math_min (Math_max x zero) one.

Definition starBonus (stars : N) : number :=
  Math_min (div (ofN stars) lit_10000) lit_0_3.

(** 0.4 for the name, plus 0.3 for the description, plus the star
    bonus, clamped to [0,1]. *)
Definition repositoryRelevance (name : string) (description : option string)
           (stars : N) (term : string) : number :=
  clamp01
    (add (add (if contains_ci name term then lit_0_4 else zero)
              (if match description with
                  | Some d => contains_ci d term
                  | None => false
                  end
               then lit_0_3 else zero))
         (starBonus stars)).

(** The words of [s], cut at every character that [is_sep] accepts. *)
Fixpoint words_by (is_sep : ascii -> bool) (s : string) : list string :=
  match s with
  | EmptyString => [EmptyString]
  | String c s' =>
      match words_by is_sep s' with
      | w :: ws => if is_sep c then EmptyString :: w :: ws
                   else String c w :: ws
      | [] => [EmptyString]
      end
  end.

Definition is_blank (c : ascii) : bool := Ascii.eqb c space.

(** 0.8 when the text contains the whole term; otherwise the share of
    the term's words found in the text, times 0.6.  The words are cut
    at the characters of [is_sep]. *)
Definition textRelevance (is_sep : ascii -> bool) (text term : string)
  : number :=
  if contains_ci text term then lit_0_8
  else
    let words := words_by is_sep (toLowerCase term) in
    let matched := count_occ Bool.bool_dec
                     (map (includes (toLowerCase text)) words) true in
    mul (div (ofNat matched) (ofNat (List.length words))) lit_0_6.

(** The recommendation list, rule by rule; [contains] is the test that
    a purpose or a constraint contains a word. *)
Definition recommend (contains : string -> string -> bool)
           (query : ResearchQuery) (repoResources : list Resource)
  : list string :=
  (match find (fun r => gtb (relevance r) lit_0_8) repoResources with
   | Some r => [ResearchService.rec_adoption r]
   | None => []
   end ++
   (if contains (purpose query) "web"
    then [ResearchService.rec_web] else []) ++
   (if contains (purpose query) "api"
    then [ResearchService.rec_api] else []) ++
   flat_map (fun c =>
               (if contains c "performance"
                then [ResearchService.rec_performance] else []) ++
               (if contains c "security"
                then [ResearchService.rec_security] else []))
            (match constraints query with Some cs => cs | None => [] end) ++
   [ResearchService.rec_testing; ResearchService.rec_updates])%list.

(** A resource that the sort can place: its relevance is comparable. *)
Definition rankable (r : Resource) : Prop := comparable (relevance r).

(** The relevance of [r] is on the scale of the rounded results. *)
Definition scaled_relevance (r : Resource) : Prop :=
  well_scaled (relevance r) = true.

(** The examples of the files that could be fetched, in the order of the
    items. *)
Definition examples_of (h : Host) (technology : string)
           (items : list CodeItem.t) : list CodeExample :=
  flat_map (fun item =>
              match ResearchService.code_example h technology item with
              | Return example => [example]
              | Throw _ => []
              end) items.

(** Descending order of relevance. *)
Definition descending (a b : Resource) : Prop :=
  geb (relevance a) (relevance b) = true.

(** The first index of [lines] at which a line contains [term], letter
    case ignored. *)
Definition first_match (lines : list string) (term : string) (i : nat)
  : Prop :=
  (exists line, nth_error lines i = Some line /\ contains_ci line term = true) /\
  forall j line, (j < i)%nat -> nth_error lines j = Some line ->
                 contains_ci line term = false.

End Spec.

(* ===================================================================== *)
(** * Sample hosts and queries *)
(* ===================================================================== *)

Module Samples.

Import JsString.
Local Open Scope string_scope.

Definition react : Repo.t :=
  {| Repo.full_name := "facebook/react";
     Repo.html_url := "https://github.com/facebook/react";
     Repo.name := "react";
     Repo.description := Some EmptyString;
     Repo.stargazers_count := 200000 |}.

(** A repository whose star count exceeds every finite double. *)
Definition galaxy : Repo.t :=
  {| Repo.full_name := "big/react-galaxy";
     Repo.html_url := "https://github.com/big/react-galaxy";
     Repo.name := "React-Galaxy";
     Repo.description := Some "All of React";
     Repo.stargazers_count := 2 ^ 1024 |}.

Definition react_query : ResearchQuery :=
  {| technology := "react";
     purpose := "Web dashboard with a REST API";
     constraints := Some ["High performance"; "Security audit"] |}.

Definition react_anchor : Anchor :=
  {| anchor_text := "  React on GitHub: the library  ";
     anchor_href := Some "https://github.com/facebook/react" |}.

(** The repository search and the first documentation site both return
    the page of the same repository. *)
Definition mirrored : Host :=
  {| get_search_repositories := fun _ => Return (Some [Some react]);
     encodeURIComponent := fun s => Return s;
     get_page_anchors := fun site _ =>
       if startsWith site "https://developer.mozilla.org"
       then Return [react_anchor] else Return [];
     resolve_URL := fun href base => Return (base ++ href);
     get_search_code := fun _ => Return (Some []);
     get_file_content := fun _ => Throw RequestError |}.

Definition mirrored_result : ResearchResult :=
  Eval vm_compute in
    match ResearchService.researchTopic mirrored react_query with
    | Return r => r
    | Throw _ => {| summary := EmptyString; recommendations := [];
                    codeExamples := []; resources := [] |}
    end.

Definition numbered_anchor (n : nat) : Anchor :=
  {| anchor_text := "React guide, part " ++ ofLength n;
     anchor_href := Some ("/docs/react/" ++ ofLength n) |}.

Definition anchor (text href : string) : Anchor :=
  {| anchor_text := text; anchor_href := Some href |}.

(** Every documentation site lists an anchor with one of the three
    words of the term, one with two of them, twelve with all three
    and one with the whole term. *)
Definition crowded : Host :=
  {| get_search_repositories := fun _ => Throw RequestError;
     encodeURIComponent := fun s => Return s;
     get_page_anchors := fun _ _ =>
       Return (anchor "State management, reactive" "/docs/react/state"
               :: anchor "React: the missing part" "/docs/react/missing"
               :: map numbered_anchor (seq 1 12)
               ++ [anchor "The React guide part of the site" "/docs/react"]);
     resolve_URL := fun href base => Return (base ++ href);
     get_search_code := fun _ => Throw RequestError;
     get_file_content := fun _ => Throw RequestError |}.

Definition crowded_docs : list Resource :=
  Eval vm_compute in
    match ResearchService.searchDocumentation crowded "React guide part" with
    | Return docs => docs
    | Throw _ => []
    end.

Definition item (n : string) : CodeItem.t :=
  {| CodeItem.url := "https://api.github.com/repos/o/r/contents/" ++ n;
     CodeItem.name := n;
     CodeItem.html_url := "https://github.com/o/r/blob/main/" ++ n;
     CodeItem.repository_full_name := "o/r" |}.

(** The repository search is rejected; the code search lists three
    files, the second of which cannot be fetched. *)
Definition flaky : Host :=
  {| get_search_repositories := fun _ => Throw RequestError;
     encodeURIComponent := fun s => Return s;
     get_page_anchors := fun _ _ => Throw RequestError;
     resolve_URL := fun _ _ => Throw TypeError;
     get_search_code := fun _ =>
       Return (Some [item "a.ts"; item "b.js"; item "c.py"]);
     get_file_content := fun u =>
       if String.eqb u (CodeItem.url (item "b.js")) then Throw RequestError
       else Return ("import React from 'react';" ++ nl ++ "export {};") |}.

(** The repository search answers; no documentation site does. *)
Definition undocumented : Host :=
  {| get_search_repositories := fun _ => Return (Some [Some react; Some galaxy]);
     encodeURIComponent := fun s => Return s;
     get_page_anchors := fun _ _ => Throw RequestError;
     resolve_URL := fun href base => Return (base ++ href);
     get_search_code := fun _ => Return (Some []);
     get_file_content := fun _ => Throw RequestError |}.

Definition undocumented_sites : list string :=
  Eval vm_compute in
    match ResearchService.documentationSites undocumented "react" with
    | Return sites => sites
    | Throw _ => []
    end.

(** A host on which the term cannot be encoded (in JavaScript, a term
    with a lone surrogate): the site URLs cannot be built. *)
Definition unencodable : Host :=
  {| get_search_repositories := fun _ => Return (Some [Some react]);
     encodeURIComponent := fun _ => Throw URIError;
     get_page_anchors := fun _ _ => Return [];
     resolve_URL := fun href base => Return (base ++ href);
     get_search_code := fun _ => Return (Some []);
     get_file_content := fun _ => Throw RequestError |}.

(** An item list whose second item is [null]. *)
Definition malformed : Host :=
  {| get_search_repositories := fun _ => Return (Some [Some react; None]);
     encodeURIComponent := fun s => Return s;
     get_page_anchors := fun _ _ => Return [];
     resolve_URL := fun href base => Return (base ++ href);
     get_search_code := fun _ => Return None;
     get_file_content := fun _ => Throw RequestError |}.

Definition tabbed_term : string :=
  "machine" ++ String tab "learning".

Definition sample_file : string :=
  "// header" ++ nl ++ "const a = 1;" ++ nl ++ "const b = 2;" ++ nl ++
  "const c = 3;" ++ nl ++ "import React from 'react';" ++ nl ++
  "const d = 4;" ++ nl ++ "const e = 5;" ++ nl ++ "const f = 6;" ++ nl ++
  "render(React);".

End Samples.

(* ===================================================================== *)
(** * The rest of the service and its callers *)
(* ===================================================================== *)

(** The summary before [.trim()], as the template literal of
    [generateSummary] writes it: a line break first, and a line break
    and four blanks after the closing sentence. *)
Module Summary.

Import JsString JsArray.
Local Open Scope string_scope.
Local Open Scope nat_scope.

Definition summaryTemplate (query : ResearchQuery)
           (githubResults documentationResults : list Resource) : string :=
  let topRepos := join ", " (map title (slice 0 3 githubResults)) in
  let topDocs := join ", " (map title (slice 0 3 documentationResults)) in
  nl ++
  "Research Summary for " ++ technology query ++ ":" ++ nl ++
  nl ++
  "Based on analysis of " ++ ofLength (List.length githubResults) ++
  " repositories and " ++ ofLength (List.length documentationResults) ++
  " documentation sources:" ++ nl ++
  nl ++
  "Popular repositories: " ++ topRepos ++ nl ++
  "Key documentation: " ++ topDocs ++ nl ++
  nl ++
  (if truthy (purpose query)
   then "Purpose alignment: This technology appears well-suited for "
        ++ purpose query
   else EmptyString) ++ nl ++
  nl ++
  "The ecosystem shows active development with strong community support and comprehensive documentation." ++ nl ++
  "    ".

End Summary.

(** [analyzeRepository] and the three analyses it calls
    ([src/services/research.ts], lines 298 to 332). *)
Module RepositoryAnalysis.

Import JsString.
Local Open Scope string_scope.

Record Analysis : Type := {
  structure : list string;
  technologies : list string;
  patterns : list string
}.

(** What [analyzeRepository] needs of the host: [git.clone(url, dir)],
    which can be rejected, and the value of [Date.now()]. *)
Record Git : Type := {
  clone : string -> string -> Completion unit;
  now : N
}.

Definition analyzeDirectoryStructure (dir : string) : list string :=
  ["src/"; "tests/"; "docs/"; "package.json"].

Definition detectTechnologies (dir : string) : list string :=
  ["TypeScript"; "Node.js"; "Express"; "Jest"].

Definition identifyPatterns (dir : string) : list string :=
  ["MVC Architecture"; "Service Layer Pattern"; "Repository Pattern"].

Definition tempDir (g : Git) : string :=
  "/tmp/repo-analysis-" ++ NilEmpty.string_of_uint (N.to_uint (now g)).

Definition analyzeRepository (g : Git) (repoUrl : string)
  : Completion Analysis :=
  try_catch
    (let tempDir := tempDir g in
     _ <- clone g repoUrl tempDir ;;
     let structure := analyzeDirectoryStructure tempDir in
     let technologies := detectTechnologies tempDir in
     let patterns := identifyPatterns tempDir in
     Return {| structure := structure;
               technologies := technologies;
               patterns := patterns |})
    (fun _ => Throw (MkError "Repository analysis failed")).

End RepositoryAnalysis.

(** The two routes of [src/routes/research.ts] that call the service,
    after the validation of the request body. *)
Module ResearchRoutes.

Import JsString JsArray RepositoryAnalysis.
Local Open Scope string_scope.
Local Open Scope nat_scope.

(** [res.json(body)], or [res.status(code).json({ error })]. *)
Inductive Response (A : Type) : Type :=
| Json (body : A)
| Failure (status : nat) (error : string).

Arguments Json {A} body.
Arguments Failure {A} status error.

(** ** POST /query *)

(** A document of the collection of research queries. *)
Record QueryDocument : Type := {
  doc_id : string;
  doc_query : string;
  doc_technology : string;
  doc_purpose : string;
  doc_constraints : list string;
  doc_userId : string;
  doc_projectId : option string;
  doc_status : string;
  doc_results : option ResearchResult;
  doc_processingTime : option Z
}.

(** The validated body of the request, the user, and what the host
    provides: the identifier of the new document, the two values of
    [Date.now()], and whether the database accepts a document. *)
Record QueryRequest : Type := {
  body_technology : string;
  body_purpose : string;
  body_constraints : option (list string);
  body_projectId : option string;
  user_id : string;
  new_id : string;
  startTime : Z;
  endTime : Z;
  save : QueryDocument -> Completion unit
}.

Record QueryBody : Type := {
  id : string;
  results : ResearchResult;
  processingTime : Z
}.

(** [await researchQuery.save()]: the documents saved so far are
    threaded along. *)
Definition saveDocument (req : QueryRequest) (document : QueryDocument)
           (saved : list QueryDocument)
  : list QueryDocument * Completion unit :=
  match save req document with
  | Return _ => ((saved ++ [document])%list, Return tt)
  | Throw e => (saved, Throw e)
  end.

(** The handler: the documents it saved, in order, and its response. *)
Definition postQuery (h : Host) (req : QueryRequest)
  : list QueryDocument * Response QueryBody :=
  let researchQuery :=
    {| doc_id := new_id req;
       doc_query := body_technology req ++ " for " ++ body_purpose req;
       doc_technology := body_technology req;
       doc_purpose := body_purpose req;
       doc_constraints := match body_constraints req with
                          | Some cs => cs
                          | None => []
                          end;
       doc_userId := user_id req;
       doc_projectId := body_projectId req;
       doc_status := "pending";
       doc_results := None;
       doc_processingTime := None |} in
  match saveDocument req researchQuery [] with
  | (saved, Throw _) => (saved, Failure 500 "Research query failed")
  | (saved, Return _) =>
      match ResearchService.researchTopic h
              {| technology := body_technology req;
                 purpose := body_purpose req;
                 constraints := body_constraints req |} with
      | Throw _ => (saved, Failure 500 "Research query failed")
      | Return results =>
          let researchQuery :=
            {| doc_id := doc_id researchQuery;
               doc_query := doc_query researchQuery;
               doc_technology := doc_technology researchQuery;
               doc_purpose := doc_purpose researchQuery;
               doc_constraints := doc_constraints researchQuery;
               doc_userId := doc_userId researchQuery;
               doc_projectId := doc_projectId researchQuery;
               doc_status := "completed";
               doc_results := Some results;
               doc_processingTime := Some (endTime req - startTime req)%Z |} in
          match saveDocument req researchQuery saved with
          | (saved, Throw _) => (saved, Failure 500 "Research query failed")
          | (saved, Return _) =>
              (saved,
               Json {| id := doc_id researchQuery;
                       results := results;
                       processingTime := (endTime req - startTime req)%Z |})
          end
      end
  end.

(** ** POST /analyze-repository *)




End ResearchRoutes.

(** Vocabulary of the further properties. *)
Module Props.

Import JsString JsArray.
Local Open Scope string_scope.

(** The extension that [detectLanguage] looks up: the text after the
    last dot (the whole name when it has no dot), in lower case. *)
Definition extension (filename : string) : string :=
  toLowerCase (last (split dot filename) EmptyString).

(** The lower-case names that every JavaScript object inherits, which a
    lookup in [languageMap] finds although the table does not list
    them. *)
Definition inheritedKeys : list string := ["constructor"; "__proto__"].

Definition languageTags : list string :=
  "text" :: map snd ResearchService.languageMap.

(** What [analyzeRepository] returns when the clone succeeds. *)
Definition fixedAnalysis : RepositoryAnalysis.Analysis :=
  {| RepositoryAnalysis.structure := ["src/"; "tests/"; "docs/"; "package.json"];
     RepositoryAnalysis.technologies := ["TypeScript"; "Node.js"; "Express"; "Jest"];
     RepositoryAnalysis.patterns :=
       ["MVC Architecture"; "Service Layer Pattern"; "Repository Pattern"] |}.

(** [x === y] on numbers. *)
Definition same_number (x y : number) : bool :=
  match compare x y with Some Eq => true | _ => false end.

(** [0 <= x <= 1] *)
Definition in_unit_interval (x : number) : Prop :=
  leb zero x = true /\ leb x one = true.

(** [x] is zero or finite, of magnitude at most [b * 2^k]. *)
Definition le_finite (b k : Z) (x : number) : Prop :=
  match x with
  | S754_zero _ => True
  | S754_finite _ p e => (e <= k /\ Zpos p <= b * 2 ^ (k - e))%Z
  | _ => False
  end.

(** The resource that [searchGitHub] makes of a repository. *)
Definition repositoryResource (technology : string) (repo : Repo.t)
  : Resource :=
  {| title := Repo.full_name repo;
     url := Repo.html_url repo;
     type := repository;
     relevance := ResearchService.calculateRelevance repo technology |}.

(** The name and the description of [repo] both contain the term,
    letter case ignored: the two tests of [calculateRelevance]. *)
Definition matches_both (technology : string) (repo : Repo.t) : bool :=
  Spec.contains_ci (Repo.name repo) technology &&
  match Repo.description repo with
  | Some d => truthy d && Spec.contains_ci d technology
  | None => false
  end.

(** What the anchors of one page contribute, and what one site does. *)
Definition page_candidates (h : Host) (site technology : string)
           (elements : list Anchor) : list Resource :=
  fst (ResearchService.each_anchor h site technology elements []).

Definition candidates (h : Host) (technology site : string)
  : list Resource :=
  ResearchService.search_site h technology [] site.

(** The candidates that pass the filter of [searchDocumentation]. *)
Definition kept (results : list Resource) : list Resource :=
  filter (fun r => gtb (relevance r) lit_0_3) results.

(** [r] is as relevant as [r0]. *)
Definition tied (r0 r : Resource) : bool :=
  same_number (relevance r) (relevance r0).

(** What every entry of the documentation search looks like. *)
Definition documentationEntry (technology : string) (r : Resource) : Prop :=
  type r = documentation /\
  trim (title r) = title r /\
  (10 < String.length (title r))%nat /\
  relevance r = ResearchService.calculateTextRelevance (title r) technology.

End Props.

Module MoreSamples.

Import JsNumber JsString.
Local Open Scope string_scope.

Definition resource (t : string) : Resource :=
  {| title := t; url := "https://example.org/" ++ t;
     type := repository; relevance := lit_0_7 |}.

Definition broken_resource : Resource := resource "broken".

(** A repository with many stars whose description does not mention
    the term, and a host that finds only it. *)
Definition popular : Repo.t :=
  {| Repo.full_name := "facebook/react";
     Repo.html_url := "https://github.com/facebook/react";
     Repo.name := "react";
     Repo.description := Some "The library for web and native user interfaces";
     Repo.stargazers_count := 230000 |}.

Definition starred : Host :=
  {| get_search_repositories := fun _ => Return (Some [Some popular]);
     encodeURIComponent := fun s => Return s;
     get_page_anchors := fun _ _ => Return [];
     resolve_URL := fun href base => Return (base ++ href);
     get_search_code := fun _ => Return (Some []);
     get_file_content := fun _ => Throw RequestError |}.

Definition starred_result : ResearchResult :=
  Eval vm_compute in
    match ResearchService.researchTopic starred Samples.react_query with
    | Return r => r
    | Throw _ => {| summary := EmptyString; recommendations := [];
                    codeExamples := []; resources := [] |}
    end.

(** A link that [new URL] rejects. *)
Definition broken_link : Anchor :=
  {| anchor_text := "React reference (broken link)";
     anchor_href := Some "//[" |}.

(** Every page lists an absolute link, a broken one and a relative
    one. *)
Definition interrupted : Host :=
  {| get_search_repositories := fun _ => Return (Some []);
     encodeURIComponent := fun s => Return s;
     get_page_anchors := fun _ _ =>
       Return [Samples.react_anchor; broken_link; Samples.numbered_anchor 1];
     resolve_URL := fun href base =>
       if String.eqb href "//[" then Throw TypeError
       else Return (base ++ href);
     get_search_code := fun _ => Return (Some []);
     get_file_content := fun _ => Throw RequestError |}.

Import RepositoryAnalysis ResearchRoutes.

Definition online : Git :=
  {| clone := fun _ _ => Return tt; now := 1700000000000 |}.

Definition offline : Git :=
  {| clone := fun _ _ => Throw RequestError; now := 1700000000000 |}.

Definition request (accept : QueryDocument -> bool) : QueryRequest :=
  {| body_technology := "react";
     body_purpose := "Web dashboard with a REST API";
     body_constraints := None;
     body_projectId := None;
     user_id := "u1";
     new_id := "q1";
     startTime := 1700000000000;
     endTime := 1700000000750;
     save := fun d => if accept d then Return tt else Throw RequestError |}.

End MoreSamples.

(* ===================================================================== *)
(** * Facts about binary64 arithmetic *)
(* ===================================================================== *)

Module JsNumberFacts.

Import JsNumber.
Local Open Scope Z_scope.

(** The rounding of the standard library is [binary_round_aux]: it
    shifts the mantissa right until it fits the format, keeping two bits
    about what was shifted out, rounds to nearest-even and shifts once
    more when the rounding carried.  The lemmas below describe it by
    integer division, and derive what the service needs: the sign of a
    result, an upper bound of its magnitude by a power of two, and that a
    difference is zero only for equal operands. *)

(** ** Shifts and rounding *)

Lemma iter_pos_nat {A} (f : A -> A) p x :
  iter_pos f p x = Nat.iter (Pos.to_nat p) f x.
Proof.
  revert x; induction p as [p IH|p IH|]; intro x.
  - rewrite Pos2Nat.inj_xI. cbn [iter_pos]. rewrite !IH.
    replace (S (2 * Pos.to_nat p)) with (Pos.to_nat p + S (Pos.to_nat p))%nat by lia.
    rewrite Nat.iter_add. f_equal.
    now rewrite Nat.iter_succ_r.
  - rewrite Pos2Nat.inj_xO. cbn [iter_pos]. rewrite !IH.
    replace (2 * Pos.to_nat p)%nat with (Pos.to_nat p + Pos.to_nat p)%nat by lia.
    now rewrite Nat.iter_add.
  - reflexivity.
Qed.

Lemma shr_1_spec r :
  0 <= shr_m r ->
  shr_m (shr_1 r) = shr_m r / 2 /\
  (inexact (shr_1 r) = true -> inexact r = true \/ shr_m r mod 2 <> 0).
Proof.
  destruct r as [m r s]; unfold inexact; simpl; intros Hm.
  destruct m as [|[p|p|]|p]; simpl shr_m; simpl shr_r; simpl shr_s.
  - split; [reflexivity|]. rewrite orb_false_l. auto.
  - split.
    + rewrite Pos2Z.inj_xI. apply Z.div_unique with 1; lia.
    + intros _. right. rewrite Pos2Z.inj_xI.
      replace (2 * Z.pos p + 1) with (1 + Z.pos p * 2) by lia.
      rewrite Z.mod_add by lia. discriminate.
  - split.
    + rewrite Pos2Z.inj_xO. apply Z.div_unique with 0; lia.
    + rewrite orb_false_l; auto.
  - split; [reflexivity|]. intros _. right. discriminate.
  - lia.
Qed.

Lemma shr_iter_spec n r :
  0 <= shr_m r ->
  shr_m (Nat.iter n shr_1 r) = shr_m r / 2 ^ Z.of_nat n /\
  (inexact (Nat.iter n shr_1 r) = true ->
   inexact r = true \/ shr_m r mod 2 ^ Z.of_nat n <> 0).
Proof.
  intros Hm. induction n as [|n [IHm IHi]].
  - simpl. rewrite Z.div_1_r. split; [reflexivity|auto].
  - rewrite Nat2Z.inj_succ, Z.pow_succ_r by lia. simpl Nat.iter.
    rewrite (Z.mul_comm 2).
    assert (H0 : 0 <= shr_m (Nat.iter n shr_1 r)).
    { rewrite IHm. apply Z.div_pos; lia. }
    destruct (shr_1_spec _ H0) as [Hm1 Hi1]. split.
    + rewrite Hm1, IHm, Z.div_div by lia. reflexivity.
    + intros Hi. destruct (Hi1 Hi) as [Hi'|Hodd].
      * destruct (IHi Hi') as [?|Hne]; [auto|]. right.
        intros Hz. apply Hne.
        rewrite Z.rem_mul_r in Hz by lia. 
        assert (0 <= shr_m r mod 2 ^ Z.of_nat n < 2 ^ Z.of_nat n) by (apply Z.mod_pos_bound; lia).
        assert (0 <= (shr_m r / 2 ^ Z.of_nat n) mod 2 < 2) by (apply Z.mod_pos_bound; lia).
        nia.
      * right. intros Hz. apply Hodd. rewrite IHm.
        rewrite Z.rem_mul_r in Hz by lia.
        assert (0 <= shr_m r mod 2 ^ Z.of_nat n < 2 ^ Z.of_nat n) by (apply Z.mod_pos_bound; lia).
        assert (0 <= (shr_m r / 2 ^ Z.of_nat n) mod 2 < 2) by (apply Z.mod_pos_bound; lia).
        nia.
Qed.

Lemma digits2_pos_log2 p : Zpos (digits2_pos p) = Z.log2 (Zpos p) + 1.
Proof.
  induction p as [p IH|p IH|]; cbn [digits2_pos].
  - rewrite Pos2Z.inj_succ, IH. 
    change (Z.pos p~1) with (2 * Z.pos p + 1). rewrite Z.log2_succ_double by lia. lia.
  - rewrite Pos2Z.inj_succ, IH.
    change (Z.pos p~0) with (2 * Z.pos p). rewrite Z.log2_double by lia. lia.
  - reflexivity.
Qed.

Lemma Zdigits2_bounds m : 0 < m -> 2 ^ (Zdigits2 m - 1) <= m < 2 ^ Zdigits2 m.
Proof.
  destruct m as [|p|p]; try lia. intros _. cbn [Zdigits2].
  rewrite digits2_pos_log2.
  replace (Z.log2 (Z.pos p) + 1 - 1) with (Z.log2 (Z.pos p)) by lia.
  replace (Z.log2 (Z.pos p) + 1) with (Z.succ (Z.log2 (Z.pos p))) by lia.
  apply Z.log2_spec. lia.
Qed.

Lemma Zdigits2_pos m : 0 < m -> 0 < Zdigits2 m.
Proof. destruct m; cbn; lia. Qed.

Lemma shr_spec r e n :
  0 <= shr_m r ->
  snd (shr r e n) = e + Z.max n 0 /\
  shr_m (fst (shr r e n)) = shr_m r / 2 ^ Z.max n 0 /\
  (inexact (fst (shr r e n)) = true ->
   inexact r = true \/ shr_m r mod 2 ^ Z.max n 0 <> 0).
Proof.
  intros Hm. destruct n as [|p|p]; cbn [shr fst snd].
  - cbn. rewrite Z.div_1_r. split; [lia|]. split; auto.
  - rewrite iter_pos_nat.
    destruct (shr_iter_spec (Pos.to_nat p) r Hm) as [H1 H2].
    rewrite positive_nat_Z in H1, H2.
    replace (Z.max (Z.pos p) 0) with (Z.pos p) by lia.
    split; [lia|]. split; assumption.
  - replace (Z.max (Z.neg p) 0) with 0 by lia. cbn. rewrite Z.div_1_r.
    split; [lia|]. split; auto.
Qed.

Lemma shr_record_of_loc_m m l : shr_m (shr_record_of_loc m l) = m.
Proof. destruct l as [|[]]; reflexivity. Qed.

Lemma shr_record_of_loc_inexact m l :
  inexact (shr_record_of_loc m l) = true -> l <> loc_Exact.
Proof. destruct l as [|[]]; cbn; congruence. Qed.

Lemma round_nearest_even_cases r :
  let m1 := round_nearest_even (shr_m r) (loc_of_shr_record r) in
  m1 = shr_m r \/ (m1 = shr_m r + 1 /\ inexact r = true).
Proof.
  destruct r as [m [] []]; cbn; auto.
  destruct (Z.even m); auto.
Qed.

(** Characterisation of [binary_round_aux] by integer arithmetic. *)
Lemma binary_round_aux_spec s m e l :
  0 <= m ->
  let n1 := Z.max (fexp' (Zdigits2 m + e) - e) 0 in
  let e1 := e + n1 in
  exists m1,
    (m1 = m / 2 ^ n1 \/
     (m1 = m / 2 ^ n1 + 1 /\ (l <> loc_Exact \/ m mod 2 ^ n1 <> 0))) /\
    let n2 := Z.max (fexp' (Zdigits2 m1 + e1) - e1) 0 in
    binary_round_aux prec emax s m e l =
      match m1 / 2 ^ n2 with
      | Z0 => S754_zero s
      | Zpos p => if e1 + n2 <=? emax - prec then S754_finite s p (e1 + n2)
                  else S754_infinity s
      | Zneg _ => S754_nan
      end.
Proof.
  intros Hm n1 e1. unfold binary_round_aux, shr_fexp.
  change (fexp prec emax) with fexp'.
  pose proof (shr_spec (shr_record_of_loc m l) e (fexp' (Zdigits2 m + e) - e)) as H1.
  rewrite shr_record_of_loc_m in H1. specialize (H1 Hm).
  destruct (shr (shr_record_of_loc m l) e (fexp' (Zdigits2 m + e) - e)) as [r1 e1'].
  cbn [fst snd] in H1. destruct H1 as (He1 & Hm1 & Hi1).
  fold n1 in He1, Hm1, Hi1. fold e1 in He1. subst e1'.
  set (m1 := round_nearest_even (shr_m r1) (loc_of_shr_record r1)).
  exists m1. split.
  - destruct (round_nearest_even_cases r1) as [H|[H Hi]]; fold m1 in H.
    + left. congruence.
    + right. split; [congruence|]. destruct (Hi1 Hi) as [H'|H']; auto.
      left. now apply shr_record_of_loc_inexact in H'.
  - cbv zeta. set (n2 := Z.max (fexp' (Zdigits2 m1 + e1) - e1) 0).
    assert (Hm1' : 0 <= m1).
    { assert (0 <= shr_m r1) by (rewrite Hm1; apply Z.div_pos; lia).
      destruct (round_nearest_even_cases r1) as [H'|[H' _]]; fold m1 in H'; lia. }
    pose proof (shr_spec (shr_record_of_loc m1 loc_Exact) e1 (fexp' (Zdigits2 m1 + e1) - e1)) as H2.
    rewrite shr_record_of_loc_m in H2. specialize (H2 Hm1').
    destruct (shr _ e1 (fexp' (Zdigits2 m1 + e1) - e1)) as [r2 e2'].
    cbn [fst snd] in H2. destruct H2 as (He2 & Hm2 & _).
    fold n2 in He2, Hm2. subst e2'. rewrite Hm2. reflexivity.
Qed.

(** ** Consequences of the characterisation *)

(** A positive mantissa at an exponent of at least [emin] keeps a non-zero
    digit. *)
Lemma shift_keeps_pos m e :
  1 <= m -> -1074 <= e ->
  1 <= m / 2 ^ Z.max (fexp' (Zdigits2 m + e) - e) 0.
Proof.
  intros Hm He. set (d := Zdigits2 m).
  destruct (Zdigits2_bounds m ltac:(lia)) as [Hlo _]. fold d in Hlo.
  assert (Hd : 0 < d) by (apply Zdigits2_pos; lia).
  apply Z.div_le_lower_bound; [apply Z.pow_pos_nonneg; lia|].
  rewrite Z.mul_1_r. unfold fexp'.
  destruct (Z_le_dec (Z.max (d + e - 53) (-1074) - e) 0) as [H|H].
  - replace (Z.max _ 0) with 0 by lia. cbn. lia.
  - replace (Z.max (Z.max (d + e - 53) (-1074) - e) 0) with (d - 53) by lia.
    eapply Z.le_trans; [|exact Hlo]. apply Z.pow_le_mono_r; lia.
Qed.

(** A magnitude of at most [2^k] stays so under the shift; it reaches
    [2^k] only when nothing is shifted out. *)
Lemma shift_bound m e k :
  0 <= m -> -1074 <= k -> e <= k -> m <= 2 ^ (k - e) ->
  let n := Z.max (fexp' (Zdigits2 m + e) - e) 0 in
  e + n <= k /\ m / 2 ^ n <= 2 ^ (k - (e + n)) /\
  (m / 2 ^ n = 2 ^ (k - (e + n)) -> m = 2 ^ (k - e) /\ m mod 2 ^ n = 0).
Proof.
  intros Hm Hk He Hb n.
  assert (Hn0 : 0 <= n) by (unfold n; lia).
  assert (Hen : e + n <= k).
  { unfold n, fexp'. destruct (Z.eq_dec m 0) as [->|Hne]; [cbn; lia|].
    destruct (Zdigits2_bounds m ltac:(lia)) as [Hlo _].
    assert (Zdigits2 m - 1 <= k - e).
    { apply (Z.pow_le_mono_r_iff 2); lia. }
    lia. }
  assert (Hpn : 0 < 2 ^ n) by (apply Z.pow_pos_nonneg; lia).
  assert (Hsplit : 2 ^ (k - e) = 2 ^ n * 2 ^ (k - (e + n))).
  { rewrite <- Z.pow_add_r by lia. f_equal; lia. }
  split; [exact Hen|]. split.
  - apply Z.div_le_upper_bound; [exact Hpn|]. lia.
  - intros Heq.
    pose proof (Z.div_mod m (2 ^ n) ltac:(lia)) as Hdm.
    pose proof (Z.mod_pos_bound m (2 ^ n) Hpn) as Hmod.
    rewrite Heq in Hdm. lia.
Qed.

(** A rounded result is never NaN: it carries the sign it was given, at
    an exponent of at least [emin]. *)
Lemma binary_round_aux_sign s m e l :
  0 <= m ->
  has_sign s (binary_round_aux prec emax s m e l) /\
  well_scaled (binary_round_aux prec emax s m e l) = true.
Proof.
  intros Hm. destruct (binary_round_aux_spec s m e l Hm) as (m1 & Hm1 & ->).
  cbv zeta.
  set (e1 := e + Z.max (fexp' (Zdigits2 m + e) - e) 0).
  set (n2 := Z.max (fexp' (Zdigits2 m1 + e1) - e1) 0).
  assert (0 <= m1).
  { assert (0 <= m / 2 ^ Z.max (fexp' (Zdigits2 m + e) - e) 0)
      by (apply Z.div_pos; [lia|apply Z.pow_pos_nonneg; lia]).
    destruct Hm1 as [->|[-> _]]; lia. }
  assert (H2 : 0 <= m1 / 2 ^ n2)
    by (apply Z.div_pos; [lia|apply Z.pow_pos_nonneg; unfold n2; lia]).
  destruct (m1 / 2 ^ n2) as [|p|p]; [split; reflexivity| |lia].
  destruct (e1 + n2 <=? emax - prec); unfold has_sign, well_scaled; split; auto.
  apply Z.leb_le. unfold emin, SpecFloat.emin, prec, emax, n2, e1, fexp'. lia.
Qed.

(** No underflow to zero from an exponent of at least [emin]. *)
Lemma binary_round_aux_nonzero s m e l :
  1 <= m -> -1074 <= e ->
  match binary_round_aux prec emax s m e l with
  | S754_infinity _ | S754_finite _ _ _ => True
  | _ => False
  end.
Proof.
  intros Hm He.
  destruct (binary_round_aux_spec s m e l ltac:(lia)) as (m1 & Hm1 & ->).
  cbv zeta.
  set (n1 := Z.max (fexp' (Zdigits2 m + e) - e) 0) in *.
  set (e1 := e + n1).
  set (n2 := Z.max (fexp' (Zdigits2 m1 + e1) - e1) 0).
  pose proof (shift_keeps_pos m e Hm He) as H1. fold n1 in H1.
  assert (Hm1' : 1 <= m1) by (destruct Hm1 as [->|[-> _]]; lia).
  assert (He1 : -1074 <= e1) by (unfold e1, n1; lia).
  pose proof (shift_keeps_pos m1 e1 Hm1' He1) as H2. fold n2 in H2.
  destruct (m1 / 2 ^ n2) as [|p|p]; try lia.
  destruct (e1 + n2 <=? emax - prec); exact I.
Qed.

(** Rounding to nearest does not cross a power of two. *)
Lemma binary_round_aux_le_pow2 s m e l k :
  0 <= m -> -1074 <= k <= 971 -> e <= k -> m <= 2 ^ (k - e) ->
  (l <> loc_Exact -> m < 2 ^ (k - e)) ->
  le_pow2 k (binary_round_aux prec emax s m e l).
Proof.
  intros Hm Hk He Hb Hl.
  destruct (binary_round_aux_spec s m e l Hm) as (m1 & Hm1 & ->).
  cbv zeta.
  set (n1 := Z.max (fexp' (Zdigits2 m + e) - e) 0) in *.
  set (e1 := e + n1).
  set (n2 := Z.max (fexp' (Zdigits2 m1 + e1) - e1) 0).
  destruct (shift_bound m e k Hm ltac:(lia) He Hb) as (He1 & Hb1 & Heq1).
  fold n1 in He1, Hb1, Heq1. fold e1 in He1, Hb1, Heq1.
  assert (H0 : 0 <= m / 2 ^ n1)
    by (apply Z.div_pos; [lia|apply Z.pow_pos_nonneg; unfold n1; lia]).
  assert (Hm1' : 0 <= m1 <= 2 ^ (k - e1)).
  { destruct Hm1 as [->|[-> Hinex]]; [lia|].
    destruct (Z.eq_dec (m / 2 ^ n1) (2 ^ (k - e1))) as [Heq|Hne]; [|lia].
    destruct (Heq1 Heq) as [Hm2 Hmod]. destruct Hinex as [Hne|Hne]; [|contradiction].
    specialize (Hl Hne). lia. }
  destruct (shift_bound m1 e1 k ltac:(lia) ltac:(lia) He1 ltac:(lia)) as (He2 & Hb2 & _).
  fold n2 in He2, Hb2.
  destruct (m1 / 2 ^ n2) as [|p|p] eqn:E.
  - exact I.
  - replace (e1 + n2 <=? emax - prec) with true
      by (symmetry; apply Z.leb_le; unfold emax, prec; lia).
    unfold le_pow2. split; lia.
  - assert (0 <= m1 / 2 ^ n2)
      by (apply Z.div_pos; [lia|apply Z.pow_pos_nonneg; unfold n2; lia]).
    lia.
Qed.

(** ** Normalisation of an integer mantissa *)

Lemma iter_xO m d : Zpos (Pos.iter xO m d) = Zpos m * 2 ^ Zpos d.
Proof.
  induction d as [|d IH] using Pos.peano_ind.
  - cbn [Pos.iter]. lia.
  - rewrite Pos.iter_succ, Pos2Z.inj_xO, IH, Pos2Z.inj_succ, Z.pow_succ_r by lia. lia.
Qed.

Lemma shl_align_spec m e e' :
  snd (shl_align m e e') = Z.min e e' /\
  Zpos (fst (shl_align m e e')) = Zpos m * 2 ^ (e - Z.min e e').
Proof.
  unfold shl_align. destruct (e' - e) as [|d|d] eqn:E; cbn [fst snd].
  - replace (Z.min e e') with e by lia. rewrite Z.sub_diag. cbn. lia.
  - replace (Z.min e e') with e by lia. rewrite Z.sub_diag. cbn. lia.
  - replace (Z.min e e') with e' by lia. rewrite iter_xO.
    split; [reflexivity|]. f_equal. f_equal. lia.
Qed.

Lemma binary_round_eq s m e :
  let e' := Z.min e (fexp' (Zpos (digits2_pos m) + e)) in
  binary_round prec emax s m e =
  binary_round_aux prec emax s (Zpos m * 2 ^ (e - e')) e' loc_Exact.
Proof.
  intros e'. unfold binary_round. change (fexp prec emax) with fexp'.
  destruct (shl_align_spec m e (fexp' (Zpos (digits2_pos m) + e))) as [H1 H2].
  destruct (shl_align m e (fexp' (Zpos (digits2_pos m) + e))) as [mz ez].
  cbn [fst snd] in H1, H2. fold e' in H1, H2. now rewrite H1, H2.
Qed.

Lemma binary_normalize_sign z e :
  has_sign (z <? 0) (binary_normalize prec emax z e false) /\
  well_scaled (binary_normalize prec emax z e false) = true.
Proof.
  destruct z as [|p|p]; cbn [binary_normalize].
  - split; reflexivity.
  - rewrite binary_round_eq. apply binary_round_aux_sign.
    apply Z.mul_nonneg_nonneg; [lia|]. apply Z.pow_nonneg; lia.
  - rewrite binary_round_eq. apply binary_round_aux_sign.
    apply Z.mul_nonneg_nonneg; [lia|]. apply Z.pow_nonneg; lia.
Qed.

Lemma binary_normalize_nonzero z e :
  z <> 0 -> -1074 <= e ->
  match binary_normalize prec emax z e false with
  | S754_infinity _ | S754_finite _ _ _ => True
  | _ => False
  end.
Proof.
  intros Hz He.
  assert (H : forall s p, match binary_round prec emax s p e with
                          | S754_infinity _ | S754_finite _ _ _ => True
                          | _ => False end).
  { intros s p. rewrite binary_round_eq. cbv zeta.
    set (e' := Z.min e (fexp' (Zpos (digits2_pos p) + e))).
    apply binary_round_aux_nonzero.
    - assert (0 < 2 ^ (e - e')) by (apply Z.pow_pos_nonneg; unfold e'; lia). nia.
    - unfold e', fexp'. lia. }
  destruct z as [|p|p]; [congruence| |]; apply H.
Qed.

(** ** Signs of sums and quotients *)

Lemma has_sign_false_nonneg x : has_sign false x -> is_nonneg x = true.
Proof. destruct x as [[]|[]| |[] ? ?]; cbn; congruence || tauto. Qed.

Lemma ofZ_nonneg z : 0 <= z -> is_nonneg (ofZ z) = true.
Proof.
  intros Hz. apply has_sign_false_nonneg.
  replace false with (z <? 0) by (apply Z.ltb_ge; lia).
  apply binary_normalize_sign.
Qed.

Lemma add_nonneg x y :
  is_nonneg x = true -> is_nonneg y = true -> is_nonneg (add x y) = true.
Proof.
  destruct x as [[]|[]| |[] mx ex]; try discriminate;
  destruct y as [[]|[]| |[] my ey]; try discriminate; intros _ _; try reflexivity.
  unfold add, SFadd. cbn [cond_Zopp].
  apply has_sign_false_nonneg.
  match goal with |- has_sign _ (binary_normalize _ _ ?z _ _) =>
    replace false with (z <? 0) at 1 by (apply Z.ltb_ge; lia) end.
  apply binary_normalize_sign.
Qed.

Lemma div_nonneg x my ey :
  is_nonneg x = true -> is_nonneg (div x (S754_finite false my ey)) = true.
Proof.
  destruct x as [[]|[]| |[] mx ex]; try discriminate; intros _; try reflexivity.
  unfold div, SFdiv. cbn [xorb].
  destruct (SFdiv_core_binary prec emax (Z.pos mx) ex (Z.pos my) ey) as [[q e'] l] eqn:E.
  apply has_sign_false_nonneg. apply binary_round_aux_sign.
  unfold SFdiv_core_binary in E.
  match type of E with (let '(q, r) := Z.div_eucl ?a ?b in _) = _ =>
    pose proof (Z_div_mod a b ltac:(lia)) as H;
    assert (Ha : 0 <= a); [|destruct (Z.div_eucl a b) as [q' r']] end.
  { match goal with |- 0 <= match ?s with _ => _ end => destruct s end; try lia.
    apply Z.shiftl_nonneg. lia. }
  injection E as <- _ _. nia.
Qed.

(** ** Exact conversions and bounds of quotients and products *)

Lemma Zdigits2_unique m d :
  0 < m -> 2 ^ (d - 1) <= m < 2 ^ d -> Zdigits2 m = d.
Proof.
  intros Hm [Hlo Hhi]. destruct (Zdigits2_bounds m Hm) as [Hlo' Hhi'].
  assert (0 < Zdigits2 m) by (apply Zdigits2_pos; lia).
  assert (0 < d).
  { destruct (Z_lt_le_dec 0 d); [assumption|].
    assert (2 ^ d <= 2 ^ 0) by (apply Z.pow_le_mono_r; lia). change (2 ^ 0) with 1 in *. lia. }
  assert (d - 1 < Zdigits2 m) by (apply (Z.pow_lt_mono_r_iff 2); lia).
  assert (Zdigits2 m - 1 < d) by (apply (Z.pow_lt_mono_r_iff 2); lia).
  lia.
Qed.

(** An integer below [2^53] is converted without rounding. *)
Lemma ofZ_exact z :
  0 < z < 2 ^ 53 ->
  exists p e, ofZ z = S754_finite false p e /\
              -1074 <= e <= 0 /\ Zpos p = z * 2 ^ (- e).
Proof.
  intros [Hz0 Hz]. destruct z as [|q|q]; try lia.
  unfold ofZ. cbn [binary_normalize]. rewrite binary_round_eq. cbv zeta.
  set (d := Zpos (digits2_pos q)).
  destruct (Zdigits2_bounds (Zpos q) ltac:(lia)) as [Hlo Hhi].
  change (Zdigits2 (Zpos q)) with d in Hlo, Hhi.
  assert (Hd0 : 0 < d) by (unfold d; lia).
  assert (Hd : d <= 53).
  { assert (d - 1 < 53) by (apply (Z.pow_lt_mono_r_iff 2); lia). lia. }
  replace (d + 0) with d by lia.
  replace (Z.min 0 (fexp' d)) with (d - 53) by (unfold fexp'; lia).
  replace (0 - (d - 53)) with (53 - d) by lia.
  set (m := Zpos q * 2 ^ (53 - d)).
  assert (Hm : 2 ^ 52 <= m < 2 ^ 53).
  { unfold m.
    assert (E52 : 2 ^ 52 = 2 ^ (d - 1) * 2 ^ (53 - d))
      by (rewrite <- Z.pow_add_r by lia; f_equal; lia).
    assert (E53 : 2 ^ 53 = 2 ^ d * 2 ^ (53 - d))
      by (rewrite <- Z.pow_add_r by lia; f_equal; lia).
    rewrite E52, E53.
    assert (0 < 2 ^ (53 - d)) by (apply Z.pow_pos_nonneg; lia).
    split; [apply Z.mul_le_mono_nonneg_r|apply Z.mul_lt_mono_pos_r]; lia. }
  assert (Hm0 : 0 < m) by (assert (0 < 2 ^ 52) by (apply Z.pow_pos_nonneg; lia); lia).
  destruct (binary_round_aux_spec false m (d - 53) loc_Exact ltac:(lia)) as (m1 & Hm1 & ->).
  cbv zeta.
  rewrite (Zdigits2_unique m 53 Hm0 Hm) in *.
  replace (Z.max (fexp' (53 + (d - 53)) - (d - 53)) 0) with 0 in * by (unfold fexp'; lia).
  change (2 ^ 0) with 1 in Hm1. rewrite Z.div_1_r, Z.mod_1_r in Hm1.
  assert (m1 = m) by (destruct Hm1 as [?|[_ [?|?]]]; congruence). subst m1.
  rewrite (Zdigits2_unique m 53 Hm0 Hm).
  replace (d - 53 + 0) with (d - 53) by lia.
  replace (Z.max (fexp' (53 + (d - 53)) - (d - 53)) 0) with 0 by (unfold fexp'; lia).
  change (2 ^ 0) with 1. rewrite Z.div_1_r.
  destruct m as [|p|p] eqn:Em; try lia.
  replace (d - 53 + 0 <=? emax - prec) with true
    by (symmetry; apply Z.leb_le; unfold emax, prec; lia).
  exists p, (d - 53 + 0). split; [reflexivity|]. split; [lia|].
  replace (- (d - 53 + 0)) with (53 - d) by lia. symmetry; exact Em.
Qed.

Lemma compare_finite sx mx ex sy my ey :
  compare (S754_finite sx mx ex) (S754_finite sy my ey) =
  Some (Z.compare (cond_Zopp sx (Zpos mx * 2 ^ (ex - Z.min ex ey)))
                  (cond_Zopp sy (Zpos my * 2 ^ (ey - Z.min ex ey)))).
Proof. reflexivity. Qed.

Lemma new_location_exact n : new_location n 0 = loc_Exact.
Proof. unfold new_location. destruct (Z.even n); reflexivity. Qed.

(** The quotient of a positive number by one that is not smaller is at
    most 1. *)
Lemma div_le_one mx ex my ey :
  leb (S754_finite false mx ex) (S754_finite false my ey) = true ->
  le_pow2 0 (div (S754_finite false mx ex) (S754_finite false my ey)).
Proof.
  intros Hle.
  assert (HAB : Zpos mx * 2 ^ (ex - Z.min ex ey) <= Zpos my * 2 ^ (ey - Z.min ex ey)).
  { unfold leb in Hle. rewrite compare_finite in Hle. cbn [cond_Zopp] in Hle.
    destruct (Z.compare_spec (Zpos mx * 2 ^ (ex - Z.min ex ey)) (Zpos my * 2 ^ (ey - Z.min ex ey)));
      first [lia | discriminate]. }
  set (e0 := Z.min ex ey) in *.
  unfold div, SFdiv, SFdiv_core_binary. change (fexp prec emax) with fexp'.
  set (d1 := Zdigits2 (Zpos mx)). set (d2 := Zdigits2 (Zpos my)).
  destruct (Zdigits2_bounds (Zpos mx) ltac:(lia)) as [Hlo1 _]. fold d1 in Hlo1.
  destruct (Zdigits2_bounds (Zpos my) ltac:(lia)) as [_ Hhi2]. fold d2 in Hhi2.
  assert (Hd1 : 0 < d1) by (apply Zdigits2_pos; lia).
  assert (Hd2 : 0 < d2) by (apply Zdigits2_pos; lia).
  assert (Hdd : d1 + ex <= d2 + ey).
  { assert (H : 2 ^ (d1 - 1 + (ex - e0)) < 2 ^ (d2 + (ey - e0))).
    { rewrite !Z.pow_add_r by (unfold e0; lia).
      assert (0 < 2 ^ (ex - e0)) by (apply Z.pow_pos_nonneg; unfold e0; lia).
      assert (0 < 2 ^ (ey - e0)) by (apply Z.pow_pos_nonneg; unfold e0; lia).
      nia. }
    apply Z.pow_lt_mono_r_iff in H; unfold e0 in *; lia. }
  set (e' := Z.min (fexp' (d1 + ex - (d2 + ey))) (ex - ey)).
  assert (He' : e' <= -53) by (unfold e', fexp'; lia).
  assert (Hs : 0 <= ex - ey - e') by (unfold e'; lia).
  set (m' := match ex - ey - e' with
             | 0 => Z.pos mx
             | Z.pos _ => Z.shiftl (Z.pos mx) (ex - ey - e')
             | Z.neg _ => 0
             end).
  assert (Hm' : m' = Zpos mx * 2 ^ (ex - ey - e')).
  { unfold m'. destruct (ex - ey - e') as [|s|s] eqn:Es.
    - rewrite Z.pow_0_r. lia.
    - now rewrite Z.shiftl_mul_pow2 by lia.
    - lia. }
  assert (Hbound : m' <= Zpos my * 2 ^ (- e')).
  { rewrite Hm'.
    set (t := e0 - ey - e').
    assert (Ht : 0 <= t) by (unfold t, e0; lia).
    replace (ex - ey - e') with ((ex - e0) + t) by (unfold t; lia).
    replace (- e') with ((ey - e0) + t) by (unfold t; lia).
    rewrite !Z.pow_add_r by (unfold e0; lia).
    assert (0 < 2 ^ t) by (apply Z.pow_pos_nonneg; lia). nia. }
  pose proof (Z_div_mod m' (Zpos my) ltac:(lia)) as Hdm.
  destruct (Z.div_eucl m' (Zpos my)) as [q r]. destruct Hdm as [Hdm Hr].
  cbn [xorb].
  assert (Hp : 0 < 2 ^ (- e')) by (apply Z.pow_pos_nonneg; lia).
  assert (Hm'0 : 0 <= m').
  { rewrite Hm'. apply Z.mul_nonneg_nonneg; [lia|]. apply Z.pow_nonneg; lia. }
  apply binary_round_aux_le_pow2; try lia.
  - nia.
  - replace (0 - e') with (- e') by lia. nia.
  - intros Hl. replace (0 - e') with (- e') by lia.
    assert (r <> 0) by (intros ->; apply Hl, new_location_exact). nia.
Qed.

Lemma mul_le_one x y : le_pow2 0 x -> le_pow2 0 y -> le_pow2 0 (mul x y).
Proof.
  destruct x as [sx| | |sx mx ex]; try contradiction;
  destruct y as [sy| | |sy my ey]; try contradiction; intros Hx Hy; try exact I.
  unfold mul, SFmul. unfold le_pow2 in Hx, Hy.
  destruct Hx as [Hex Hmx], Hy as [Hey Hmy].
  apply binary_round_aux_le_pow2; try lia.
  - replace (0 - (ex + ey)) with ((0 - ex) + (0 - ey)) by lia.
    rewrite Z.pow_add_r, Pos2Z.inj_mul by lia.
    apply Z.mul_le_mono_nonneg; lia.
  - congruence.
Qed.

Lemma le_pow2_leb_one x :
  le_pow2 0 x -> is_nonneg x = true -> leb x one = true.
Proof.
  destruct x as [[]| | |[] p e]; try contradiction; try discriminate; intros H _.
  - reflexivity.
  - destruct H as [He Hp]. unfold leb, one. rewrite compare_finite. cbn [cond_Zopp].
    set (e0 := Z.min e (-52)).
    assert (Z.pos p * 2 ^ (e - e0) <= 4503599627370496 * 2 ^ (-52 - e0)).
    { change 4503599627370496 with (2 ^ 52). rewrite <- Z.pow_add_r by (unfold e0; lia).
      replace (52 + (-52 - e0)) with ((0 - e) + (e - e0)) by lia.
      rewrite Z.pow_add_r by (unfold e0; lia).
      assert (0 < 2 ^ (e - e0)) by (apply Z.pow_pos_nonneg; unfold e0; lia). nia. }
    destruct (Z.compare_spec (Z.pos p * 2 ^ (e - e0)) (4503599627370496 * 2 ^ (-52 - e0))); try reflexivity; lia.
Qed.

Lemma nonneg_leb_zero x : is_nonneg x = true -> leb zero x = true.
Proof.
  destruct x as [[]|[]| |[] p e]; try discriminate; intros _; try reflexivity.
  unfold leb, compare, zero, common_exponent, scaled. cbn [exponent cond_Zopp].
  rewrite Z.sub_diag. reflexivity.
Qed.

(** ** The order of the numbers *)

Lemma gtb_zero x : gtb x zero = is_pos x.
Proof.
  destruct x as [[]|[]| |[] p e]; try reflexivity;
    unfold gtb, ltb, compare, zero, common_exponent, scaled; cbn [exponent cond_Zopp];
    rewrite Z.sub_diag, Z.pow_0_r, Z.mul_1_r; reflexivity.
Qed.

Lemma scaled_rescale e0 e1 x :
  e1 <= e0 -> match exponent x with Some e => e0 <= e | None => True end ->
  scaled e1 x = scaled e0 x * 2 ^ (e0 - e1).
Proof.
  intros H1 H2. destruct x as [s|s| |s m e]; cbn [scaled exponent] in *; try reflexivity.
  replace (e - e1) with ((e - e0) + (e0 - e1)) by lia.
  rewrite Z.pow_add_r by lia. destruct s; cbn [cond_Zopp]; lia.
Qed.

Lemma compare_mul_pos a b c : 0 < c -> (a * c ?= b * c) = (a ?= b).
Proof.
  intros Hc. destruct (Z.compare_spec a b).
  - subst. apply Z.compare_refl.
  - apply Z.compare_lt_iff. nia.
  - apply Z.compare_gt_iff. nia.
Qed.

Lemma well_scaled_exponent x :
  well_scaled x = true ->
  match exponent x with Some e => emin <= e | None => True end.
Proof. destruct x; cbn; auto. intros H. now apply Z.leb_le. Qed.

(** On numbers that are not NaN, [compare] is the lexicographic order of
    the keys. *)
Lemma compare_key x y :
  is_nan x = false -> is_nan y = false ->
  well_scaled x = true -> well_scaled y = true ->
  compare x y =
  Some (match fst (key x) ?= fst (key y) with
        | Eq => snd (key x) ?= snd (key y)
        | c => c
        end).
Proof.
  intros Hx Hy Wx Wy.
  apply well_scaled_exponent in Wx, Wy.
  destruct x as [sx|[]| |sx mx ex]; try discriminate;
  destruct y as [sy|[]| |sy my ey]; try discriminate; try reflexivity;
  unfold compare; cbn [key fst snd Z.compare]; f_equal;
  match goal with |- (scaled ?e0 ?a ?= scaled ?e0 ?b) = _ =>
    rewrite (scaled_rescale e0 emin a), (scaled_rescale e0 emin b);
    [ symmetry; apply compare_mul_pos; apply Z.pow_pos_nonneg; [lia|] | .. ];
    cbn [common_exponent exponent] in *; try lia; try exact I
  end.
Qed.

Lemma leb_key x y :
  is_nan x = false -> is_nan y = false ->
  well_scaled x = true -> well_scaled y = true ->
  leb x y = true <-> key_le (key x) (key y).
Proof.
  intros Hx Hy Wx Wy. unfold leb, key_le.
  rewrite (compare_key x y Hx Hy Wx Wy).
  destruct (Z.compare_spec (fst (key x)) (fst (key y)));
  destruct (Z.compare_spec (snd (key x)) (snd (key y)));
  split; intros; try discriminate; try reflexivity; lia.
Qed.

Lemma ltb_key x y :
  is_nan x = false -> is_nan y = false ->
  well_scaled x = true -> well_scaled y = true ->
  ltb x y = true <-> ~ key_le (key y) (key x).
Proof.
  intros Hx Hy Wx Wy. unfold ltb, key_le.
  rewrite (compare_key x y Hx Hy Wx Wy).
  destruct (Z.compare_spec (fst (key x)) (fst (key y)));
  destruct (Z.compare_spec (snd (key x)) (snd (key y)));
  split; intros; try discriminate; try reflexivity; lia.
Qed.

(** The sign of a difference decides the comparison: [y - x > 0] exactly
    when [y > x]. *)
Lemma sub_gtb_zero x y :
  is_nan x = false -> is_nan y = false ->
  well_scaled x = true -> well_scaled y = true ->
  gtb (sub y x) zero = gtb y x.
Proof.
  intros Hx Hy Wx Wy. rewrite gtb_zero.
  destruct x as [sx|sx| |sx mx ex]; try discriminate;
  destruct y as [sy|sy| |sy my ey]; try discriminate;
  try (destruct sx, sy; reflexivity).
  - (* finite - 0 *)
    repeat match goal with b : bool |- _ => destruct b end;
      unfold gtb, ltb, compare, common_exponent, scaled;
      cbn [sub SFsub is_pos negb exponent cond_Zopp];
      rewrite Z.sub_diag, Z.pow_0_r, Z.mul_1_r; reflexivity.
  - (* 0 - finite *)
    repeat match goal with b : bool |- _ => destruct b end;
      unfold gtb, ltb, compare, common_exponent, scaled;
      cbn [sub SFsub is_pos negb exponent cond_Zopp];
      rewrite Z.sub_diag, Z.pow_0_r, Z.mul_1_r; reflexivity.
  - (* finite - finite *)
    unfold gtb, ltb. rewrite compare_finite.
    unfold sub, SFsub.
    destruct (shl_align_spec my ey (Z.min ey ex)) as [_ Hy'].
    destruct (shl_align_spec mx ex (Z.min ey ex)) as [_ Hx'].
    rewrite Hy', Hx'.
    replace (Z.min ey (Z.min ey ex)) with (Z.min ex ey) by lia.
    replace (Z.min ex (Z.min ey ex)) with (Z.min ex ey) by lia.
    replace (Z.min ey ex) with (Z.min ex ey) by lia.
    set (X := cond_Zopp sx (Z.pos mx * 2 ^ (ex - Z.min ex ey))).
    set (Y := cond_Zopp sy (Z.pos my * 2 ^ (ey - Z.min ex ey))).
    apply Z.leb_le in Wx, Wy. change emin with (-1074) in Wx, Wy.
    pose proof (binary_normalize_sign (Y - X) (Z.min ex ey)) as [Hs _].
    destruct (Z.compare_spec X Y) as [E|E|E].
    + replace (Y - X) with 0 by lia. reflexivity.
    + pose proof (binary_normalize_nonzero (Y - X) (Z.min ex ey) ltac:(lia) ltac:(lia)) as Hnz.
      replace (Y - X <? 0) with false in Hs by (symmetry; apply Z.ltb_ge; lia).
      destruct (binary_normalize prec emax (Y - X) (Z.min ex ey) false) as [?|[]| |[] ? ?];
        cbn in Hs, Hnz; try contradiction; try discriminate; reflexivity.
    + replace (Y - X <? 0) with true in Hs by (symmetry; apply Z.ltb_lt; lia).
      destruct (binary_normalize prec emax (Y - X) (Z.min ex ey) false) as [[]|[]| |[] ? ?];
        cbn in Hs; try contradiction; try discriminate; reflexivity.
Qed.

(** ** Agreement with the comparison of the standard library

    On valid binary64 numbers (canonical mantissa, exponent in range)
    the comparison by value is [SFcompare]. *)

Lemma bounded_digits m e :
  bounded prec emax m e = true ->
  e = fexp' (Zpos (digits2_pos m) + e).
Proof.
  unfold bounded, canonical_mantissa. change (fexp prec emax) with fexp'.
  intros H. apply andb_prop in H as [H _]. apply Z.eqb_eq in H. lia.
Qed.

Lemma bounded_lt m1 e1 m2 e2 :
  bounded prec emax m1 e1 = true -> bounded prec emax m2 e2 = true ->
  e1 < e2 ->
  Zpos m1 * 2 ^ (e1 - Z.min e1 e2) < Zpos m2 * 2 ^ (e2 - Z.min e1 e2).
Proof.
  intros H1 H2 Hlt. apply bounded_digits in H1, H2. unfold fexp' in *.
  replace (Z.min e1 e2) with e1 by lia. rewrite Z.sub_diag, Z.pow_0_r, Z.mul_1_r.
  destruct (Zdigits2_bounds (Zpos m1) ltac:(lia)) as [_ Hhi].
  destruct (Zdigits2_bounds (Zpos m2) ltac:(lia)) as [Hlo _].
  cbn [Zdigits2] in Hhi, Hlo.
  set (d1 := Zpos (digits2_pos m1)) in *. set (d2 := Zpos (digits2_pos m2)) in *.
  assert (Hd1 : d1 <= 53) by lia.
  assert (Hd2 : d2 = 53) by lia.
  assert (Z.pos m1 < 2 ^ 53).
  { eapply Z.lt_le_trans; [exact Hhi|]. apply Z.pow_le_mono_r; lia. }
  assert (2 ^ 52 <= Z.pos m2) by (rewrite Hd2 in Hlo; exact Hlo).
  assert (2 ^ 1 <= 2 ^ (e2 - e1)) by (apply Z.pow_le_mono_r; lia).
  change (2 ^ 1) with 2 in *. change (2 ^ 53) with (2 * 2 ^ 52) in *. nia.
Qed.

Lemma compare_is_SFcompare x y :
  valid_binary prec emax x = true -> valid_binary prec emax y = true ->
  compare x y = SFcompare x y.
Proof.
  destruct x as [sx|sx| |sx mx ex]; destruct y as [sy|sy| |sy my ey];
    try reflexivity; try (destruct sx, sy; reflexivity).
  - (* zero and finite *)
    intros _ _. unfold compare, common_exponent, scaled.
    cbn [exponent cond_Zopp SFcompare].
    rewrite Z.sub_diag, Z.pow_0_r, Z.mul_1_r. destruct sy; reflexivity.
  - intros _ _. unfold compare, common_exponent, scaled.
    cbn [exponent cond_Zopp SFcompare].
    rewrite Z.sub_diag, Z.pow_0_r, Z.mul_1_r. destruct sx; reflexivity.
  - cbn [valid_binary]. intros Hx Hy. rewrite compare_finite.
    cbn [SFcompare]. f_equal.
    set (X := Zpos mx * 2 ^ (ex - Z.min ex ey)).
    set (Y := Zpos my * 2 ^ (ey - Z.min ex ey)).
    assert (HX : 0 < X).
    { apply Z.mul_pos_pos; [lia|]. apply Z.pow_pos_nonneg; lia. }
    assert (HY : 0 < Y).
    { apply Z.mul_pos_pos; [lia|]. apply Z.pow_pos_nonneg; lia. }
    assert (Hcmp : (X ?= Y) =
                   match ex ?= ey with
                   | Eq => Pos.compare_cont Eq mx my
                   | c => c
                   end).
    { destruct (Z.compare_spec ex ey) as [E|E|E].
      - subst ey. unfold X, Y. rewrite Z.min_id, Z.sub_diag, Z.pow_0_r, !Z.mul_1_r.
        reflexivity.
      - apply Z.compare_lt_iff. now apply bounded_lt.
      - apply Z.compare_gt_iff. unfold X, Y. rewrite Z.min_comm.
        now apply bounded_lt. }
    destruct sx, sy; cbn [cond_Zopp].
    + rewrite Z.compare_opp, <- Zcompare_antisym, Hcmp.
      destruct (ex ?= ey); reflexivity.
    + destruct (Z.compare_spec (- X) Y); try reflexivity; lia.
    + destruct (Z.compare_spec X (- Y)); try reflexivity; lia.
    + rewrite Hcmp. destruct (ex ?= ey); reflexivity.
Qed.

End JsNumberFacts.

(* ===================================================================== *)
(** * Facts about the operations of the service *)
(* ===================================================================== *)

Module ServiceFacts.

Import JsNumber JsNumberFacts JsString JsArray.

(** ** Numbers *)

Lemma mul_well_scaled x y : well_scaled (mul x y) = true.
Proof.
  destruct x as [sx|sx| |sx mx ex]; destruct y as [sy|sy| |sy my ey];
    try reflexivity.
  unfold mul, SFmul. apply binary_round_aux_sign. lia.
Qed.

Lemma mul_nonneg_finite x p e :
  is_nonneg x = true -> is_nonneg (mul x (S754_finite false p e)) = true.
Proof.
  destruct x as [[]|[]| |[] mx ex]; try discriminate; intros _; try reflexivity.
  unfold mul, SFmul. cbn [xorb]. apply has_sign_false_nonneg.
  apply binary_round_aux_sign. lia.
Qed.

Lemma compare_refl x : is_nan x = false -> compare x x = Some Eq.
Proof.
  destruct x as [s|[]| |s m e]; try discriminate; intros _; try reflexivity.
  rewrite compare_finite. now rewrite Z.compare_refl.
Qed.

(** Lengths up to [2^53] are converted exactly, hence in order. *)
Lemma ofZ_leb m w :
  0 < m <= w -> w <= 2 ^ 53 ->
  leb (ofZ m) (ofZ w) = true /\
  (exists pm em, ofZ m = S754_finite false pm em) /\
  (exists pw ew, ofZ w = S754_finite false pw ew).
Proof.
  intros Hm Hw.
  destruct (Z.eq_dec m w) as [->|Hne].
  - assert (Hf : exists pw ew, ofZ w = S754_finite false pw ew).
    { destruct (Z.eq_dec w (2 ^ 53)) as [->|Hw'].
      - eexists _, _. vm_compute. reflexivity.
      - destruct (ofZ_exact w ltac:(lia)) as (p & e & E & _). eauto. }
    split; [|split; assumption].
    destruct Hf as (p & e & E). rewrite E. unfold leb.
    now rewrite compare_refl.
  - destruct (ofZ_exact m ltac:(lia)) as (pm & em & Em & Hem & Hpm).
    destruct (Z.eq_dec w (2 ^ 53)) as [->|Hw'].
    + split; [|split; [eauto|eexists _, _; vm_compute; reflexivity]].
      rewrite Em. replace (ofZ (2 ^ 53)) with (S754_finite false 4503599627370496 1)
        by (vm_compute; reflexivity).
      unfold leb. rewrite compare_finite. cbn [cond_Zopp].
      replace (Z.min em 1) with em by lia. rewrite Z.sub_diag, Z.pow_0_r, Z.mul_1_r, Hpm.
      change 4503599627370496 with (2 ^ 52). rewrite <- Z.pow_add_r by lia.
      replace (52 + (1 - em)) with (53 + - em) by lia. rewrite Z.pow_add_r by lia.
      assert (0 < 2 ^ (- em)) by (apply Z.pow_pos_nonneg; lia).
      destruct (Z.compare_spec (m * 2 ^ (- em)) (2 ^ 53 * 2 ^ (- em))); try reflexivity; nia.
    + destruct (ofZ_exact w ltac:(lia)) as (pw & ew & Ew & Hew & Hpw).
      split; [|split; eauto]. rewrite Em, Ew.
      unfold leb. rewrite compare_finite. cbn [cond_Zopp]. rewrite Hpm, Hpw.
      set (e0 := Z.min em ew).
      rewrite <- !Z.mul_assoc, <- !Z.pow_add_r by (unfold e0; lia).
      replace (- em + (em - e0)) with (- e0) by lia.
      replace (- ew + (ew - e0)) with (- e0) by lia.
      assert (0 < 2 ^ (- e0)) by (apply Z.pow_pos_nonneg; unfold e0; lia).
      destruct (Z.compare_spec (m * 2 ^ (- e0)) (w * 2 ^ (- e0))); try reflexivity; nia.
Qed.

(** The quotient of two lengths, the first at most the second, times a
    factor of at most one. *)
Lemma ratio_bounds (m w : nat) (c : number) :
  (m <= w)%nat -> (0 < w)%nat -> Z.of_nat w <= 2 ^ 53 ->
  le_pow2 0 c -> is_pos c = true -> 
  let r := mul (div (ofNat m) (ofNat w)) c in
  leb zero r = true /\ leb r one = true.
Proof.
  intros Hmw Hw Hbig Hc Hcpos r.
  destruct c as [?|?| |[] pc ec]; try discriminate; try contradiction.
  assert (Hr : is_nonneg r = true /\ le_pow2 0 r).
  { unfold r, ofNat. destruct m as [|m'].
    - destruct (ofZ_leb (Z.of_nat w) (Z.of_nat w) ltac:(lia) Hbig) as (_ & _ & pw & ew & ->).
      split; reflexivity || exact I.
    - destruct (ofZ_leb (Z.of_nat (S m')) (Z.of_nat w) ltac:(lia) Hbig)
        as (Hle & (pm & em & Em) & (pw & ew & Ew)).
      rewrite Em, Ew in *. split.
      + apply mul_nonneg_finite. apply div_nonneg. reflexivity.
      + apply mul_le_one; [|exact Hc]. now apply div_le_one. }
  destruct Hr as [Hn Hp]. split.
  - now apply nonneg_leb_zero.
  - now apply le_pow2_leb_one.
Qed.

Lemma Math_min_nonneg x y :
  is_nonneg x = true -> is_nonneg y = true -> is_nonneg (Math_min x y) = true.
Proof.
  intros Hx Hy. unfold Math_min. destruct (compare x y) as [[]|] eqn:E; auto.
  - destruct x as [[]|[]| |[] ? ?]; try discriminate;
    destruct y as [[]|[]| |[] ? ?]; try discriminate; reflexivity.
  - destruct x as [[]|[]| |[] ? ?]; try discriminate;
    destruct y as [[]|[]| |[] ? ?]; discriminate.
Qed.

Lemma Math_min_one_bounds x :
  is_nonneg x = true ->
  leb zero (Math_min x one) = true /\ leb (Math_min x one) one = true.
Proof.
  intros Hx. split.
  - apply nonneg_leb_zero. now apply Math_min_nonneg.
  - unfold Math_min. destruct (compare x one) as [[]|] eqn:E.
    + destruct x as [[]|[]| |[] ? ?]; try discriminate; unfold leb; now rewrite E.
    + unfold leb. now rewrite E.
    + reflexivity.
    + destruct x as [[]|[]| |[] ? ?]; discriminate.
Qed.

Lemma Math_max_zero x : is_nonneg x = true -> Math_max x zero = x.
Proof.
  destruct x as [[]|[]| |[] p e]; try discriminate; intros _; try reflexivity.
  unfold Math_max, compare, zero, common_exponent, scaled.
  cbn [exponent cond_Zopp]. rewrite Z.sub_diag, Z.pow_0_r, Z.mul_1_r. reflexivity.
Qed.

Lemma starBonus_nonneg stars : is_nonneg (Spec.starBonus stars) = true.
Proof.
  unfold Spec.starBonus. apply Math_min_nonneg; [|reflexivity].
  unfold lit_10000. apply div_nonneg. apply ofZ_nonneg. lia.
Qed.

(** ** Strings *)

Lemma toLowerCase_empty s : toLowerCase s = EmptyString -> s = EmptyString.
Proof. destruct s; [reflexivity|discriminate]. Qed.

Lemma includes_empty_l sub :
  includes EmptyString sub = true -> sub = EmptyString.
Proof. destruct sub; [reflexivity|discriminate]. Qed.

Lemma split_not_nil sep s : split sep s <> [].
Proof.
  destruct s as [|c s']; cbn [split]; [discriminate|].
  destruct (Ascii.eqb c sep); [discriminate|].
  destruct (split sep s'); discriminate.
Qed.

Lemma split_length sep s :
  (List.length (split sep s) <= String.length s + 1)%nat.
Proof.
  induction s as [|c s' IH]; cbn [split String.length List.length]; [lia|].
  destruct (Ascii.eqb c sep); cbn [List.length]; [lia|].
  destruct (split sep s'); cbn [List.length] in *; lia.
Qed.

Lemma split_words_by s : split space s = Spec.words_by Spec.is_blank s.
Proof.
  induction s as [|c s' IH]; cbn [split Spec.words_by]; [reflexivity|].
  rewrite <- IH. unfold Spec.is_blank.
  destruct (split space s') eqn:E; [now apply split_not_nil in E|].
  destruct (Ascii.eqb c space); reflexivity.
Qed.

(** ** Lists *)

Lemma count_occ_map_true {A} (f : A -> bool) l :
  count_occ Bool.bool_dec (map f l) true = List.length (filter f l).
Proof.
  induction l as [|x l IH]; [reflexivity|]. cbn [map filter].
  destruct (f x) eqn:E.
  - rewrite count_occ_cons_eq by reflexivity. cbn [List.length]. now rewrite IH.
  - rewrite count_occ_cons_neq by discriminate. exact IH.
Qed.

Lemma filter_length_le {A} (f : A -> bool) l :
  (List.length (filter f l) <= List.length l)%nat.
Proof.
  induction l as [|x l IH]; cbn [filter List.length]; [lia|].
  destruct (f x); cbn [List.length]; lia.
Qed.

Lemma slice_from_0 {A} n (l : list A) : slice 0 n l = firstn n l.
Proof. unfold slice. now rewrite Nat.sub_0_r. Qed.

Lemma firstn_In {A} n (l : list A) x : In x (firstn n l) -> In x l.
Proof.
  revert n. induction l as [|y l IH]; intros [|n]; cbn [firstn In]; try tauto.
  intros [->|H]; [now left|right; eauto].
Qed.

Lemma firstn_StronglySorted {A} (R : A -> A -> Prop) n l :
  StronglySorted R l -> StronglySorted R (firstn n l).
Proof.
  intros H. revert n. induction H as [|x l Hl IH Hx]; intros [|n]; cbn [firstn];
    try constructor.
  - apply IH.
  - apply Forall_forall. intros y Hy. rewrite Forall_forall in Hx.
    apply Hx. eapply firstn_In, Hy.
Qed.

Lemma firstn_Forall {A} (P : A -> Prop) n l :
  Forall P l -> Forall P (firstn n l).
Proof.
  rewrite !Forall_forall. intros H x Hx. apply H. eapply firstn_In, Hx.
Qed.

(** ** The sort *)

Section Sort.

Context {A : Type} (compareFn : A -> A -> number).

Lemma insert_perm x l : Permutation (x :: l) (insert compareFn x l).
Proof.
  induction l as [|y l IH]; cbn [insert]; [reflexivity|].
  destruct (gtb (compareFn x y) zero); [|reflexivity].
  rewrite perm_swap. now constructor.
Qed.

Lemma sort_perm l : Permutation l (sort compareFn l).
Proof.
  induction l as [|x l IH]; cbn [sort]; [constructor|].
  rewrite <- insert_perm. now constructor.
Qed.

Lemma sort_Forall (P : A -> Prop) l : Forall P l -> Forall P (sort compareFn l).
Proof. intros H. eapply Permutation_Forall; [apply sort_perm|exact H]. Qed.

End Sort.

Lemma geb_trans x y z :
  comparable x -> comparable y -> comparable z ->
  geb x y = true -> geb y z = true -> geb x z = true.
Proof.
  intros [Nx Wx] [Ny Wy] [Nz Wz]. unfold geb.
  rewrite !leb_key by assumption. unfold key_le. lia.
Qed.

Lemma not_gtb_geb x y :
  comparable x -> comparable y -> gtb y x = false -> geb x y = true.
Proof.
  intros [Nx Wx] [Ny Wy] H. unfold geb. apply leb_key; try assumption.
  destruct (ltb x y) eqn:E; [unfold gtb in H; congruence|].
  assert (Hn : ~ ~ key_le (key y) (key x)).
  { intros Hk. apply (ltb_key x y Nx Ny Wx Wy) in Hk. congruence. }
  unfold key_le in *. lia.
Qed.

Lemma gtb_geb x y :
  comparable x -> comparable y -> gtb y x = true -> geb y x = true.
Proof.
  intros [Nx Wx] [Ny Wy] H. unfold geb, gtb in *. apply leb_key; try assumption.
  apply (ltb_key x y Nx Ny Wx Wy) in H. unfold key_le in *. lia.
Qed.

Lemma gtb_not_nan x y : gtb x y = true -> is_nan x = false.
Proof.
  unfold gtb, ltb. destruct x; try reflexivity. destruct y; discriminate.
Qed.

(** The comparator of the documentation search, [b.relevance -
    a.relevance], sorts in descending order. *)
Lemma insert_by_relevance_sorted x l :
  Spec.rankable x -> Forall Spec.rankable l ->
  StronglySorted Spec.descending l ->
  StronglySorted Spec.descending
    (insert (fun a b => sub (relevance b) (relevance a)) x l).
Proof.
  intros Hx Hl Hs. induction Hs as [|y l Hs IH Hy]; cbn [insert].
  - repeat constructor.
  - inversion Hl as [|? ? Hy' Hl']; subst.
    cbv beta.
    rewrite sub_gtb_zero by (apply Hx || apply Hy').
    destruct (gtb (relevance y) (relevance x)) eqn:E.
    + constructor; [now apply IH|].
      eapply Permutation_Forall; [apply insert_perm|].
      constructor; [|exact Hy]. unfold Spec.descending. now apply gtb_geb.
    + assert (Hxy : Spec.descending x y)
        by (unfold Spec.descending; now apply not_gtb_geb).
      constructor; [now constructor|]. constructor; [exact Hxy|].
      rewrite Forall_forall in *. intros z Hz. unfold Spec.descending in *.
      eapply geb_trans; [apply Hx|apply Hy'|apply Hl', Hz|exact Hxy|apply Hy, Hz].
Qed.

Lemma sort_by_relevance_sorted l :
  Forall Spec.rankable l ->
  StronglySorted Spec.descending
    (sort (fun a b => sub (relevance b) (relevance a)) l).
Proof.
  induction 1 as [|x l Hx Hl IH]; cbn [sort]; [constructor|].
  apply insert_by_relevance_sorted; [exact Hx| |exact IH].
  now apply sort_Forall.
Qed.

End ServiceFacts.

(* ===================================================================== *)
(** * The claims of the specification *)
(* ===================================================================== *)

Module Claims.

Import JsNumber JsNumberFacts JsString JsArray ResearchService ServiceFacts.
Local Open Scope string_scope.
Local Open Scope list_scope.

Lemma toLowerCase_length s : String.length (toLowerCase s) = String.length s.
Proof. induction s as [|c s IH]; cbn; congruence. Qed.

(** ** The relevance of a repository *)

(** The sum that [calculateRelevance] clamps. *)
Lemma calculateRelevance_eq repo technology :
  exists bonus,
    is_nonneg bonus = true /\
    bonus =
      add (if Spec.contains_ci (Repo.name repo) technology then lit_0_4 else zero)
          (if match Repo.description repo with
              | Some d => truthy d && Spec.contains_ci d technology
              | None => false
              end
           then lit_0_3 else zero) /\
    calculateRelevance repo technology =
      Math_min (add bonus (Spec.starBonus (Repo.stargazers_count repo))) one.
Proof.
  unfold calculateRelevance.
  fold (Spec.contains_ci (Repo.name repo) technology).
  fold (Spec.starBonus (Repo.stargazers_count repo)).
  destruct (Repo.description repo) as [d|].
  - fold (Spec.contains_ci d technology).
    destruct (Spec.contains_ci (Repo.name repo) technology);
      destruct (truthy d && Spec.contains_ci d technology);
      eexists; (split; [|split; [reflexivity|]]); try reflexivity.
  - destruct (Spec.contains_ci (Repo.name repo) technology);
      eexists; (split; [|split; [reflexivity|]]); try reflexivity.
Qed.

Lemma contains_ci_description d technology :
  technology <> EmptyString ->
  truthy d && Spec.contains_ci d technology = Spec.contains_ci d technology.
Proof.
  intros Ht. destruct d as [|c d]; [|reflexivity].
  cbn [truthy andb]. unfold Spec.contains_ci. cbn [toLowerCase].
  destruct (includes EmptyString (toLowerCase technology)) eqn:E; [|reflexivity].
  apply includes_empty_l, toLowerCase_empty in E. contradiction.
Qed.

(** C2: for every repository record (its star count is a natural number)
    and every term, the score of [calculateRelevance] lies between 0 and
    1, however large the star count; for every text and every term (a
    JavaScript string, of fewer than 2^53 characters) the score of
    [calculateTextRelevance] lies between 0 and 1. *)
Theorem relevance_in_unit_interval :
  (forall repo technology,
      leb zero (calculateRelevance repo technology) = true /\
      leb (calculateRelevance repo technology) one = true) /\
  (forall text technology,
      (Z.of_nat (String.length technology) < 2 ^ 53)%Z ->
      leb zero (calculateTextRelevance text technology) = true /\
      leb (calculateTextRelevance text technology) one = true).
Proof.
  split.
  - intros repo technology.
    destruct (calculateRelevance_eq repo technology) as (bonus & Hb & _ & ->).
    apply Math_min_one_bounds.
    apply add_nonneg; [exact Hb|apply starBonus_nonneg].
  - intros text technology Hlen. unfold calculateTextRelevance.
    destruct (includes (toLowerCase text) (toLowerCase technology)).
    + split; reflexivity.
    + apply ratio_bounds.
      * apply filter_length_le.
      * pose proof (split_not_nil space (toLowerCase technology)).
        destruct (split space (toLowerCase technology)); [congruence|cbn; lia].
      * pose proof (split_length space (toLowerCase technology)) as H.
        rewrite toLowerCase_length in H. lia.
      * unfold lit_0_6, le_pow2. split; [lia|]. now vm_compute.
      * reflexivity.
Qed.

Lemma relevance_in_unit_interval_witness :
  leb zero (calculateRelevance Samples.galaxy "react") = true /\
  leb (calculateRelevance Samples.galaxy "react") one = true /\
  leb zero (calculateTextRelevance "Machine basics" "machine learning") = true /\
  leb (calculateTextRelevance "Machine basics" "machine learning") one = true.
Proof.
  split; [|split].
  - apply (proj1 relevance_in_unit_interval Samples.galaxy "react").
  - apply (proj1 relevance_in_unit_interval Samples.galaxy "react").
  - apply (proj2 relevance_in_unit_interval). reflexivity.
Defined.

(** C3: for every repository record and non-empty term,
    [calculateRelevance] returns the clamp to [0,1] of: 0.4 if the name
    contains the term (letter case ignored), plus 0.3 if the description
    contains it, plus min(starCount/10000, 0.3); on the repository named
    "react" with an empty description and 200000 stars, and the term
    "react", it returns 0.7. *)
Theorem calculateRelevance_formula :
  (forall repo technology,
      technology <> EmptyString ->
      calculateRelevance repo technology =
      Spec.repositoryRelevance (Repo.name repo) (Repo.description repo)
        (Repo.stargazers_count repo) technology) /\
  calculateRelevance Samples.react "react" = lit_0_7.
Proof.
  split; [|reflexivity].
  intros repo technology Ht.
  destruct (calculateRelevance_eq repo technology) as (bonus & Hb & Ebonus & ->).
  unfold Spec.repositoryRelevance, Spec.clamp01.
  replace (match Repo.description repo with
           | Some d => Spec.contains_ci d technology
           | None => false
           end)
    with (match Repo.description repo with
          | Some d => truthy d && Spec.contains_ci d technology
          | None => false
          end)
    by (destruct (Repo.description repo); [now apply contains_ci_description|reflexivity]).
  rewrite <- Ebonus. f_equal. symmetry. apply Math_max_zero.
  apply add_nonneg; [exact Hb|apply starBonus_nonneg].
Qed.

Lemma calculateRelevance_formula_witness :
  "react" <> EmptyString /\
  calculateRelevance Samples.galaxy "react" =
  Spec.repositoryRelevance "React-Galaxy" (Some "All of React")
    (2 ^ 1024) "react".
Proof.
  split; [discriminate|].
  apply (proj1 calculateRelevance_formula Samples.galaxy "react").
  discriminate.
Defined.

(** C10: for every repository record whose description is missing
    ([null] or [undefined]) or empty, and every term, [calculateRelevance]
    returns a score (the description test is skipped, no string method
    is called on the missing value) and gives no description bonus: the
    score is the minimum of 1 and the sum of the name bonus and the star
    bonus. *)
Theorem calculateRelevance_without_description repo technology :
  Repo.description repo = None \/ Repo.description repo = Some EmptyString ->
  calculateRelevance repo technology =
  Math_min
    (add (if Spec.contains_ci (Repo.name repo) technology
          then lit_0_4 else zero)
         (Spec.starBonus (Repo.stargazers_count repo)))
    one.
Proof.
  intros Hd.
  destruct (calculateRelevance_eq repo technology) as (bonus & _ & Ebonus & ->).
  f_equal. f_equal. rewrite Ebonus.
  destruct Hd as [-> | ->]; cbn [truthy andb];
    destruct (Spec.contains_ci (Repo.name repo) technology); reflexivity.
Qed.

Lemma calculateRelevance_without_description_witness :
  calculateRelevance Samples.react "react" =
  Math_min (add lit_0_4 (Spec.starBonus 200000)) one.
Proof.
  apply (calculateRelevance_without_description Samples.react "react").
  right. reflexivity.
Defined.
(** ** The relevance of a text *)

Lemma calculateTextRelevance_by_words is_sep text technology :
  (forall s, split space s = Spec.words_by is_sep s) ->
  calculateTextRelevance text technology =
  Spec.textRelevance is_sep text technology.
Proof.
  intros Hsplit. unfold calculateTextRelevance, Spec.textRelevance, Spec.contains_ci.
  destruct (includes (toLowerCase text) (toLowerCase technology)); [reflexivity|].
  now rewrite count_occ_map_true, <- Hsplit.
Qed.

(** ** The context window of a code example *)

Lemma scan_lines_no_match lines techLower rest i :
  Forall (fun line => includes (toLowerCase line) techLower = false) rest ->
  scan_lines lines rest i techLower = [].
Proof.
  intros H. revert i. induction H as [|line rest Hline _ IH]; intros i;
    cbn [scan_lines]; [reflexivity|].
  rewrite Hline. apply IH.
Qed.

Lemma scan_lines_first_match lines techLower before line after i :
  Forall (fun l => includes (toLowerCase l) techLower = false) before ->
  includes (toLowerCase line) techLower = true ->
  scan_lines lines (before ++ line :: after) i techLower =
  slice (Z.to_nat (Z.max 0 (Z.of_nat (i + List.length before) - 3)))
        (Nat.min (List.length lines) (i + List.length before + 4)) lines.
Proof.
  intros H Hline. revert i. induction H as [|l before Hl _ IH]; intros i;
    cbn [scan_lines app List.length].
  - rewrite Hline. now rewrite Nat.add_0_r.
  - rewrite Hl, IH. do 3 f_equal; lia.
Qed.

Lemma slice_length {A} start end_ (l : list A) :
  (end_ <= List.length l)%nat ->
  List.length (slice start end_ l) = (end_ - start)%nat.
Proof.
  intros H. unfold slice. rewrite length_firstn, length_skipn. lia.
Qed.

Lemma nth_error_split_at {A} (l : list A) i x :
  nth_error l i = Some x ->
  l = firstn i l ++ x :: skipn (S i) l /\ List.length (firstn i l) = i.
Proof.
  revert i. induction l as [|y l IH]; intros [|i] H; cbn in H; try discriminate.
  - injection H as ->. split; reflexivity.
  - destruct (IH i H) as [E L]. split.
    + change (y :: l = y :: (firstn i l ++ x :: skipn (S i) l)). now f_equal.
    + change (S (List.length (firstn i l)) = S i). now f_equal.
Qed.

(** ** The recommendations *)

Lemma fold_visit_constraint cs acc :
  fold_left visit_constraint cs acc =
  (acc ++ flat_map
     (fun c =>
        (if Spec.lowered_contains c "performance" then [rec_performance] else []) ++
        (if Spec.lowered_contains c "security" then [rec_security] else []))
     cs)%list.
Proof.
  revert acc. induction cs as [|c cs IH]; intros acc; cbn [fold_left flat_map].
  - now rewrite app_nil_r.
  - rewrite IH. unfold visit_constraint, Spec.lowered_contains.
    destruct (includes (toLowerCase c) "performance");
      destruct (includes (toLowerCase c) "security");
      cbn [app]; rewrite <- ?app_assoc; cbn [app]; reflexivity.
Qed.

Lemma filter_head_find {A B} (f : A -> bool) (g : A -> B) l :
  match filter f l with x :: _ => [g x] | [] => [] end =
  match find f l with Some x => [g x] | None => [] end.
Proof.
  induction l as [|x l IH]; cbn [filter find]; [reflexivity|].
  destruct (f x); [reflexivity|exact IH].
Qed.

(** C4, as stated: the words of the term are cut at white space.  On a
    term whose two words are separated by a tab the service finds one
    word, none of which occurs in the text, and returns 0, where the
    stated formula gives 1/2 * 0.6. *)
Lemma calculateTextRelevance_not_cut_at_whitespace :
  Samples.tabbed_term <> EmptyString /\
  calculateTextRelevance "machine basics" Samples.tabbed_term = zero /\
  Spec.textRelevance is_space "machine basics" Samples.tabbed_term = lit_0_3 /\
  calculateTextRelevance "machine basics" Samples.tabbed_term <>
  Spec.textRelevance is_space "machine basics" Samples.tabbed_term.
Proof.
  split; [discriminate|]. split; [reflexivity|]. split; [reflexivity|].
  intros H. vm_compute in H. discriminate H.
Qed.

(** C4, amended: for every text and non-empty term, [calculateTextRelevance]
    is 0.8 when the lower-cased text contains the lower-cased term, and
    otherwise the number of the term's words found in the text, over the
    number of words, times 0.6, where the words are cut at each space
    character (and only there), so that two spaces in a row enclose an
    empty word, which every text contains; it is 0.8 on "React Tutorial
    for Beginners" and "react", 0.3 on "Machine basics" and "machine
    learning", and 2/3 * 0.6 on "Machine basics" and "machine  learning"
    (two spaces). *)
Theorem calculateTextRelevance_cut_at_spaces :
  (forall text technology,
      technology <> EmptyString ->
      calculateTextRelevance text technology =
      Spec.textRelevance Spec.is_blank text technology) /\
  calculateTextRelevance "React Tutorial for Beginners" "react" = lit_0_8 /\
  calculateTextRelevance "Machine basics" "machine learning" = lit_0_3 /\
  calculateTextRelevance "Machine basics" "machine  learning" =
    mul (div (ofZ 2) (ofZ 3)) lit_0_6.
Proof.
  split; [|repeat split; reflexivity].
  intros text technology _.
  apply calculateTextRelevance_by_words, split_words_by.
Qed.

Lemma calculateTextRelevance_cut_at_spaces_witness :
  "machine learning"%string <> EmptyString /\
  calculateTextRelevance "Machine basics" "machine learning" =
  Spec.textRelevance Spec.is_blank "Machine basics" "machine learning".
Proof.
  split; [discriminate|].
  apply (proj1 calculateTextRelevance_cut_at_spaces). discriminate.
Defined.

Lemma firstn_Forall_nth_error {A} (P : A -> Prop) i (l : list A) :
  (forall j x, (j < i)%nat -> nth_error l j = Some x -> P x) ->
  Forall P (firstn i l).
Proof.
  revert i. induction l as [|y l IH]; intros [|i] H; cbn [firstn];
    try constructor.
  - apply (H 0%nat); [lia|reflexivity].
  - apply IH. intros j x Hj Hx. apply (H (S j)); [lia|exact Hx].
Qed.

(** C6: for every file content and non-empty term, [extractRelevantCode]
    returns the first 20 lines joined with newlines when no line contains
    the term (letter case ignored); when the first line that contains it
    has index [i], it returns the lines [max(0, i-3)] to
    [min(lineCount, i+4)] (excluded), joined with newlines, and what the
    loop collects does not depend on the lines it would visit after
    index [i]. *)
Theorem extractRelevantCode_window code technology :
  technology <> EmptyString ->
  let lines := split newline code in
  ((forall line, In line lines -> Spec.contains_ci line technology = false) ->
   extractRelevantCode code technology = join nl (firstn 20 lines)) /\
  (forall i,
      Spec.first_match lines technology i ->
      extractRelevantCode code technology =
        join nl (slice (Z.to_nat (Z.max 0 (Z.of_nat i - 3)))
                       (Nat.min (List.length lines) (i + 4)) lines) /\
      forall after,
        scan_lines lines (firstn (S i) lines ++ after) 0
                   (toLowerCase technology) =
        scan_lines lines lines 0 (toLowerCase technology)).
Proof.
  intros _ lines. split.
  - intros Hnone. unfold extractRelevantCode. fold lines.
    rewrite scan_lines_no_match by (apply Forall_forall; exact Hnone).
    cbn [List.length Nat.ltb Nat.leb]. now rewrite slice_from_0.
  - intros i [(line & Hi & Hline) Hbefore].
    destruct (nth_error_split_at lines i line Hi) as [Hsplit Hlen].
    set (before := firstn i lines) in *.
    set (rest := skipn (S i) lines) in *.
    assert (Hno : Forall (fun l => includes (toLowerCase l) (toLowerCase technology) = false)
                         before).
    { apply firstn_Forall_nth_error. exact Hbefore. }
    assert (Hscan : forall after,
               scan_lines lines (before ++ line :: after) 0 (toLowerCase technology) =
               slice (Z.to_nat (Z.max 0 (Z.of_nat i - 3)))
                     (Nat.min (List.length lines) (i + 4)) lines).
    { intros after.
      rewrite (scan_lines_first_match lines (toLowerCase technology) before line after 0 Hno Hline).
      now rewrite Hlen. }
    assert (Hi' : (i < List.length lines)%nat)
      by (apply nth_error_Some; congruence).
    assert (Hall : scan_lines lines lines 0 (toLowerCase technology) =
                   slice (Z.to_nat (Z.max 0 (Z.of_nat i - 3)))
                         (Nat.min (List.length lines) (i + 4)) lines).
    { transitivity (scan_lines lines (before ++ line :: rest) 0
                               (toLowerCase technology));
        [f_equal; exact Hsplit|apply Hscan]. }
    split.
    + unfold extractRelevantCode. fold lines. rewrite Hall.
      rewrite slice_length by lia.
      replace (0 <? Nat.min (List.length lines) (i + 4)
                    - Z.to_nat (Z.max 0 (Z.of_nat i - 3)))%nat with true
        by (symmetry; apply Nat.ltb_lt; lia).
      reflexivity.
    + intros after.
      assert (Hfirst : firstn (S i) lines = (before ++ [line])%list).
      { rewrite Hsplit at 1. rewrite firstn_app, Hlen.
        replace (S i - i)%nat with 1%nat by lia.
        rewrite firstn_all2 by (rewrite Hlen; lia). reflexivity. }
      rewrite Hfirst, <- app_assoc. cbn [app]. now rewrite Hscan, Hall.
Qed.

Lemma extractRelevantCode_window_witness :
  "react"%string <> EmptyString /\
  extractRelevantCode "const a = 1;" "react" =
    join nl (firstn 20 (split newline "const a = 1;")) /\
  Spec.first_match (split newline Samples.sample_file) "react" 4 /\
  extractRelevantCode Samples.sample_file "react" =
  join nl (slice 1 8 (split newline Samples.sample_file)).
Proof.
  assert (Hm : Spec.first_match (split newline Samples.sample_file) "react" 4).
  { split.
    - eexists. split; reflexivity.
    - intros [|[|[|[|j]]]] line Hj Hline; try lia;
        vm_compute in Hline; injection Hline as <-; reflexivity. }
  split; [discriminate|]. split; [|split; [exact Hm|]].
  - apply (proj1 (extractRelevantCode_window "const a = 1;" "react"
                    ltac:(discriminate))).
    intros line [<-|[]]. reflexivity.
  - exact (proj1 (proj2 (extractRelevantCode_window Samples.sample_file "react"
                           ltac:(discriminate)) 4%nat Hm)).
Defined.

(** C9, as stated: the purpose and the constraints are searched for the
    words as they are written.  On the purpose "Web dashboard with a REST
    API" the service gives the web and the API recommendations, although
    the purpose contains neither "web" nor "api". *)
Lemma generateRecommendations_not_case_sensitive :
  includes (purpose Samples.react_query) "web" = false /\
  includes (purpose Samples.react_query) "api" = false /\
  In rec_web (generateRecommendations Samples.react_query []) /\
  In rec_api (generateRecommendations Samples.react_query []) /\
  generateRecommendations Samples.react_query [] <>
  Spec.recommend includes Samples.react_query [].
Proof.
  split; [reflexivity|]. split; [reflexivity|]. split; [|split].
  - left. reflexivity.
  - right. left. reflexivity.
  - intros H. vm_compute in H. discriminate H.
Qed.

(** C9, amended: for every query and repository-resource list,
    [generateRecommendations] lists its entries in the order the rules
    fire: the recommendation of the first resource of relevance above
    0.8, if any; the web recommendation if the purpose, put in lower
    case, contains "web", and the API recommendation if it contains
    "api"; for each constraint in order, the performance recommendation
    if the constraint, put in lower case, contains "performance" and
    the security recommendation if it contains "security"; and last the
    two closing recommendations, so that the list has at least two
    entries. *)
Theorem generateRecommendations_rule_order query githubResults :
  generateRecommendations query githubResults =
    Spec.recommend Spec.lowered_contains query githubResults /\
  (exists fired,
      generateRecommendations query githubResults =
      (fired ++ [rec_testing; rec_updates])%list) /\
  (2 <= List.length (generateRecommendations query githubResults))%nat.
Proof.
  assert (E : generateRecommendations query githubResults =
              Spec.recommend Spec.lowered_contains query githubResults).
  { unfold generateRecommendations, Spec.recommend, Spec.lowered_contains.
    cbn [app].
    rewrite (filter_head_find _ rec_adoption).
    destruct (find _ githubResults) as [r|];
      destruct (includes (toLowerCase (purpose query)) "web");
      destruct (includes (toLowerCase (purpose query)) "api");
      destruct (constraints query) as [cs|];
      rewrite ?fold_visit_constraint; cbn [app flat_map];
      rewrite <- ?app_assoc; cbn [app]; rewrite ?app_nil_r; reflexivity. }
  split; [exact E|]. split.
  - unfold generateRecommendations. rewrite <- app_assoc. eexists. reflexivity.
  - unfold generateRecommendations. rewrite !length_app. cbn [List.length]. lia.
Qed.

(** ** The documentation search *)

Lemma calculateTextRelevance_well_scaled text technology :
  well_scaled (calculateTextRelevance text technology) = true.
Proof.
  unfold calculateTextRelevance.
  destruct (includes _ _); [reflexivity|apply mul_well_scaled].
Qed.

Lemma visit_anchor_scaled h site technology element results results' :
  Forall Spec.scaled_relevance results ->
  visit_anchor h site technology element results = Return results' ->
  Forall Spec.scaled_relevance results'.
Proof.
  intros H. unfold visit_anchor.
  destruct (anchor_href element) as [href|]; [|intros [= <-]; exact H].
  destruct (truthy _ && truthy href && _); [|intros [= <-]; exact H].
  destruct (if startsWith href "http" then _ else _) as [absolute|e];
    cbn [bind]; [|discriminate].
  intros [= <-]. apply Forall_app. split; [exact H|].
  constructor; [|constructor]. apply calculateTextRelevance_well_scaled.
Qed.

Lemma each_anchor_scaled h site technology elements results :
  Forall Spec.scaled_relevance results ->
  Forall Spec.scaled_relevance (fst (each_anchor h site technology elements results)).
Proof.
  revert results. induction elements as [|element rest IH]; intros results H;
    cbn [each_anchor]; [exact H|].
  destruct (visit_anchor h site technology element results) as [results'|e] eqn:E.
  - apply IH. eapply visit_anchor_scaled; eassumption.
  - exact H.
Qed.

Lemma search_site_scaled h technology results site :
  Forall Spec.scaled_relevance results ->
  Forall Spec.scaled_relevance (search_site h technology results site).
Proof.
  intros H. unfold search_site.
  destruct (get_page_anchors h site (toLowerCase technology));
    [now apply each_anchor_scaled|exact H].
Qed.

Lemma fold_search_site_scaled h technology sites results :
  Forall Spec.scaled_relevance results ->
  Forall Spec.scaled_relevance (fold_left (search_site h technology) sites results).
Proof.
  revert results. induction sites as [|site sites IH]; intros results H;
    cbn [fold_left]; [exact H|].
  apply IH. now apply search_site_scaled.
Qed.

(** The filter, the sort and the slice, on any list of candidates whose
    relevance is a rounded result. *)
Lemma rank_documentation_ranked results :
  Forall Spec.scaled_relevance results ->
  Forall (fun r => gtb (relevance r) lit_0_3 = true) (rank_documentation results) /\
  StronglySorted Spec.descending (rank_documentation results) /\
  (List.length (rank_documentation results) <= 10)%nat /\
  (forall r, In r (rank_documentation results) -> In r results).
Proof.
  intros H. unfold rank_documentation. rewrite slice_from_0.
  set (kept := filter (fun r => gtb (relevance r) lit_0_3) results).
  assert (Hkept : Forall (fun r => gtb (relevance r) lit_0_3 = true) kept).
  { apply Forall_forall. intros r Hr. now apply filter_In in Hr. }
  assert (Hrank : Forall Spec.rankable kept).
  { apply Forall_forall. intros r Hr. apply filter_In in Hr as [Hin Hgt].
    rewrite Forall_forall in H. split; [eapply gtb_not_nan; eassumption|now apply H]. }
  repeat split.
  - apply firstn_Forall. now apply sort_Forall.
  - apply firstn_StronglySorted. now apply sort_by_relevance_sorted.
  - apply firstn_le_length.
  - intros r Hr. apply firstn_In in Hr.
    eapply Permutation_in in Hr; [|symmetry; apply sort_perm].
    now apply filter_In in Hr.
Qed.

(** C5: for every term and every host (so for every collection of
    candidates gathered from the documentation sites), every entry that
    [searchDocumentation] returns has a relevance above 0.3, the entries
    are in descending order of relevance, and there are at most 10. *)
Theorem searchDocumentation_ranked h technology docs :
  searchDocumentation h technology = Return docs ->
  Forall (fun r => gtb (relevance r) lit_0_3 = true) docs /\
  StronglySorted Spec.descending docs /\
  (List.length docs <= 10)%nat.
Proof.
  unfold searchDocumentation.
  destruct (documentationSites h technology) as [sites|e]; cbn [bind];
    [|discriminate].
  intros [= <-].
  destruct (rank_documentation_ranked
              (fold_left (search_site h technology) sites []))
    as (H1 & H2 & H3 & _); [|auto].
  apply fold_search_site_scaled. constructor.
Qed.

Lemma searchDocumentation_ranked_witness :
  searchDocumentation Samples.crowded "React guide part" =
    Return Samples.crowded_docs /\
  Forall (fun r => gtb (relevance r) lit_0_3 = true) Samples.crowded_docs /\
  StronglySorted Spec.descending Samples.crowded_docs /\
  (List.length Samples.crowded_docs <= 10)%nat.
Proof.
  split; [vm_compute; reflexivity|].
  apply (searchDocumentation_ranked Samples.crowded "React guide part").
  vm_compute. reflexivity.
Defined.

(** ** The adapters and the orchestrator *)

Lemma searchGitHub_returns h technology :
  exists found, searchGitHub h technology = Return found.
Proof.
  unfold searchGitHub.
  destruct (_ <- get_search_repositories h (repositoryQuery technology) ;; _);
    cbn [try_catch]; eauto.
Qed.

Lemma findCodeExamples_returns h technology :
  exists examples, findCodeExamples h technology = Return examples.
Proof.
  unfold findCodeExamples.
  destruct (_ <- get_search_code h (codeQuery technology) ;; _);
    cbn [try_catch]; eauto.
Qed.

Lemma mapM_Forall {A B} (f : A -> Completion B) (P : B -> Prop) items ys :
  (forall x y, f x = Return y -> P y) ->
  mapM f items = Return ys -> Forall P ys.
Proof.
  intros Hf. revert ys. induction items as [|x items IH]; intros ys; cbn [mapM].
  - intros [= <-]. constructor.
  - destruct (f x) as [y|e] eqn:E; cbn [bind]; [|discriminate].
    destruct (mapM f items) as [ys'|e]; cbn [bind]; [|discriminate].
    intros [= <-]. constructor; eauto.
Qed.

Lemma mapM_throws {A B} (f : A -> Completion B) items x :
  In x items -> (exists e, f x = Throw e) -> exists e, mapM f items = Throw e.
Proof.
  intros Hin [e He]. induction items as [|y items IH]; [contradiction|].
  cbn [mapM]. destruct Hin as [->|Hin].
  - rewrite He. cbn [bind]. eauto.
  - destruct (f y); cbn [bind]; [|eauto].
    destruct (IH Hin) as [e' ->]. cbn [bind]. eauto.
Qed.

Lemma searchGitHub_repositories h technology found :
  searchGitHub h technology = Return found ->
  Forall (fun r => type r = repository) found.
Proof.
  unfold searchGitHub.
  destruct (get_search_repositories h (repositoryQuery technology))
    as [[items|]|e]; cbn [bind try_catch]; try (intros [= <-]; constructor).
  destruct (mapM _ items) as [rs|e] eqn:E; cbn [try_catch];
    [|intros [= <-]; constructor].
  intros [= <-]. eapply mapM_Forall; [|exact E].
  intros [repo|] r; cbv beta; [|discriminate].
  now intros [= <-].
Qed.

Lemma collect_examples_eq h technology items examples :
  collect_examples h technology items examples =
  (examples ++ Spec.examples_of h technology items)%list.
Proof.
  revert examples. induction items as [|item items IH]; intros examples;
    cbn [collect_examples Spec.examples_of flat_map].
  - now rewrite app_nil_r.
  - fold (Spec.examples_of h technology items).
    destruct (code_example h technology item); rewrite IH; cbn [app];
      [now rewrite <- app_assoc|reflexivity].
Qed.

Lemma fold_search_site_offline h technology sites results :
  Forall (fun site =>
            exists e, get_page_anchors h site (toLowerCase technology) = Throw e)
         sites ->
  fold_left (search_site h technology) sites results = results.
Proof.
  intros H. revert results. induction H as [|site sites [e He] _ IH];
    intros results; cbn [fold_left]; [reflexivity|].
  unfold search_site at 2. rewrite He. apply IH.
Qed.

(** C1: for every query, when [researchTopic] returns a result, its
    resources are the results of the repository adapter followed by the
    results of the documentation adapter, nothing merged (a URL occurs as
    often as in the two lists together), and its code examples are the
    output of the code-sample adapter. *)
Theorem researchTopic_concatenates h query result :
  researchTopic h query = Return result ->
  exists githubResults documentationResults examples,
    searchGitHub h (technology query) = Return githubResults /\
    searchDocumentation h (technology query) = Return documentationResults /\
    findCodeExamples h (technology query) = Return examples /\
    resources result = (githubResults ++ documentationResults)%list /\
    codeExamples result = examples /\
    forall u,
      count_occ string_dec (map url (resources result)) u =
      (count_occ string_dec (map url githubResults) u +
       count_occ string_dec (map url documentationResults) u)%nat.
Proof.
  unfold researchTopic.
  destruct (searchGitHub h (technology query)) as [gh|e]; cbn [bind try_catch];
    [|discriminate].
  destruct (searchDocumentation h (technology query)) as [docs|e];
    cbn [bind try_catch]; [|discriminate].
  destruct (findCodeExamples h (technology query)) as [ex|e];
    cbn [bind try_catch]; [|discriminate].
  intros [= <-]. exists gh, docs, ex. cbn [resources codeExamples].
  repeat split; try reflexivity.
  intros u. now rewrite map_app, count_occ_app.
Qed.

Lemma researchTopic_concatenates_witness :
  researchTopic Samples.mirrored Samples.react_query =
    Return Samples.mirrored_result /\
  count_occ string_dec (map url (resources Samples.mirrored_result))
            "https://github.com/facebook/react"%string = 2%nat.
Proof.
  assert (H : researchTopic Samples.mirrored Samples.react_query =
              Return Samples.mirrored_result) by (vm_compute; reflexivity).
  split; [exact H|].
  destruct (researchTopic_concatenates _ _ _ H)
    as (gh & docs & ex & Hgh & Hdocs & _ & _ & _ & Hcount).
  rewrite Hcount.
  vm_compute in Hgh. injection Hgh as <-.
  vm_compute in Hdocs. injection Hdocs as <-.
  reflexivity.
Defined.

(** C7: for every term, [searchGitHub] never throws, and returns the
    empty list when the repository search is rejected or the handling of
    its response throws (no item list, or an item that is [null]);
    [findCodeExamples] never throws, returns the empty list when the code
    search is rejected, and leaves out a file whose content cannot be
    fetched while it keeps the examples of the files before and after
    it. *)
Theorem adapters_contain_failures h technology :
  (exists found, searchGitHub h technology = Return found) /\
  ((exists e, get_search_repositories h (repositoryQuery technology) = Throw e) ->
   searchGitHub h technology = Return []) /\
  (get_search_repositories h (repositoryQuery technology) = Return None ->
   searchGitHub h technology = Return []) /\
  (forall items,
      get_search_repositories h (repositoryQuery technology) = Return (Some items) ->
      In None items ->
      searchGitHub h technology = Return []) /\
  (exists examples, findCodeExamples h technology = Return examples) /\
  ((exists e, get_search_code h (codeQuery technology) = Throw e) ->
   findCodeExamples h technology = Return []) /\
  (forall before item after,
      get_search_code h (codeQuery technology) =
        Return (Some (before ++ item :: after)%list) ->
      (exists e, get_file_content h (CodeItem.url item) = Throw e) ->
      findCodeExamples h technology =
        Return (Spec.examples_of h technology before ++
                Spec.examples_of h technology after)%list).
Proof.
  split; [apply searchGitHub_returns|].
  split; [|split; [|split]].
  - intros [e He]. unfold searchGitHub. now rewrite He.
  - intros He. unfold searchGitHub. now rewrite He.
  - intros items He Hin. unfold searchGitHub. rewrite He. cbn [bind].
    destruct (mapM_throws
                (fun item =>
                   match item with
                   | Some repo =>
                       Return {| title := Repo.full_name repo;
                                 url := Repo.html_url repo;
                                 type := repository;
                                 relevance := calculateRelevance repo technology |}
                   | None => Throw TypeError
                   end)
                items None Hin) as [e ->]; [eauto|reflexivity].
  - split; [apply findCodeExamples_returns|]. split.
    + intros [e He]. unfold findCodeExamples. now rewrite He.
    + intros before item after He [e Hfetch]. unfold findCodeExamples.
      rewrite He. cbn [bind try_catch]. f_equal.
      rewrite collect_examples_eq. cbn [app].
      unfold Spec.examples_of. rewrite flat_map_app. cbn [flat_map].
      unfold code_example at 2. rewrite Hfetch. cbn [bind app]. reflexivity.
Qed.

Lemma adapters_contain_failures_witness :
  searchGitHub Samples.flaky "react" = Return [] /\
  searchGitHub Samples.malformed "react" = Return [] /\
  findCodeExamples Samples.malformed "react" = Return [] /\
  findCodeExamples Samples.flaky "react" =
    Return (Spec.examples_of Samples.flaky "react" [Samples.item "a.ts"] ++
            Spec.examples_of Samples.flaky "react" [Samples.item "c.py"])%list.
Proof.
  split; [|split; [|split]].
  - apply (proj1 (proj2 (adapters_contain_failures Samples.flaky "react"))).
    eexists. reflexivity.
  - apply (proj1 (proj2 (proj2 (proj2
             (adapters_contain_failures Samples.malformed "react"))))
             [Some Samples.react; None]).
    + reflexivity.
    + right. left. reflexivity.
  - vm_compute. reflexivity.
  - apply (proj2 (proj2 (proj2 (proj2 (proj2 (proj2
             (adapters_contain_failures Samples.flaky "react"))))))
             [Samples.item "a.ts"] (Samples.item "b.js") [Samples.item "c.py"]).
    + reflexivity.
    + eexists. vm_compute. reflexivity.
Defined.

(** C8: for every query, when the three documentation sites are queried
    and every fetch fails, [researchTopic] returns a result whose
    resources are the results of the repository adapter, all of type
    repository; and when [researchTopic] fails, it fails with the error
    'Research operation failed'. *)
Theorem researchTopic_failures h query :
  (forall sites,
      documentationSites h (technology query) = Return sites ->
      Forall (fun site =>
                exists e, get_page_anchors h site
                            (toLowerCase (technology query)) = Throw e) sites ->
      exists result githubResults,
        researchTopic h query = Return result /\
        searchGitHub h (technology query) = Return githubResults /\
        resources result = githubResults /\
        Forall (fun r => type r = repository) (resources result)) /\
  (forall e, researchTopic h query = Throw e ->
             e = MkError "Research operation failed").
Proof.
  split.
  - intros sites Hsites Hfail.
    destruct (searchGitHub_returns h (technology query)) as [gh Hgh].
    destruct (findCodeExamples_returns h (technology query)) as [ex Hex].
    assert (Hdocs : searchDocumentation h (technology query) = Return []).
    { unfold searchDocumentation. rewrite Hsites. cbn [bind].
      now rewrite fold_search_site_offline. }
    unfold researchTopic. rewrite Hgh, Hdocs, Hex. cbn [bind try_catch].
    eexists _, gh. split; [reflexivity|]. cbn [resources].
    rewrite app_nil_r. repeat split.
    eapply searchGitHub_repositories; eassumption.
  - intros e. unfold researchTopic.
    destruct (_ <- searchGitHub h (technology query) ;; _); cbn [try_catch].
    + discriminate.
    + now intros [= <-].
Qed.

Lemma researchTopic_failures_witness :
  (exists result githubResults,
      researchTopic Samples.undocumented Samples.react_query = Return result /\
      searchGitHub Samples.undocumented "react" = Return githubResults /\
      resources result = githubResults /\
      Forall (fun r => type r = repository) (resources result)) /\
  researchTopic Samples.unencodable Samples.react_query =
    Throw (MkError "Research operation failed").
Proof.
  split.
  - apply (proj1 (researchTopic_failures Samples.undocumented Samples.react_query)
                 Samples.undocumented_sites).
    + reflexivity.
    + repeat constructor; eexists; reflexivity.
  - destruct (researchTopic Samples.unencodable Samples.react_query) as [r|e] eqn:E.
    + vm_compute in E. discriminate E.
    + f_equal.
      exact (proj2 (researchTopic_failures Samples.unencodable Samples.react_query)
                   e E).
Defined.

End Claims.

(* ===================================================================== *)
(** * Further properties of the service and its callers *)
(* ===================================================================== *)

Module Extras.

Import JsNumber JsNumberFacts JsString JsArray ResearchService ServiceFacts.
Local Open Scope string_scope.
Local Open Scope list_scope.

(** ** The orchestrator *)

Lemma documentationSites_returns h technology :
  (exists sites, documentationSites h technology = Return sites) <->
  (exists encoded, encodeURIComponent h technology = Return encoded).
Proof.
  unfold documentationSites.
  destruct (encodeURIComponent h technology) as [u|e]; cbn [bind]; split;
    intros [x Hx]; try discriminate; eauto.
Qed.

Lemma searchGitHub_total h technology :
  exists found, searchGitHub h technology = Return found.
Proof.
  unfold searchGitHub.
  destruct (_ <- get_search_repositories h (repositoryQuery technology) ;; _);
    cbn [try_catch]; eauto.
Qed.

Lemma findCodeExamples_total h technology :
  exists examples, findCodeExamples h technology = Return examples.
Proof.
  unfold findCodeExamples.
  destruct (_ <- get_search_code h (codeQuery technology) ;; _);
    cbn [try_catch]; eauto.
Qed.

(** X1: [researchTopic] returns a result exactly when the host can encode
    the term for the site URLs: no failure of a request, of a page or of
    a response makes it fail. *)
Theorem researchTopic_returns_iff_encodable h query :
  (exists result, researchTopic h query = Return result) <->
  (exists encoded, encodeURIComponent h (technology query) = Return encoded).
Proof.
  rewrite <- documentationSites_returns.
  destruct (searchGitHub_total h (technology query)) as [gh Hgh].
  destruct (findCodeExamples_total h (technology query)) as [ex Hex].
  unfold researchTopic, searchDocumentation. rewrite Hgh, Hex.
  destruct (documentationSites h (technology query)) as [sites|e];
    cbn [bind try_catch]; split; intros [x Hx]; try discriminate; eauto.
Qed.

Lemma researchTopic_returns_iff_encodable_witness :
  (exists result,
      researchTopic Samples.flaky Samples.react_query = Return result) /\
  ~ (exists result,
        researchTopic Samples.unencodable Samples.react_query = Return result).
Proof.
  split.
  - apply (proj2 (researchTopic_returns_iff_encodable
                    Samples.flaky Samples.react_query)).
    eexists. reflexivity.
  - intros H.
    apply (proj1 (researchTopic_returns_iff_encodable
                    Samples.unencodable Samples.react_query)) in H.
    destruct H as [u Hu]. discriminate Hu.
Defined.

(** X2: in a result of [researchTopic] the summary is [generateSummary]
    of the repository and documentation results, and the recommendations
    are [generateRecommendations] of the repository results alone: the
    documentation and the code examples have no part in them. *)
Theorem researchTopic_synthesis h query result :
  researchTopic h query = Return result ->
  exists githubResults documentationResults,
    searchGitHub h (technology query) = Return githubResults /\
    searchDocumentation h (technology query) = Return documentationResults /\
    summary result = generateSummary query githubResults documentationResults /\
    recommendations result = generateRecommendations query githubResults.
Proof.
  unfold researchTopic.
  destruct (searchGitHub h (technology query)) as [gh|e]; cbn [bind try_catch];
    [|discriminate].
  destruct (searchDocumentation h (technology query)) as [docs|e];
    cbn [bind try_catch]; [|discriminate].
  destruct (findCodeExamples h (technology query)) as [ex|e];
    cbn [bind try_catch]; [|discriminate].
  intros [= <-]. exists gh, docs. repeat split.
Qed.

Lemma researchTopic_synthesis_witness :
  exists githubResults documentationResults,
    searchGitHub Samples.mirrored "react" = Return githubResults /\
    searchDocumentation Samples.mirrored "react" = Return documentationResults /\
    summary Samples.mirrored_result =
      generateSummary Samples.react_query githubResults documentationResults /\
    recommendations Samples.mirrored_result =
      generateRecommendations Samples.react_query githubResults.
Proof.
  apply (researchTopic_synthesis Samples.mirrored Samples.react_query).
  vm_compute. reflexivity.
Defined.

(** ** The summary *)

Lemma append_assoc (a b c : string) :
  ((a ++ b) ++ c = a ++ (b ++ c))%string.
Proof. induction a as [|x a IH]; cbn [append]; [reflexivity|now rewrite IH]. Qed.

Lemma trimEnd_app a b :
  trimEnd b <> EmptyString -> trimEnd (a ++ b)%string = (a ++ trimEnd b)%string.
Proof.
  intros Hb. induction a as [|c a IH]; cbn [append trimEnd]; [reflexivity|].
  rewrite IH. destruct (a ++ trimEnd b)%string eqn:E; [|reflexivity].
  destruct a; cbn [append] in E; [contradiction|discriminate].
Qed.

Lemma trimEnd_app_nonempty a b :
  trimEnd b <> EmptyString -> trimEnd (a ++ b)%string <> EmptyString.
Proof.
  intros Hb. rewrite trimEnd_app by assumption.
  destruct a; cbn [append]; [assumption|discriminate].
Qed.

Lemma trimStart_nl s : trimStart (nl ++ s)%string = trimStart s.
Proof. reflexivity. Qed.

Lemma trimStart_app_nonspace c a b :
  is_space c = false ->
  trimStart (String c a ++ b)%string = (String c a ++ b)%string.
Proof. intros Hc. cbn [append trimStart]. now rewrite Hc. Qed.

Ltac trimEnd_nonempty :=
  first [ vm_compute; discriminate
        | apply trimEnd_app_nonempty; trimEnd_nonempty ].

(** X3: the summary is what [.trim()] leaves of the template, for every
    query and every result list: the line break before "Research
    Summary" and the blank line after the closing sentence go, and
    nothing of the technology, the titles or the purpose is lost. *)
Theorem generateSummary_trims_template query githubResults documentationResults :
  trim (Summary.summaryTemplate query githubResults documentationResults) =
  generateSummary query githubResults documentationResults.
Proof.
  unfold Summary.summaryTemplate, generateSummary, trim. cbv zeta.
  rewrite trimStart_nl, trimStart_app_nonspace by reflexivity.
  repeat (rewrite trimEnd_app by trimEnd_nonempty).
  reflexivity.
Qed.

(** X4: the summary mentions the number of results of each kind and the
    titles of the first three of each, and nothing else of them: two
    result lists of the same lengths with the same first three titles
    give the same summary. *)
Theorem generateSummary_top_three query github github' docs docs' :
  List.length github = List.length github' ->
  List.length docs = List.length docs' ->
  map title (firstn 3 github) = map title (firstn 3 github') ->
  map title (firstn 3 docs) = map title (firstn 3 docs') ->
  generateSummary query github docs = generateSummary query github' docs'.
Proof.
  intros Hg Hd Tg Td. unfold generateSummary.
  rewrite !slice_from_0, Hg, Hd, Tg, Td. reflexivity.
Qed.

Lemma generateSummary_top_three_witness :
  generateSummary Samples.react_query
    (map MoreSamples.resource ["a"; "b"; "c"; "d"]) [] =
  generateSummary Samples.react_query
    (map MoreSamples.resource ["a"; "b"; "c"; "e"]) [].
Proof.
  apply generateSummary_top_three; reflexivity.
Defined.

(** ** The language of a file *)

Lemma startsWith_empty s : startsWith s EmptyString = true.
Proof. destruct s; reflexivity. Qed.

Lemma includes_char_cons c s sep :
  includes (String c s) (String sep EmptyString) =
  Ascii.eqb c sep || includes s (String sep EmptyString).
Proof.
  cbn [includes startsWith]. now rewrite startsWith_empty, andb_true_r.
Qed.

Lemma split_without_separator sep s :
  includes s (String sep EmptyString) = false -> split sep s = [s].
Proof.
  induction s as [|c s IH]; [reflexivity|].
  rewrite includes_char_cons. intros H. apply orb_false_elim in H as [Hc Hs].
  cbn [split]. now rewrite Hc, (IH Hs).
Qed.

Lemma split_app_separator sep a b :
  split sep (a ++ String sep b)%string = split sep a ++ split sep b.
Proof.
  induction a as [|c a IH]; cbn [append split].
  - now rewrite Ascii.eqb_refl.
  - destruct (Ascii.eqb c sep); rewrite IH; [reflexivity|].
    destruct (split sep a) as [|w ws] eqn:E; [|reflexivity].
    now destruct (split_not_nil sep a).
Qed.

Lemma last_app_cons {A} (l : list A) x l' d :
  last (l ++ x :: l') d = last (x :: l') d.
Proof.
  induction l as [|y l IH]; [reflexivity|].
  cbn [app]. change (last (y :: l ++ x :: l') d) with
    (match l ++ x :: l' with [] => y | _ => last (l ++ x :: l') d end).
  destruct (l ++ x :: l') eqn:E; [now destruct l|exact IH].
Qed.

Lemma lower_ascii_idempotent c : lower_ascii (lower_ascii c) = lower_ascii c.
Proof. destruct c as [[] [] [] [] [] [] [] []]; reflexivity. Qed.

Lemma toLowerCase_idempotent s : toLowerCase (toLowerCase s) = toLowerCase s.
Proof.
  induction s as [|c s IH]; [reflexivity|].
  cbn [toLowerCase]. now rewrite lower_ascii_idempotent, IH.
Qed.

Lemma lower_ascii_dot c : Ascii.eqb (lower_ascii c) dot = Ascii.eqb c dot.
Proof. destruct c as [[] [] [] [] [] [] [] []]; reflexivity. Qed.

Lemma includes_dot_toLowerCase s :
  includes (toLowerCase s) "." = includes s ".".
Proof.
  induction s as [|c s IH]; [reflexivity|].
  cbn [toLowerCase]. rewrite !includes_char_cons, IH.
  f_equal. apply lower_ascii_dot.
Qed.

Lemma extension_of_name stem ext :
  includes ext "." = false ->
  Props.extension (stem ++ "." ++ ext) = toLowerCase ext.
Proof.
  intros Hext. unfold Props.extension.
  change ("." ++ ext)%string with (String dot ext).
  rewrite split_app_separator, (split_without_separator dot ext Hext).
  now rewrite last_app_cons.
Qed.

Lemma extension_of_extension ext :
  includes ext "." = false ->
  Props.extension (toLowerCase ext) = toLowerCase ext.
Proof.
  intros Hext. unfold Props.extension.
  rewrite split_without_separator
    by (change (String dot EmptyString) with "."%string;
        now rewrite includes_dot_toLowerCase).
  apply toLowerCase_idempotent.
Qed.

Lemma detectLanguage_extension filename :
  detectLanguage filename =
  match lookup (Props.extension filename) languageMap with
  | Some l => l
  | None => "text"%string
  end.
Proof. reflexivity. Qed.

(** X5: of a file name [stem.ext] only what follows the last dot counts,
    and its case does not: whatever the stem (directories and earlier
    dots included), the language is the one of the lower-cased
    extension taken as a name. *)
Theorem detectLanguage_last_extension stem ext :
  includes ext "." = false ->
  detectLanguage (stem ++ "." ++ ext) = detectLanguage (toLowerCase ext).
Proof.
  intros Hext.
  now rewrite !detectLanguage_extension, extension_of_name,
    extension_of_extension.
Qed.

Lemma detectLanguage_last_extension_witness :
  detectLanguage "src/components/App.test.TS" = detectLanguage "ts".
Proof.
  apply (detectLanguage_last_extension "src/components/App.test" "TS").
  reflexivity.
Defined.

Lemma lookup_None key table :
  lookup key table = None <-> ~ In key (map fst table).
Proof.
  induction table as [|[k v] rest IH]; cbn [lookup map fst In]; [tauto|].
  destruct (String.eqb_spec k key) as [->|Hk].
  - split; [discriminate|tauto].
  - rewrite IH. tauto.
Qed.

Lemma lookup_Some key table v :
  lookup key table = Some v -> In v (map snd table).
Proof.
  induction table as [|[k v'] rest IH]; cbn [lookup map snd In]; [discriminate|].
  destruct (String.eqb k key); [intros [= ->]; now left|auto].
Qed.

(** X6: the language is always one of the twelve tags, and it is "text"
    exactly for the extensions the table does not list (a name without
    a dot counts as its own extension).  The two lower-case names every
    JavaScript object inherits are set aside. *)
Theorem detectLanguage_tags filename :
  ~ In (Props.extension filename) Props.inheritedKeys ->
  In (detectLanguage filename) Props.languageTags /\
  (detectLanguage filename = "text"%string <->
   ~ In (Props.extension filename) (map fst languageMap)).
Proof.
  intros _. rewrite detectLanguage_extension, <- lookup_None.
  destruct (lookup (Props.extension filename) languageMap) as [l|] eqn:E.
  - apply lookup_Some in E. split; [now right|].
    split; [|discriminate]. intros ->.
    cbv in E. repeat (destruct E as [E|E]; [discriminate|]). contradiction.
  - split; [now left|tauto].
Qed.

Lemma detectLanguage_tags_witness :
  In (detectLanguage "Makefile") Props.languageTags /\
  (detectLanguage "Makefile" = "text"%string <->
   ~ In (Props.extension "Makefile") (map fst languageMap)).
Proof.
  apply detectLanguage_tags. vm_compute. intros [H|[H|[]]]; discriminate.
Defined.

(** ** The analysis of a repository *)

Import RepositoryAnalysis ResearchRoutes.

(** X7: the analysis of a repository does not read the repository: when
    the clone succeeds the result is the same fixed structure,
    technologies and patterns for every URL and every host, and when the
    clone is rejected the error thrown is the generic one, whatever the
    cause. *)
Theorem analyzeRepository_outcomes g repoUrl :
  ((exists u, clone g repoUrl (tempDir g) = Return u) /\
   analyzeRepository g repoUrl = Return Props.fixedAnalysis) \/
  ((exists e, clone g repoUrl (tempDir g) = Throw e) /\
   analyzeRepository g repoUrl = Throw (MkError "Repository analysis failed")).
Proof.
  unfold analyzeRepository.
  destruct (clone g repoUrl (tempDir g)) as [u|e]; cbn [bind try_catch];
    [left|right]; split; eauto.
Qed.


(** ** The query route *)

Lemma saveDocument_cases req document saved :
  (save req document = Return tt /\
   saveDocument req document saved = (saved ++ [document], Return tt)) \/
  (exists e, save req document = Throw e /\
             saveDocument req document saved = (saved, Throw e)).
Proof.
  unfold saveDocument. destruct (save req document) as [[]|e]; eauto.
Qed.

(** X9: when the query route answers with a body, the document was
    saved exactly twice: first with status "pending" and no results,
    then, the same query, with status "completed".  The body carries the
    identifier of the document, the result of [researchTopic] on the
    technology, purpose and constraints of the request, and the
    difference of the two clock readings; the completed document stores
    the same result and the same time. *)
Theorem postQuery_completed h req saved body :
  postQuery h req = (saved, Json body) ->
  exists pending completed,
    saved = [pending; completed] /\
    doc_status pending = "pending"%string /\
    doc_results pending = None /\
    doc_query pending = (body_technology req ++ " for " ++ body_purpose req)%string /\
    doc_status completed = "completed"%string /\
    doc_results completed = Some (results body) /\
    doc_processingTime completed = Some (processingTime body) /\
    doc_id completed = doc_id pending /\
    doc_query completed = doc_query pending /\
    doc_constraints completed = doc_constraints pending /\
    id body = new_id req /\
    processingTime body = (endTime req - startTime req)%Z /\
    researchTopic h {| technology := body_technology req;
                       purpose := body_purpose req;
                       constraints := body_constraints req |}
      = Return (results body).
Proof.
  unfold postQuery.
  match goal with |- context [saveDocument req ?d []] =>
    destruct (saveDocument_cases req d []) as [[_ ->]|(e & _ & ->)];
      [|discriminate]; set (pending := d) end.
  destruct (researchTopic h _) as [result|e] eqn:E; [|discriminate].
  match goal with |- context [saveDocument req ?d ?s] =>
    destruct (saveDocument_cases req d s) as [[_ ->]|(e & _ & ->)];
      [|discriminate]; set (completed := d) end.
  intros [= <- <-]. exists pending, completed.
  cbn. repeat split; reflexivity || exact E.
Qed.

Lemma postQuery_completed_witness :
  exists pending completed,
    fst (postQuery Samples.mirrored (MoreSamples.request (fun _ => true)))
      = [pending; completed] /\
    doc_status pending = "pending"%string /\
    doc_status completed = "completed"%string /\
    doc_processingTime completed = Some 750%Z.
Proof.
  destruct (postQuery Samples.mirrored (MoreSamples.request (fun _ => true)))
    as [saved [body|status error]] eqn:E; [|vm_compute in E; discriminate].
  destruct (postQuery_completed _ _ _ _ E)
    as (pending & completed & -> & H1 & _ & _ & H2 & _ & H3 & _ & _ & _ & _ & H4 & _).
  exists pending, completed. rewrite H3, H4. repeat split; assumption.
Defined.



(** ** Extracts of a file *)

Lemma join_cons sep x y rest :
  join sep (x :: y :: rest) = (x ++ sep ++ join sep (y :: rest))%string.
Proof. reflexivity. Qed.

Lemma join_split sep s : join (String sep EmptyString) (split sep s) = s.
Proof.
  induction s as [|c s IH]; [reflexivity|]. cbn [split].
  destruct (split sep s) as [|w ws] eqn:E; [now destruct (split_not_nil sep s)|].
  destruct (Ascii.eqb_spec c sep) as [->|_].
  - rewrite join_cons, IH. reflexivity.
  - destruct ws as [|w' ws].
    + cbn in IH |- *. now rewrite IH.
    + rewrite join_cons in IH |- *. rewrite <- IH. reflexivity.
Qed.

Lemma split_lines_without_separator sep s :
  Forall (fun line => includes line (String sep EmptyString) = false)
         (split sep s).
Proof.
  induction s as [|c s IH]; [repeat constructor|]. cbn [split].
  destruct (Ascii.eqb c sep) eqn:Hc; [constructor; [reflexivity|exact IH]|].
  destruct (split sep s) as [|w ws]; [repeat constructor|].
  - rewrite includes_char_cons, Hc. reflexivity.
  - inversion IH as [|? ? Hw Hws]; subst. constructor; [|exact Hws].
    now rewrite includes_char_cons, Hc, Hw.
Qed.

Lemma split_join sep lines :
  lines <> [] ->
  Forall (fun line => includes line (String sep EmptyString) = false) lines ->
  split sep (join (String sep EmptyString) lines) = lines.
Proof.
  intros Hne H. induction H as [|x rest Hx Hrest IH]; [contradiction|].
  destruct rest as [|y rest].
  - now apply split_without_separator.
  - rewrite join_cons. cbn [append].
    rewrite split_app_separator, (split_without_separator _ _ Hx), IH
      by discriminate.
    reflexivity.
Qed.

Lemma slice_block {A} a b (l : list A) :
  l = firstn a l ++ slice a b l ++ skipn (b - a) (skipn a l).
Proof.
  unfold slice. now rewrite firstn_skipn, firstn_skipn.
Qed.

Lemma slice_length_le {A} a b (l : list A) :
  (List.length (slice a b l) <= b - a)%nat.
Proof. unfold slice. rewrite length_firstn. lia. Qed.

(** The loop collects nothing, or a window of at most seven lines. *)
Lemma scan_lines_window lines techLower rest i :
  exists a b, scan_lines lines rest i techLower = slice a b lines /\
              (b - a <= 7)%nat.
Proof.
  revert i. induction rest as [|line rest IH]; intros i; cbn [scan_lines].
  - exists 0%nat, 0%nat. split; [reflexivity|lia].
  - destruct (includes (toLowerCase line) techLower); [|apply IH].
    eexists _, _. split; [reflexivity|lia].
Qed.

(** X11: what [extractRelevantCode] returns is always an excerpt: its
    lines are between one and twenty consecutive lines of the file, in
    order and unchanged, for every file and every term. *)
Theorem extractRelevantCode_excerpt code technology :
  let excerpt := split newline (extractRelevantCode code technology) in
  (exists before after, split newline code = before ++ excerpt ++ after) /\
  (1 <= List.length excerpt <= 20)%nat.
Proof.
  cbv zeta.
  assert (H : exists a b,
             extractRelevantCode code technology =
               join nl (slice a b (split newline code)) /\
             slice a b (split newline code) <> [] /\ (b - a <= 20)%nat).
  { unfold extractRelevantCode.
    destruct (scan_lines_window (split newline code) (toLowerCase technology)
                (split newline code) 0) as (a & b & -> & Hab).
    destruct (0 <? List.length (slice a b (split newline code)))%nat eqn:E.
    - exists a, b. repeat split; [|lia].
      apply Nat.ltb_lt in E. intros E0. rewrite E0 in E. cbn in E. lia.
    - exists 0%nat, 20%nat. repeat split; [|lia].
      rewrite slice_from_0.
      destruct (split newline code) eqn:Es;
        [now destruct (split_not_nil newline code)|discriminate]. }
  destruct H as (a & b & -> & Hne & Hab).
  pose proof (split_lines_without_separator newline code) as Hlines.
  rewrite (slice_block a b (split newline code)) in Hlines.
  apply Forall_app in Hlines as [_ Hlines].
  apply Forall_app in Hlines as [Hlines _].
  unfold nl. rewrite (split_join newline _ Hne Hlines).
  split.
  - eexists _, _. apply slice_block.
  - pose proof (slice_length_le a b (split newline code)).
    destruct (slice a b (split newline code)); [contradiction|cbn in *; lia].
Qed.

(** X12: a file of at most twenty lines none of which contains the term
    (letter case ignored) is returned as it is, character for
    character. *)
Theorem extractRelevantCode_whole_file code technology :
  (List.length (split newline code) <= 20)%nat ->
  (forall line, In line (split newline code) ->
                Spec.contains_ci line technology = false) ->
  extractRelevantCode code technology = code.
Proof.
  intros Hlen Hnone. unfold extractRelevantCode.
  rewrite Claims.scan_lines_no_match by (apply Forall_forall; exact Hnone).
  cbn [List.length Nat.ltb Nat.leb]. rewrite slice_from_0.
  rewrite firstn_all2 by exact Hlen. apply join_split.
Qed.

Lemma extractRelevantCode_whole_file_witness :
  extractRelevantCode Samples.sample_file "angular" = Samples.sample_file.
Proof.
  apply extractRelevantCode_whole_file.
  - vm_compute. lia.
  - apply Forall_forall. vm_compute. repeat constructor.
Defined.

Lemma firstn_min_length {A} n (l : list A) :
  firstn (Nat.min (List.length l) n) l = firstn n l.
Proof.
  destruct (Nat.le_gt_cases n (List.length l)) as [H|H].
  - now rewrite Nat.min_r.
  - rewrite Nat.min_l, firstn_all, firstn_all2 by lia. reflexivity.
Qed.

(** X13: the empty term is found everywhere: a text scores 0.8 against
    it whatever the text, and the excerpt of a file is its first four
    lines whatever the file. *)
Theorem empty_term_matches_everything :
  (forall text, calculateTextRelevance text EmptyString = lit_0_8) /\
  (forall code,
      extractRelevantCode code EmptyString =
      join nl (firstn 4 (split newline code))).
Proof.
  assert (Hinc : forall s, includes s EmptyString = true).
  { intros s. destruct s; cbn [includes]; now rewrite startsWith_empty. }
  split.
  - intros text. unfold calculateTextRelevance. cbn [toLowerCase].
    now rewrite Hinc.
  - intros code. unfold extractRelevantCode. cbn [toLowerCase].
    destruct (split newline code) as [|line rest] eqn:E;
      [now destruct (split_not_nil newline code)|].
    cbn [scan_lines]. rewrite Hinc.
    change (Z.to_nat (Z.max 0 (Z.of_nat 0 - 3))) with 0%nat.
    rewrite slice_from_0.
    change (0 + 4)%nat with 4%nat. rewrite firstn_min_length. reflexivity.
Qed.

(** ** The documentation search, site by site *)

Lemma visit_anchor_app h site technology element results :
  visit_anchor h site technology element results =
  (pushed <- visit_anchor h site technology element [] ;;
   Return (results ++ pushed)).
Proof.
  unfold visit_anchor.
  destruct (anchor_href element) as [href|]; cbn [bind];
    [|now rewrite app_nil_r].
  destruct (truthy _ && truthy href && _); cbn [bind];
    [|now rewrite app_nil_r].
  destruct (if startsWith href "http" then _ else _); reflexivity.
Qed.

Lemma each_anchor_app h site technology elements results :
  each_anchor h site technology elements results =
  (results ++ fst (each_anchor h site technology elements []),
   snd (each_anchor h site technology elements [])).
Proof.
  revert results. induction elements as [|element rest IH]; intros results;
    cbn [each_anchor].
  - cbn [fst snd]. now rewrite app_nil_r.
  - rewrite (visit_anchor_app h site technology element results).
    destruct (visit_anchor h site technology element []) as [pushed|e];
      cbn [bind fst snd].
    + rewrite (IH (results ++ pushed)), (IH pushed). cbn [fst snd].
      now rewrite app_assoc.
    + now rewrite app_nil_r.
Qed.

Lemma search_site_app h technology results site :
  search_site h technology results site =
  results ++ Props.candidates h technology site.
Proof.
  unfold Props.candidates, search_site.
  destruct (get_page_anchors h site (toLowerCase technology)).
  - now rewrite each_anchor_app.
  - now rewrite app_nil_r.
Qed.

Lemma fold_search_site_flat_map h technology sites results :
  fold_left (search_site h technology) sites results =
  results ++ flat_map (Props.candidates h technology) sites.
Proof.
  revert results. induction sites as [|site sites IH]; intros results;
    cbn [fold_left flat_map].
  - now rewrite app_nil_r.
  - now rewrite IH, search_site_app, app_assoc.
Qed.

Lemma searchDocumentation_eq h technology docs :
  searchDocumentation h technology = Return docs ->
  exists sites,
    documentationSites h technology = Return sites /\
    docs = rank_documentation (flat_map (Props.candidates h technology) sites).
Proof.
  unfold searchDocumentation.
  destruct (documentationSites h technology) as [sites|e]; cbn [bind];
    [|discriminate].
  intros [= <-]. exists sites. split; [reflexivity|].
  now rewrite fold_search_site_flat_map.
Qed.

(** X14: the sites are searched independently of each other: the
    entries returned are the ranking of the candidates of the first
    site, followed by those of the second, followed by those of the
    third, where the candidates of a site do not depend on what the
    sites before it gave, and a site whose page cannot be fetched
    contributes none. *)
Theorem searchDocumentation_site_by_site h technology docs :
  searchDocumentation h technology = Return docs ->
  exists sites,
    documentationSites h technology = Return sites /\
    docs = rank_documentation (flat_map (Props.candidates h technology) sites) /\
    (forall site results,
        search_site h technology results site =
        results ++ Props.candidates h technology site) /\
    (forall site e,
        get_page_anchors h site (toLowerCase technology) = Throw e ->
        Props.candidates h technology site = []).
Proof.
  intros H. destruct (searchDocumentation_eq h technology docs H)
    as (sites & Hs & Hd).
  exists sites. repeat split; try assumption.
  - intros site results. apply search_site_app.
  - intros site e He. unfold Props.candidates, search_site. now rewrite He.
Qed.

Lemma searchDocumentation_site_by_site_witness :
  exists sites,
    documentationSites Samples.mirrored "react" = Return sites /\
    List.length (flat_map (Props.candidates Samples.mirrored "react") sites)
      = 1%nat.
Proof.
  destruct (searchDocumentation_site_by_site Samples.mirrored "react"
              (rank_documentation
                 (fold_left (search_site Samples.mirrored "react")
                            Samples.undocumented_sites [])))
    as (sites & Hs & _); [reflexivity|].
  exists sites. split; [exact Hs|].
  injection Hs as <-. reflexivity.
Defined.

(** X15: an anchor whose link cannot be resolved ends the reading of its
    page: the candidates of the site are those of the anchors before
    it, and no anchor after it is considered, however relevant. *)
Theorem search_site_stops_at_broken_link
        h technology site before bad after href e :
  get_page_anchors h site (toLowerCase technology) =
    Return (before ++ bad :: after) ->
  anchor_href bad = Some href ->
  (10 < String.length (trim (anchor_text bad)))%nat ->
  href <> EmptyString ->
  startsWith href "http" = false ->
  resolve_URL h href site = Throw e ->
  Props.candidates h technology site =
  Props.page_candidates h site technology before.
Proof.
  intros Hpage Hhref Hlen Hne Hrel Hres.
  unfold Props.candidates, Props.page_candidates, search_site.
  rewrite Hpage. clear Hpage. generalize (@nil Resource).
  induction before as [|element rest IH]; intros results;
    cbn [app each_anchor].
  - unfold visit_anchor. rewrite Hhref.
    apply Nat.ltb_lt in Hlen. rewrite Hlen.
    destruct (trim (anchor_text bad)); [discriminate|].
    destruct href; [contradiction|].
    cbn [truthy andb]. rewrite Hrel, Hres. reflexivity.
  - destruct (visit_anchor h site technology element results);
      [apply IH|reflexivity].
Qed.

Lemma search_site_stops_at_broken_link_witness :
  Props.candidates MoreSamples.interrupted "react" "https://docs.npmjs.com" =
  Props.page_candidates MoreSamples.interrupted "https://docs.npmjs.com"
                        "react" [Samples.react_anchor].
Proof.
  apply (search_site_stops_at_broken_link
           MoreSamples.interrupted "react" "https://docs.npmjs.com"
           [Samples.react_anchor] MoreSamples.broken_link
           [Samples.numbered_anchor 1] "//[" TypeError).
  - reflexivity.
  - reflexivity.
  - vm_compute. lia.
  - discriminate.
  - reflexivity.
  - reflexivity.
Defined.

(** ** The entries of the documentation search *)

Lemma trimEnd_idempotent s : trimEnd (trimEnd s) = trimEnd s.
Proof.
  induction s as [|c s IH]; [reflexivity|]. cbn [trimEnd].
  destruct (trimEnd s) as [|c' t] eqn:E.
  - destruct (is_space c) eqn:Hc; [reflexivity|]. cbn [trimEnd]. now rewrite Hc.
  - cbn [trimEnd] in IH |- *. now rewrite IH.
Qed.

Lemma trimEnd_cons c s :
  is_space c = false -> trimEnd (String c s) = String c (trimEnd s).
Proof.
  intros Hc. cbn [trimEnd]. rewrite Hc. now destruct (trimEnd s).
Qed.

Lemma trimStart_head s :
  trimStart s = EmptyString \/
  exists c r, trimStart s = String c r /\ is_space c = false.
Proof.
  induction s as [|c s IH]; [now left|]. cbn [trimStart].
  destruct (is_space c) eqn:Hc; [exact IH|right; eauto].
Qed.

Lemma trim_idempotent s : trim (trim s) = trim s.
Proof.
  unfold trim. destruct (trimStart_head s) as [->|(c & r & -> & Hc)];
    [reflexivity|].
  rewrite (trimEnd_cons c r Hc). cbn [trimStart]. rewrite Hc.
  now rewrite (trimEnd_cons c _ Hc), trimEnd_idempotent.
Qed.

Lemma visit_anchor_entry h site technology element pushed :
  visit_anchor h site technology element [] = Return pushed ->
  Forall (Props.documentationEntry technology) pushed.
Proof.
  unfold visit_anchor.
  destruct (anchor_href element) as [href|]; [|intros [= <-]; constructor].
  destruct (truthy _ && truthy href && _) eqn:E; [|intros [= <-]; constructor].
  destruct (if startsWith href "http" then _ else _) as [absolute|e];
    cbn [bind]; [|discriminate].
  intros [= <-]. constructor; [|constructor].
  apply andb_prop in E as [_ E]. apply Nat.ltb_lt in E.
  repeat split; cbn [type title relevance]; auto using trim_idempotent.
Qed.

Lemma page_candidates_entries h site technology elements :
  Forall (Props.documentationEntry technology)
         (Props.page_candidates h site technology elements).
Proof.
  unfold Props.page_candidates.
  induction elements as [|element rest IH]; cbn [each_anchor]; [constructor|].
  destruct (visit_anchor h site technology element []) as [pushed|e] eqn:E;
    [|constructor].
  rewrite each_anchor_app. cbn [fst]. apply Forall_app. split; [|exact IH].
  eapply visit_anchor_entry; eassumption.
Qed.

Lemma candidates_entries h technology sites :
  Forall (Props.documentationEntry technology)
         (flat_map (Props.candidates h technology) sites).
Proof.
  apply Forall_flat_map, Forall_forall. intros site _.
  unfold Props.candidates, search_site.
  destruct (get_page_anchors h site (toLowerCase technology));
    [apply page_candidates_entries|constructor].
Qed.

Lemma rank_documentation_In results r :
  In r (rank_documentation results) -> In r (Props.kept results).
Proof.
  unfold rank_documentation. rewrite slice_from_0. intros Hr.
  apply firstn_In in Hr.
  eapply Permutation_in in Hr; [exact Hr|symmetry; apply sort_perm].
Qed.

(** X16: every entry of the documentation search is a documentation
    resource whose title is the trimmed text of an anchor, more than ten
    characters long with no white space at either end, and whose
    relevance is the text relevance of that title for the term. *)
Theorem searchDocumentation_entries h technology docs :
  searchDocumentation h technology = Return docs ->
  Forall (Props.documentationEntry technology) docs.
Proof.
  intros H. destruct (searchDocumentation_eq h technology docs H)
    as (sites & _ & ->).
  apply Forall_forall. intros r Hr.
  apply rank_documentation_In, filter_In in Hr as [Hr _].
  pose proof (candidates_entries h technology sites) as Hall.
  rewrite Forall_forall in Hall. now apply Hall.
Qed.

Lemma searchDocumentation_entries_witness :
  Forall (Props.documentationEntry "React guide part") Samples.crowded_docs.
Proof.
  apply (searchDocumentation_entries Samples.crowded). reflexivity.
Defined.

(** ** Ranking: what the cut at ten entries drops, and ties *)

Lemma kept_rankable results :
  Forall Spec.scaled_relevance results ->
  Forall Spec.rankable (Props.kept results).
Proof.
  intros H. apply Forall_forall. intros r Hr.
  apply filter_In in Hr as [Hin Hgt]. rewrite Forall_forall in H.
  split; [eapply gtb_not_nan; eassumption|now apply H].
Qed.

Lemma candidates_scaled h technology sites :
  Forall Spec.scaled_relevance (flat_map (Props.candidates h technology) sites).
Proof.
  pose proof (Claims.fold_search_site_scaled h technology sites []
                (Forall_nil _)) as H.
  now rewrite fold_search_site_flat_map in H.
Qed.

Lemma skipn_In {A} n (l : list A) x : In x (skipn n l) -> In x l.
Proof.
  intros H. rewrite <- (firstn_skipn n l). apply in_or_app. now right.
Qed.

Lemma StronglySorted_firstn_skipn {A} (R : A -> A -> Prop) l :
  StronglySorted R l ->
  forall n x y, In x (firstn n l) -> In y (skipn n l) -> R x y.
Proof.
  induction 1 as [|a l Hl IH Ha]; intros [|n] x y Hx Hy;
    cbn [firstn skipn] in *; try contradiction.
  destruct Hx as [<-|Hx].
  - rewrite Forall_forall in Ha. apply Ha. eapply skipn_In; eassumption.
  - eapply IH; eassumption.
Qed.

(** X17: the cut at ten entries drops only the least relevant: the
    candidates above 0.3 are the entries returned together with the
    entries dropped, every entry returned is at least as relevant as
    every entry dropped, and nothing is dropped when fewer than ten
    entries are returned. *)
Theorem searchDocumentation_keeps_best h technology docs :
  searchDocumentation h technology = Return docs ->
  exists sites dropped,
    documentationSites h technology = Return sites /\
    Permutation
      (Props.kept (flat_map (Props.candidates h technology) sites))
      (docs ++ dropped) /\
    (forall r d, In r docs -> In d dropped ->
                 geb (relevance r) (relevance d) = true) /\
    ((List.length docs < 10)%nat -> dropped = []).
Proof.
  intros H. destruct (searchDocumentation_eq h technology docs H)
    as (sites & Hs & ->).
  unfold rank_documentation. rewrite slice_from_0.
  set (candidates := flat_map (Props.candidates h technology) sites).
  fold (Props.kept candidates).
  set (sorted := sort _ (Props.kept candidates)).
  exists sites, (skipn 10 sorted). repeat split.
  - exact Hs.
  - rewrite firstn_skipn. apply sort_perm.
  - intros r d Hr Hd.
    eapply (StronglySorted_firstn_skipn Spec.descending sorted); try eassumption.
    apply sort_by_relevance_sorted, kept_rankable, candidates_scaled.
  - intros Hlen. rewrite length_firstn in Hlen.
    apply skipn_all2. lia.
Qed.

Lemma searchDocumentation_keeps_best_witness :
  exists sites dropped,
    documentationSites Samples.crowded "React guide part" = Return sites /\
    Permutation
      (Props.kept
         (flat_map (Props.candidates Samples.crowded "React guide part") sites))
      (Samples.crowded_docs ++ dropped) /\
    (forall r d, In r Samples.crowded_docs -> In d dropped ->
                 geb (relevance r) (relevance d) = true) /\
    ((List.length Samples.crowded_docs < 10)%nat -> dropped = []).
Proof.
  apply (searchDocumentation_keeps_best Samples.crowded). reflexivity.
Defined.

Lemma same_number_key x y :
  comparable x -> comparable y ->
  Props.same_number x y = true -> key x = key y.
Proof.
  intros [Hx1 Hx2] [Hy1 Hy2]. unfold Props.same_number.
  rewrite (compare_key x y Hx1 Hy1 Hx2 Hy2).
  destruct (key x) as [a b], (key y) as [c d]. cbn [fst snd].
  destruct (Z.compare_spec a c); try discriminate.
  destruct (Z.compare_spec b d); try discriminate. congruence.
Qed.

Lemma same_number_not_nan x y :
  Props.same_number x y = true -> is_nan x = false.
Proof. unfold Props.same_number. now destruct x. Qed.

Lemma same_key_gtb x y z :
  comparable x -> comparable y -> comparable z ->
  key x = key y -> gtb x z = gtb y z.
Proof.
  intros [Hx1 Hx2] [Hy1 Hy2] [Hz1 Hz2] Hk. unfold gtb.
  pose proof (ltb_key z x Hz1 Hx1 Hz2 Hx2) as H1.
  pose proof (ltb_key z y Hz1 Hy1 Hz2 Hy2) as H2.
  rewrite Hk in H1.
  destruct (ltb z x), (ltb z y); try reflexivity; exfalso.
  - assert (false = true) by (apply H2, H1; reflexivity). discriminate.
  - assert (false = true) by (apply H1, H2; reflexivity). discriminate.
Qed.

Lemma same_key_not_gtb x y :
  comparable x -> comparable y -> key x = key y -> gtb y x = false.
Proof.
  intros [Hx1 Hx2] [Hy1 Hy2] Hk. unfold gtb.
  pose proof (ltb_key x y Hx1 Hy1 Hx2 Hy2) as H. rewrite Hk in H.
  destruct (ltb x y); [|reflexivity].
  exfalso. apply (proj1 H eq_refl). right. split; [reflexivity|lia].
Qed.

Section Ties.

Variable r0 : Resource.
Hypothesis rankable_r0 : Spec.rankable r0.

Lemma tied_key r :
  Spec.scaled_relevance r -> Props.tied r0 r = true ->
  Spec.rankable r /\ key (relevance r) = key (relevance r0).
Proof.
  intros Hs Ht. unfold Props.tied in Ht.
  assert (Hr : Spec.rankable r)
    by (split; [eapply same_number_not_nan; eassumption|exact Hs]).
  split; [exact Hr|]. now apply same_number_key.
Qed.

Lemma insert_filter_tied x l :
  Spec.rankable x -> Forall Spec.rankable l ->
  filter (Props.tied r0)
         (insert (fun a b => sub (relevance b) (relevance a)) x l) =
  filter (Props.tied r0) (x :: l).
Proof.
  intros Hx Hl. induction Hl as [|y rest Hy Hrest IH]; [reflexivity|].
  cbn [insert].
  destruct (gtb (sub (relevance y) (relevance x)) zero) eqn:E; [|reflexivity].
  cbn [filter] in IH |- *. rewrite IH.
  destruct (Props.tied r0 x) eqn:Tx, (Props.tied r0 y) eqn:Ty; try reflexivity.
  exfalso.
  destruct (tied_key x (proj2 Hx) Tx) as [_ Kx].
  destruct (tied_key y (proj2 Hy) Ty) as [_ Ky].
  rewrite sub_gtb_zero in E by (apply Hx || apply Hy).
  rewrite (same_key_not_gtb (relevance x) (relevance y)) in E
    by (assumption || congruence).
  discriminate.
Qed.

Lemma sort_filter_tied l :
  Forall Spec.rankable l ->
  filter (Props.tied r0)
         (sort (fun a b => sub (relevance b) (relevance a)) l) =
  filter (Props.tied r0) l.
Proof.
  induction 1 as [|x l Hx Hl IH]; [reflexivity|].
  cbn [sort]. rewrite insert_filter_tied by (auto using sort_Forall).
  cbn [filter]. now rewrite IH.
Qed.

Lemma kept_filter_tied results :
  Forall Spec.scaled_relevance results ->
  gtb (relevance r0) lit_0_3 = true ->
  filter (Props.tied r0) (Props.kept results) =
  filter (Props.tied r0) results.
Proof.
  intros H H0. induction H as [|r results Hr _ IH]; [reflexivity|].
  unfold Props.kept in *. cbn [filter].
  destruct (Props.tied r0 r) eqn:T.
  - destruct (tied_key r Hr T) as [Hk K].
    rewrite (same_key_gtb (relevance r) (relevance r0) lit_0_3)
      by (assumption || (split; reflexivity)).
    rewrite H0. cbn [filter]. now rewrite T, IH.
  - destruct (gtb (relevance r) lit_0_3); cbn [filter]; now rewrite ?T, IH.
Qed.

End Ties.

Lemma filter_firstn {A} (p : A -> bool) n l :
  exists k, filter p (firstn n l) = firstn k (filter p l).
Proof.
  revert n. induction l as [|x l IH]; intros [|n]; cbn [firstn filter].
  - now exists 0%nat.
  - now exists 0%nat.
  - now exists 0%nat.
  - destruct (IH n) as [k Hk]. destruct (p x).
    + exists (S k). cbn [firstn]. now rewrite Hk.
    + now exists k.
Qed.

(** X18: entries of equal relevance keep the order in which they were
    found: for every entry returned, the entries returned that are as
    relevant as it are the first so many of the candidates as relevant
    as it, in the order of the sites and of the anchors on the page.  So
    among equally relevant candidates the cut at ten drops the ones
    found last. *)
Theorem searchDocumentation_stable h technology docs r0 :
  searchDocumentation h technology = Return docs ->
  In r0 docs ->
  exists sites k,
    documentationSites h technology = Return sites /\
    filter (Props.tied r0) docs =
    firstn k (filter (Props.tied r0)
                     (flat_map (Props.candidates h technology) sites)).
Proof.
  intros H Hr0. destruct (searchDocumentation_eq h technology docs H)
    as (sites & Hs & ->).
  pose proof (candidates_scaled h technology sites) as Hscaled.
  pose proof (kept_rankable _ Hscaled) as Hrank.
  apply rank_documentation_In in Hr0.
  assert (R0 : Spec.rankable r0)
    by (rewrite Forall_forall in Hrank; now apply Hrank).
  apply filter_In in Hr0 as [_ G0].
  unfold rank_documentation. rewrite slice_from_0.
  fold (Props.kept (flat_map (Props.candidates h technology) sites)).
  destruct (filter_firstn (Props.tied r0) 10
              (sort (fun a b => sub (relevance b) (relevance a))
                    (Props.kept (flat_map (Props.candidates h technology) sites))))
    as [k Hk].
  exists sites, k. split; [exact Hs|].
  rewrite Hk, (sort_filter_tied r0 R0) by exact Hrank.
  now rewrite (kept_filter_tied r0 R0).
Qed.

Lemma searchDocumentation_stable_witness :
  exists sites k,
    documentationSites Samples.crowded "React guide part" = Return sites /\
    filter (Props.tied (hd MoreSamples.broken_resource Samples.crowded_docs))
           Samples.crowded_docs =
    firstn k
      (filter (Props.tied (hd MoreSamples.broken_resource Samples.crowded_docs))
              (flat_map (Props.candidates Samples.crowded "React guide part")
                        sites)).
Proof.
  apply (searchDocumentation_stable Samples.crowded).
  - reflexivity.
  - vm_compute. now left.
Defined.

(** ** The repository search *)

(** X19: when every item of the answer is a repository record, the
    repository search returns one resource for each, in the order of
    the answer: nothing is filtered out and nothing is sorted by
    relevance, unlike the documentation search. *)
Theorem searchGitHub_maps_items h technology repos :
  get_search_repositories h (repositoryQuery technology) =
    Return (Some (map Some repos)) ->
  searchGitHub h technology =
    Return (map (Props.repositoryResource technology) repos).
Proof.
  intros H. unfold searchGitHub. rewrite H. cbn [bind]. clear H.
  match goal with |- context [mapM ?f (map Some repos)] =>
    assert (E : mapM f (map Some repos) =
                Return (map (Props.repositoryResource technology) repos))
  end.
  { induction repos as [|repo repos IH]; [reflexivity|].
    cbn [map mapM bind]. now rewrite IH. }
  now rewrite E.
Qed.

Lemma searchGitHub_maps_items_witness :
  searchGitHub Samples.undocumented "react" =
    Return (map (Props.repositoryResource "react")
                [Samples.react; Samples.galaxy]).
Proof.
  apply searchGitHub_maps_items. reflexivity.
Defined.

(** ** Rounding below a number of binary64 *)

(** A magnitude of at most [b * 2^k] stays so under the shift; it
    reaches the bound only when nothing is shifted out. *)
Lemma shift_bound_finite m e k b :
  0 <= m -> -1074 <= k -> e <= k -> 0 < b < 2 ^ 53 ->
  m <= b * 2 ^ (k - e) ->
  let n := Z.max (fexp' (Zdigits2 m + e) - e) 0 in
  e + n <= k /\ m / 2 ^ n <= b * 2 ^ (k - (e + n)) /\
  (m / 2 ^ n = b * 2 ^ (k - (e + n)) ->
   m = b * 2 ^ (k - e) /\ m mod 2 ^ n = 0).
Proof.
  intros Hm Hk He Hb Hbound n.
  assert (Hn0 : 0 <= n) by (unfold n; lia).
  assert (Hen : e + n <= k).
  { unfold n, fexp'. destruct (Z.eq_dec m 0) as [->|Hne]; [cbn; lia|].
    destruct (Zdigits2_bounds m ltac:(lia)) as [Hlo _].
    assert (Zdigits2 m - 1 < 53 + (k - e)).
    { apply (Z.pow_lt_mono_r_iff 2); [lia|lia|].
      rewrite Z.pow_add_r by lia.
      assert (0 < 2 ^ (k - e)) by (apply Z.pow_pos_nonneg; lia). nia. }
    lia. }
  assert (Hpn : 0 < 2 ^ n) by (apply Z.pow_pos_nonneg; lia).
  assert (Hsplit : 2 ^ (k - e) = 2 ^ n * 2 ^ (k - (e + n))).
  { rewrite <- Z.pow_add_r by lia. f_equal; lia. }
  rewrite Hsplit in *.
  set (P := 2 ^ (k - (e + n))) in *. set (Q := 2 ^ n) in *.
  split; [exact Hen|]. split.
  - apply Z.div_le_upper_bound; [exact Hpn|]. lia.
  - intros Heq.
    pose proof (Z.div_mod m Q ltac:(lia)) as Hdm.
    pose proof (Z.mod_pos_bound m Q Hpn) as Hmod.
    rewrite Heq in Hdm. lia.
Qed.

(** Rounding to nearest does not cross a number of binary64. *)
Lemma binary_round_aux_le_finite s m e l k b :
  0 <= m -> -1074 <= k <= 971 -> e <= k -> 0 < b < 2 ^ 53 ->
  m <= b * 2 ^ (k - e) ->
  (l <> loc_Exact -> m < b * 2 ^ (k - e)) ->
  Props.le_finite b k (binary_round_aux prec emax s m e l).
Proof.
  intros Hm Hk He Hb Hbound Hl.
  destruct (binary_round_aux_spec s m e l Hm) as (m1 & Hm1 & ->).
  cbv zeta.
  set (n1 := Z.max (fexp' (Zdigits2 m + e) - e) 0) in *.
  set (e1 := e + n1).
  set (n2 := Z.max (fexp' (Zdigits2 m1 + e1) - e1) 0).
  destruct (shift_bound_finite m e k b Hm ltac:(lia) He Hb Hbound)
    as (He1 & Hb1 & Heq1).
  fold n1 in He1, Hb1, Heq1. fold e1 in He1, Hb1, Heq1.
  assert (H0 : 0 <= m / 2 ^ n1)
    by (apply Z.div_pos; [lia|apply Z.pow_pos_nonneg; unfold n1; lia]).
  assert (Hm1' : 0 <= m1 <= b * 2 ^ (k - e1)).
  { destruct Hm1 as [->|[-> Hinex]]; [lia|].
    destruct (Z.eq_dec (m / 2 ^ n1) (b * 2 ^ (k - e1))) as [Heq|Hne]; [|lia].
    destruct (Heq1 Heq) as [Hm2 Hmod].
    destruct Hinex as [Hne|Hne]; [|contradiction].
    specialize (Hl Hne). lia. }
  destruct (shift_bound_finite m1 e1 k b ltac:(lia) ltac:(lia) He1 Hb ltac:(lia))
    as (He2 & Hb2 & _).
  fold n2 in He2, Hb2.
  destruct (m1 / 2 ^ n2) as [|p|p] eqn:E.
  - exact I.
  - replace (e1 + n2 <=? emax - prec)%Z with true
      by (symmetry; apply Z.leb_le; unfold emax, prec; lia).
    unfold Props.le_finite. split; lia.
  - assert (0 <= m1 / 2 ^ n2)
      by (apply Z.div_pos; [lia|apply Z.pow_pos_nonneg; unfold n2; lia]).
    lia.
Qed.

Lemma le_finite_leb pb k x :
  Props.le_finite (Zpos pb) k x -> is_nonneg x = true ->
  leb x (S754_finite false pb k) = true.
Proof.
  destruct x as [[]| | |[] p e]; try contradiction; try discriminate;
    intros H _.
  - unfold leb, compare, common_exponent, scaled. cbn [exponent cond_Zopp].
    rewrite Z.sub_diag, Z.pow_0_r, Z.mul_1_r. reflexivity.
  - destruct H as [He Hp]. unfold leb. rewrite compare_finite.
    cbn [cond_Zopp]. replace (Z.min e k) with e by lia.
    rewrite Z.sub_diag, Z.pow_0_r, Z.mul_1_r.
    destruct (Z.compare_spec (Zpos p) (Zpos pb * 2 ^ (k - e)));
      try reflexivity; lia.
Qed.

Lemma mul_le_finite x sc pc ec :
  le_pow2 0 x -> Zpos pc < 2 ^ 53 -> -1074 <= ec <= 971 ->
  Props.le_finite (Zpos pc) ec (mul x (S754_finite sc pc ec)).
Proof.
  destruct x as [sx| | |sx mx ex]; try contradiction; intros Hx Hpc Hec;
    [exact I|].
  unfold mul, SFmul. destruct Hx as [Hex Hmx].
  apply binary_round_aux_le_finite; try lia.
  - replace (ec - (ex + ec)) with (0 - ex) by lia.
    rewrite Pos2Z.inj_mul.
    assert (0 < 2 ^ (0 - ex)) by (apply Z.pow_pos_nonneg; lia). nia.
  - congruence.
Qed.

(** The part of a text score that counts words is at most 0.6. *)
Lemma ratio_le_0_6 (m w : nat) :
  (m <= w)%nat -> (0 < w)%nat -> Z.of_nat w <= 2 ^ 53 ->
  leb (mul (div (ofNat m) (ofNat w)) lit_0_6) lit_0_6 = true.
Proof.
  intros Hmw Hw Hbig. unfold ofNat. destruct m as [|m'].
  - destruct (ofZ_leb (Z.of_nat w) (Z.of_nat w) ltac:(lia) Hbig)
      as (_ & _ & pw & ew & ->).
    reflexivity.
  - destruct (ofZ_leb (Z.of_nat (S m')) (Z.of_nat w) ltac:(lia) Hbig)
      as (Hle & (pm & em & Em) & (pw & ew & Ew)).
    rewrite Em, Ew in *. unfold lit_0_6.
    apply le_finite_leb.
    + apply mul_le_finite; [now apply div_le_one|reflexivity|lia].
    + apply mul_nonneg_finite, div_nonneg. reflexivity.
Qed.

(** ** The two bands of a text score *)

Lemma calculateTextRelevance_bands text technology :
  Z.of_nat (String.length technology) < 2 ^ 53 ->
  (Spec.contains_ci text technology = true /\
   calculateTextRelevance text technology = lit_0_8) \/
  (Spec.contains_ci text technology = false /\
   leb zero (calculateTextRelevance text technology) = true /\
   leb (calculateTextRelevance text technology) lit_0_6 = true).
Proof.
  intros Hlen. unfold calculateTextRelevance, Spec.contains_ci.
  destruct (includes (toLowerCase text) (toLowerCase technology));
    [left; split; reflexivity|right; split; [reflexivity|]].
  set (words := split space (toLowerCase technology)).
  set (matched := filter _ words).
  assert (Hm : (List.length matched <= List.length words)%nat)
    by apply filter_length_le.
  assert (Hw : (0 < List.length words)%nat).
  { pose proof (split_not_nil space (toLowerCase technology)) as H.
    fold words in H. destruct words; [congruence|cbn; lia]. }
  assert (Hbig : Z.of_nat (List.length words) <= 2 ^ 53).
  { pose proof (split_length space (toLowerCase technology)) as H.
    fold words in H. rewrite Claims.toLowerCase_length in H. lia. }
  split.
  - apply ratio_bounds; try assumption; [|reflexivity].
    unfold lit_0_6, le_pow2. split; [lia|]. now vm_compute.
  - now apply ratio_le_0_6.
Qed.

(** X20: the relevance of a documentation entry is in one of two bands.
    It is exactly 0.8 when the title contains the term (letter case
    ignored); otherwise it is above 0.3 and at most 0.6.  No entry
    scores between 0.6 and 0.8, or above 0.8. *)
Theorem searchDocumentation_relevance_bands h technology docs :
  searchDocumentation h technology = Return docs ->
  Z.of_nat (String.length technology) < 2 ^ 53 ->
  Forall (fun r =>
            (Spec.contains_ci (title r) technology = true /\
             relevance r = lit_0_8) \/
            (Spec.contains_ci (title r) technology = false /\
             gtb (relevance r) lit_0_3 = true /\
             leb (relevance r) lit_0_6 = true))
         docs.
Proof.
  intros H Hlen. destruct (searchDocumentation_eq h technology docs H)
    as (sites & _ & ->).
  apply Forall_forall. intros r Hr.
  apply rank_documentation_In, filter_In in Hr as [Hr Hgt].
  pose proof (candidates_entries h technology sites) as Hall.
  rewrite Forall_forall in Hall. destruct (Hall r Hr) as (_ & _ & _ & Hrel).
  rewrite Hrel in *.
  destruct (calculateTextRelevance_bands (title r) technology Hlen)
    as [[Hc Hv]|(Hc & _ & Hle)]; [left|right]; auto.
Qed.

Lemma searchDocumentation_relevance_bands_witness :
  Forall (fun r =>
            (Spec.contains_ci (title r) "React guide part" = true /\
             relevance r = lit_0_8) \/
            (Spec.contains_ci (title r) "React guide part" = false /\
             gtb (relevance r) lit_0_3 = true /\
             leb (relevance r) lit_0_6 = true))
         Samples.crowded_docs.
Proof.
  apply (searchDocumentation_relevance_bands Samples.crowded).
  - reflexivity.
  - vm_compute. reflexivity.
Defined.

(** ** Scores above 0.8 *)

Lemma leb_not_gtb x y :
  comparable x -> comparable y -> leb x y = true -> gtb x y = false.
Proof.
  intros [Hx1 Hx2] [Hy1 Hy2] H. unfold gtb.
  apply (leb_key x y Hx1 Hy1 Hx2 Hy2) in H.
  pose proof (ltb_key y x Hy1 Hx1 Hy2 Hx2) as L.
  destruct (ltb y x); [|reflexivity].
  now destruct (proj1 L eq_refl).
Qed.

Lemma leb_ltb_trans x y z :
  comparable x -> comparable y -> comparable z ->
  leb x y = true -> ltb y z = true -> ltb x z = true.
Proof.
  intros [Hx1 Hx2] [Hy1 Hy2] [Hz1 Hz2] H1 H2.
  apply (leb_key x y Hx1 Hy1 Hx2 Hy2) in H1.
  apply (ltb_key y z Hy1 Hz1 Hy2 Hz2) in H2.
  apply (ltb_key x z Hx1 Hz1 Hx2 Hz2).
  unfold key_le in *. lia.
Qed.

Lemma leb_trans x y z :
  comparable x -> comparable y -> comparable z ->
  leb x y = true -> leb y z = true -> leb x z = true.
Proof.
  intros Hx Hy Hz H1 H2. change (geb z x = true).
  now apply (geb_trans z y x).
Qed.

Lemma nonneg_not_nan x : is_nonneg x = true -> is_nan x = false.
Proof. now destruct x. Qed.

Lemma Math_min_leb_r x y :
  is_nan (Math_min x y) = false -> leb (Math_min x y) y = true.
Proof.
  unfold Math_min. destruct (compare x y) as [[]|] eqn:E; try discriminate;
    intros _.
  - destruct x as [sx| | |]; destruct y as [sy| | |];
      try (unfold leb; now rewrite E).
    reflexivity.
  - unfold leb. now rewrite E.
  - unfold leb. rewrite compare_refl; [reflexivity|].
    destruct y; try reflexivity. now destruct x.
Qed.

Lemma Math_min_well_scaled x y :
  well_scaled x = true -> well_scaled y = true ->
  well_scaled (Math_min x y) = true.
Proof.
  intros Hx Hy. unfold Math_min. destruct (compare x y) as [[]|]; auto.
  destruct x, y; auto.
Qed.

Lemma Math_min_below x y :
  ltb x y = true -> Math_min x y = x.
Proof.
  unfold ltb, Math_min. now destruct (compare x y) as [[]|].
Qed.

Lemma div_well_scaled x my ey :
  well_scaled (div x (S754_finite false my ey)) = true.
Proof.
  destruct x as [sx|sx| |sx mx ex]; try reflexivity.
  unfold div, SFdiv.
  destruct (SFdiv_core_binary prec emax (Z.pos mx) ex (Z.pos my) ey)
    as [[q e'] l] eqn:E.
  apply binary_round_aux_sign.
  unfold SFdiv_core_binary in E.
  match type of E with (let '(q, r) := Z.div_eucl ?a ?b in _) = _ =>
    pose proof (Z_div_mod a b ltac:(lia)) as H;
    assert (Ha : 0 <= a); [|destruct (Z.div_eucl a b) as [q' r']] end.
  { match goal with |- 0 <= match ?s with _ => _ end => destruct s end; try lia.
    apply Z.shiftl_nonneg. lia. }
  injection E as <- _ _. nia.
Qed.

Lemma add_well_scaled x y :
  well_scaled x = true -> well_scaled y = true ->
  well_scaled (add x y) = true.
Proof.
  intros Hx Hy.
  destruct x as [sx|sx| |sx mx ex]; destruct y as [sy|sy| |sy my ey];
    try reflexivity; try assumption;
    try (destruct sx, sy; reflexivity).
  unfold add, SFadd. apply binary_normalize_sign.
Qed.

Lemma starBonus_bounds stars :
  is_nonneg (Spec.starBonus stars) = true /\
  well_scaled (Spec.starBonus stars) = true /\
  leb (Spec.starBonus stars) lit_0_3 = true.
Proof.
  pose proof (starBonus_nonneg stars) as Hn.
  split; [exact Hn|]. split.
  - unfold Spec.starBonus. apply Math_min_well_scaled; [|reflexivity].
    unfold lit_10000. apply div_well_scaled.
  - apply Math_min_leb_r. now apply nonneg_not_nan.
Qed.

(** The sum of a number of at most 0.4 and one of at most 0.3, rounded,
    is at most 0.8. *)
Lemma add_finite_le_0_8 pc p e :
  Zpos pc <= 7205759403792794 ->
  leb (S754_finite false p e) lit_0_3 = true ->
  Props.le_finite 7205759403792794 (-53)
    (add (S754_finite false pc (-54)) (S754_finite false p e)).
Proof.
  intros Hpc Hle. unfold leb, lit_0_3 in Hle. rewrite compare_finite in Hle.
  cbn [cond_Zopp] in Hle. rewrite Z.min_comm in Hle.
  unfold add, SFadd. cbn [cond_Zopp].
  set (ez := Z.min (-54) e) in *.
  destruct (shl_align_spec pc (-54) ez) as [_ H1].
  destruct (shl_align_spec p e ez) as [_ H2].
  replace (Z.min (-54) ez) with ez in H1 by (unfold ez; lia).
  replace (Z.min e ez) with ez in H2 by (unfold ez; lia).
  rewrite H1, H2.
  set (A := 2 ^ (-54 - ez)) in *.
  assert (HA : 0 < A) by (apply Z.pow_pos_nonneg; unfold ez; lia).
  assert (HB : 0 < 2 ^ (e - ez)) by (apply Z.pow_pos_nonneg; unfold ez; lia).
  assert (Hp : Zpos p * 2 ^ (e - ez) <= 5404319552844595 * A).
  { destruct (Z.compare_spec (Zpos p * 2 ^ (e - ez)) (5404319552844595 * A));
      try discriminate; lia. }
  set (M := Zpos pc * A + Zpos p * 2 ^ (e - ez)) in *.
  assert (HM : 0 < M <= 7205759403792794 * (2 * A)) by (unfold M; nia).
  assert (H2A : 2 * A = 2 ^ (-53 - ez)).
  { unfold A. rewrite <- Z.pow_succ_r by (unfold ez; lia). f_equal. lia. }
  rewrite H2A in HM.
  destruct M as [|q|q] eqn:EM; try lia.
  cbn [binary_normalize]. rewrite binary_round_eq. cbv zeta.
  set (e' := Z.min ez (fexp' (Zpos (digits2_pos q) + ez))).
  assert (He' : e' <= ez) by (unfold e'; lia).
  assert (HC : 0 < 2 ^ (ez - e')) by (apply Z.pow_pos_nonneg; lia).
  apply binary_round_aux_le_finite; try lia.
  - replace (-53 - e') with ((-53 - ez) + (ez - e')) by lia.
    rewrite Z.pow_add_r by (unfold ez in *; lia). nia.
  - congruence.
Qed.

Lemma add_bonus_le_0_8 c sb :
  c = zero \/ c = lit_0_4 \/ c = lit_0_3 ->
  is_nonneg sb = true -> well_scaled sb = true ->
  leb sb lit_0_3 = true ->
  leb (add c sb) lit_0_8 = true.
Proof.
  intros Hc Hn Hs Hle.
  assert (C03 : comparable lit_0_3) by (split; reflexivity).
  assert (C08 : comparable lit_0_8) by (split; reflexivity).
  destruct sb as [[]|[]| |[] p e]; try discriminate.
  - destruct Hc as [->|[->| ->]]; reflexivity.
  - destruct Hc as [->|[->| ->]].
    + change (add zero (S754_finite false p e)) with (S754_finite false p e).
      apply (leb_trans (S754_finite false p e) lit_0_3 lit_0_8
               (conj eq_refl Hs) C03 C08 Hle).
      reflexivity.
    + unfold lit_0_4, lit_0_8. apply le_finite_leb.
      * apply add_finite_le_0_8; [lia|exact Hle].
      * now apply add_nonneg.
    + unfold lit_0_3 at 1. unfold lit_0_8. apply le_finite_leb.
      * apply add_finite_le_0_8; [lia|exact Hle].
      * now apply add_nonneg.
Qed.

Lemma not_above_0_8 v :
  is_nonneg v = true -> well_scaled v = true ->
  leb v lit_0_8 = true ->
  gtb (Math_min v one) lit_0_8 = false.
Proof.
  intros Hn Hs Hle.
  assert (Cv : comparable v) by (split; [now apply nonneg_not_nan|exact Hs]).
  assert (C08 : comparable lit_0_8) by (split; reflexivity).
  assert (C1 : comparable one) by (split; reflexivity).
  rewrite Math_min_below.
  - now apply leb_not_gtb.
  - apply (leb_ltb_trans v lit_0_8 one); try assumption. reflexivity.
Qed.

Lemma calculateRelevance_without_both repo technology :
  Props.matches_both technology repo = false ->
  gtb (calculateRelevance repo technology) lit_0_8 = false.
Proof.
  unfold Props.matches_both. intros Hboth.
  destruct (Claims.calculateRelevance_eq repo technology)
    as (bonus & Hb & Hbonus & ->).
  destruct (starBonus_bounds (Repo.stargazers_count repo)) as (Sn & Ss & Sle).
  set (sb := Spec.starBonus (Repo.stargazers_count repo)) in *.
  assert (Hc : bonus = zero \/ bonus = lit_0_4 \/ bonus = lit_0_3).
  { rewrite Hbonus.
    destruct (Spec.contains_ci (Repo.name repo) technology);
      destruct (match Repo.description repo with
                | Some d => truthy d && Spec.contains_ci d technology
                | None => false
                end); try discriminate; auto. }
  apply not_above_0_8.
  - now apply add_nonneg.
  - apply add_well_scaled; [|exact Ss].
    destruct Hc as [->|[->| ->]]; reflexivity.
  - now apply add_bonus_le_0_8.
Qed.

(** X21: a repository scores above 0.8, the threshold of the adoption
    recommendation, only if both its name and its description contain
    the term (letter case ignored): stars alone, or stars with one of
    the two matches, never reach it. *)
Theorem calculateRelevance_above_0_8 repo technology :
  gtb (calculateRelevance repo technology) lit_0_8 = true ->
  Spec.contains_ci (Repo.name repo) technology = true /\
  exists d, Repo.description repo = Some d /\ d <> EmptyString /\
            Spec.contains_ci d technology = true.
Proof.
  intros Hgt.
  destruct (Props.matches_both technology repo) eqn:Hboth.
  - unfold Props.matches_both in Hboth.
    apply andb_prop in Hboth as [Hname Hdesc]. split; [exact Hname|].
    destruct (Repo.description repo) as [d|]; [|discriminate].
    apply andb_prop in Hdesc as [Ht Hc].
    exists d. repeat split; [|exact Hc]. intros ->. discriminate.
  - rewrite calculateRelevance_without_both in Hgt by exact Hboth.
    discriminate.
Qed.

Lemma calculateRelevance_above_0_8_witness :
  Spec.contains_ci (Repo.name Samples.galaxy) "react" = true /\
  exists d, Repo.description Samples.galaxy = Some d /\ d <> EmptyString /\
            Spec.contains_ci d "react" = true.
Proof.
  apply calculateRelevance_above_0_8. reflexivity.
Defined.

Lemma mapM_Forall_In {A B} (f : A -> Completion B) (P : B -> Prop) items ys :
  (forall x y, In x items -> f x = Return y -> P y) ->
  mapM f items = Return ys -> Forall P ys.
Proof.
  revert ys. induction items as [|x items IH]; intros ys Hf; cbn [mapM].
  - intros [= <-]. constructor.
  - destruct (f x) as [y|e] eqn:E; cbn [bind]; [|discriminate].
    destruct (mapM f items) as [ys'|e]; cbn [bind]; [|discriminate].
    intros [= <-]. constructor.
    + apply (Hf x); [now left|exact E].
    + apply IH; [|reflexivity]. intros x' y' Hin. apply Hf. now right.
Qed.

Lemma filter_none {A} (p : A -> bool) l :
  Forall (fun x => p x = false) l -> filter p l = [].
Proof.
  induction 1 as [|x l Hx _ IH]; [reflexivity|]. cbn [filter]. now rewrite Hx.
Qed.

(** X22: the adoption recommendation needs a repository whose name and
    description both contain the term: when no repository of the answer
    to the repository search is such, the recommendations of a research
    result are those of a search that found no repository at all,
    however many stars the repositories have. *)
Theorem researchTopic_adoption_needs_both_matches h query result :
  researchTopic h query = Return result ->
  (forall items,
      get_search_repositories h (repositoryQuery (technology query)) =
        Return (Some items) ->
      Forall (fun item =>
                match item with
                | Some repo =>
                    Props.matches_both (technology query) repo = false
                | None => True
                end) items) ->
  recommendations result = generateRecommendations query [].
Proof.
  intros Hres Hitems.
  assert (Hrec : exists githubResults,
             searchGitHub h (technology query) = Return githubResults /\
             recommendations result = generateRecommendations query githubResults).
  { revert Hres. unfold researchTopic.
    destruct (searchGitHub h (technology query)) as [gh|e];
      cbn [bind try_catch]; [|discriminate].
    destruct (searchDocumentation h (technology query)) as [docs|e];
      cbn [bind try_catch]; [|discriminate].
    destruct (findCodeExamples h (technology query)) as [ex|e];
      cbn [bind try_catch]; [|discriminate].
    intros [= <-]. exists gh. split; reflexivity. }
  destruct Hrec as (gh & Hgh & ->).
  assert (Hlow : Forall (fun r => gtb (relevance r) lit_0_8 = false) gh).
  { revert Hgh. unfold searchGitHub.
    destruct (get_search_repositories h (repositoryQuery (technology query)))
      as [[items|]|e]; cbn [bind try_catch]; try (intros [= <-]; constructor).
    specialize (Hitems items eq_refl). rewrite Forall_forall in Hitems.
    destruct (mapM _ items) as [rs|e] eqn:E; cbn [try_catch];
      [|intros [= <-]; constructor].
    intros [= <-]. eapply mapM_Forall_In; [|exact E].
    intros [repo|] r Hin; cbv beta; [|discriminate].
    intros [= <-]. cbn [relevance].
    apply calculateRelevance_without_both. exact (Hitems _ Hin). }
  unfold generateRecommendations. now rewrite (filter_none _ _ Hlow).
Qed.

Lemma researchTopic_adoption_needs_both_matches_witness :
  recommendations MoreSamples.starred_result =
  generateRecommendations Samples.react_query [].
Proof.
  apply (researchTopic_adoption_needs_both_matches MoreSamples.starred).
  - reflexivity.
  - intros items [= <-]. repeat constructor.
Defined.

(** ** The code examples *)

(** X23: every code example comes from one file of the answer to the
    code search whose content could be fetched: its language is the one
    of the file name, its code the excerpt of that content for the
    term, its description names the repository and its source is the
    page of the file.  There are at most as many examples as files. *)
Theorem findCodeExamples_examples h technology examples :
  findCodeExamples h technology = Return examples ->
  examples = [] \/
  exists items,
    get_search_code h (codeQuery technology) = Return (Some items) /\
    (List.length examples <= List.length items)%nat /\
    Forall (fun example =>
              exists item content,
                In item items /\
                get_file_content h (CodeItem.url item) = Return content /\
                language example = detectLanguage (CodeItem.name item) /\
                code example = extractRelevantCode content technology /\
                description example =
                  ("Example from " ++ CodeItem.repository_full_name item)%string /\
                source example = CodeItem.html_url item)
           examples.
Proof.
  unfold findCodeExamples.
  destruct (get_search_code h (codeQuery technology)) as [[items|]|e];
    cbn [bind try_catch]; intros [= <-]; auto.
  right. exists items. split; [reflexivity|].
  rewrite Claims.collect_examples_eq. cbn [app]. unfold Spec.examples_of.
  split.
  - induction items as [|item items IH]; cbn [flat_map List.length]; [lia|].
    rewrite length_app.
    destruct (code_example h technology item); cbn [List.length]; lia.
  - apply Forall_forall. intros example Hin.
    apply in_flat_map in Hin as (item & Hitem & Hin).
    unfold code_example in Hin.
    destruct (get_file_content h (CodeItem.url item)) as [content|e] eqn:E;
      cbn [bind] in Hin; [|contradiction].
    destruct Hin as [<-|[]]. exists item, content. repeat split; assumption.
Qed.

Lemma findCodeExamples_examples_witness :
  exists examples,
    findCodeExamples Samples.flaky "react" = Return examples /\
    List.length examples = 2%nat /\
    map language examples = ["typescript"; "python"]%string.
Proof.
  destruct (findCodeExamples Samples.flaky "react") as [examples|e] eqn:E;
    [|vm_compute in E; discriminate].
  destruct (findCodeExamples_examples Samples.flaky "react" examples E)
    as [->|(items & _ & _ & _)].
  - vm_compute in E. discriminate.
  - exists examples. split; [reflexivity|].
    vm_compute in E. injection E as <-. split; reflexivity.
Defined.

(** ** Every relevance of a result *)

Lemma calculateRelevance_unit repo technology :
  Props.in_unit_interval (calculateRelevance repo technology).
Proof.
  destruct (Claims.calculateRelevance_eq repo technology)
    as (bonus & Hb & _ & ->).
  apply Math_min_one_bounds.
  apply add_nonneg; [exact Hb|apply starBonus_nonneg].
Qed.

Lemma calculateTextRelevance_unit text technology :
  Z.of_nat (String.length technology) < 2 ^ 53 ->
  Props.in_unit_interval (calculateTextRelevance text technology).
Proof.
  intros Hlen. unfold calculateTextRelevance.
  destruct (includes (toLowerCase text) (toLowerCase technology));
    [split; reflexivity|].
  apply ratio_bounds.
  - apply filter_length_le.
  - pose proof (split_not_nil space (toLowerCase technology)).
    destruct (split space (toLowerCase technology)); [congruence|cbn; lia].
  - pose proof (split_length space (toLowerCase technology)) as H.
    rewrite Claims.toLowerCase_length in H. lia.
  - unfold lit_0_6, le_pow2. split; [lia|]. now vm_compute.
  - reflexivity.
Qed.

(** X24: every resource of a research result, repository or
    documentation, has a relevance between 0 and 1 (the term being a
    JavaScript string, of fewer than 2^53 characters). *)
Theorem researchTopic_relevance_in_unit_interval h query result :
  researchTopic h query = Return result ->
  Z.of_nat (String.length (technology query)) < 2 ^ 53 ->
  Forall (fun r => Props.in_unit_interval (relevance r)) (resources result).
Proof.
  intros Hres Hlen. revert Hres. unfold researchTopic.
  destruct (searchGitHub h (technology query)) as [gh|e] eqn:Hgh;
    cbn [bind try_catch]; [|discriminate].
  destruct (searchDocumentation h (technology query)) as [docs|e] eqn:Hdocs;
    cbn [bind try_catch]; [|discriminate].
  destruct (findCodeExamples h (technology query)) as [ex|e];
    cbn [bind try_catch]; [|discriminate].
  intros [= <-]. cbn [resources]. apply Forall_app. split.
  - revert Hgh. unfold searchGitHub.
    destruct (get_search_repositories h (repositoryQuery (technology query)))
      as [[items|]|e]; cbn [bind try_catch]; try (intros [= <-]; constructor).
    destruct (mapM _ items) as [rs|e] eqn:E; cbn [try_catch];
      [|intros [= <-]; constructor].
    intros [= <-]. eapply Claims.mapM_Forall; [|exact E].
    intros [repo|] r; cbv beta; [|discriminate].
    intros [= <-]. apply calculateRelevance_unit.
  - destruct (searchDocumentation_eq h (technology query) docs Hdocs)
      as (sites & _ & ->).
    apply Forall_forall. intros r Hr.
    apply rank_documentation_In, filter_In in Hr as [Hr _].
    pose proof (candidates_entries h (technology query) sites) as Hall.
    rewrite Forall_forall in Hall. destruct (Hall r Hr) as (_ & _ & _ & ->).
    now apply calculateTextRelevance_unit.
Qed.

Lemma researchTopic_relevance_in_unit_interval_witness :
  Forall (fun r => Props.in_unit_interval (relevance r))
         (resources Samples.mirrored_result).
Proof.
  apply (researchTopic_relevance_in_unit_interval
           Samples.mirrored Samples.react_query).
  - reflexivity.
  - vm_compute. reflexivity.
Defined.

(** ** The excerpt shows the term *)

Lemma first_match_split (p : string -> bool) lines line :
  In line lines -> p line = true ->
  exists before first after,
    lines = before ++ first :: after /\
    Forall (fun l => p l = false) before /\ p first = true.
Proof.
  induction lines as [|l lines IH]; [contradiction|]. intros Hin Hp.
  destruct (p l) eqn:El.
  - exists [], l, lines. repeat split; [constructor|exact El].
  - destruct Hin as [->|Hin]; [congruence|].
    destruct (IH Hin Hp) as (before & first & after & -> & Hb & Hf).
    exists (l :: before), first, after. repeat split; [|exact Hf].
    now constructor.
Qed.

Lemma In_slice {A} a b i (l : list A) x :
  (a <= i < b)%nat -> nth_error l i = Some x -> In x (slice a b l).
Proof.
  intros Hi Hx. unfold slice. apply (nth_error_In _ (i - a)).
  rewrite nth_error_firstn.
  replace (i - a <? b - a)%nat with true by (symmetry; apply Nat.ltb_lt; lia).
  rewrite nth_error_skipn. now replace (a + (i - a))%nat with i by lia.
Qed.

(** X25: when some line of the file contains the term (letter case
    ignored), the excerpt has at most seven lines and one of them
    contains the term: the window around the first match always shows
    the match. *)
Theorem extractRelevantCode_shows_match code technology line :
  In line (split newline code) ->
  Spec.contains_ci line technology = true ->
  let excerpt := split newline (extractRelevantCode code technology) in
  (List.length excerpt <= 7)%nat /\
  exists shown, In shown excerpt /\ Spec.contains_ci shown technology = true.
Proof.
  intros Hin Hline. cbv zeta.
  destruct (first_match_split
              (fun l => includes (toLowerCase l) (toLowerCase technology))
              _ line Hin Hline)
    as (before & first & after & Hsplit & Hbefore & Hfirst).
  set (lines := split newline code) in *.
  set (i := List.length before).
  set (a := Z.to_nat (Z.max 0 (Z.of_nat (0 + i) - 3))).
  set (b := Nat.min (List.length lines) (0 + i + 4)).
  assert (Hscan : scan_lines lines lines 0 (toLowerCase technology) =
                  slice a b lines).
  { rewrite Hsplit at 2.
    now rewrite (Claims.scan_lines_first_match lines _ before first after 0
                   Hbefore Hfirst). }
  assert (Hnth : nth_error lines i = Some first).
  { rewrite Hsplit. unfold i. rewrite nth_error_app2 by lia.
    now rewrite Nat.sub_diag. }
  assert (Hlen : (i < List.length lines)%nat).
  { apply nth_error_Some. congruence. }
  assert (Hshown : In first (slice a b lines)).
  { apply (In_slice a b i); [unfold a, b; lia|exact Hnth]. }
  assert (Hextract : extractRelevantCode code technology =
                     join nl (slice a b lines)).
  { unfold extractRelevantCode. fold lines. rewrite Hscan.
    destruct (slice a b lines) eqn:E; [contradiction|reflexivity]. }
  rewrite Hextract.
  pose proof (split_lines_without_separator newline code) as Hlines.
  fold lines in Hlines. rewrite (slice_block a b lines) in Hlines.
  apply Forall_app in Hlines as [_ Hlines].
  apply Forall_app in Hlines as [Hlines _].
  unfold nl. rewrite split_join; [|intros E; now rewrite E in Hshown|exact Hlines].
  split.
  - pose proof (slice_length_le a b lines). unfold a, b in *. lia.
  - exists first. split; [exact Hshown|exact Hfirst].
Qed.

Lemma extractRelevantCode_shows_match_witness :
  let excerpt := split newline (extractRelevantCode Samples.sample_file "REACT") in
  (List.length excerpt <= 7)%nat /\
  exists shown, In shown excerpt /\ Spec.contains_ci shown "REACT" = true.
Proof.
  apply (extractRelevantCode_shows_match
           Samples.sample_file "REACT" "render(React);").
  - vm_compute. tauto.
  - reflexivity.
Defined.

End Extras.
